(** * Screenshot application: capture session, crop geometry, annotation canvas

    Shallow embedding of [src/App.tsx] and [src/ImageEditor.tsx].

    - JavaScript numbers are IEEE-754 binary64 values: Rocq's primitive
      [float] with its kernel operations, so [x / 0] is an infinity or a NaN
      exactly as in the running program.
    - React state hooks and refs become fields of one state record per
      component; an operation is a function from the state (and the answers
      of the platform: dialogs, [invoke], the clock, the DOM layout) to the
      next state and the list of platform calls it made, in call order.
    - The 2D canvas is a bitmap of 8-bit premultiplied RGBA pixels with the
      Porter-Duff operators the component selects by name. *)

From Stdlib Require Import ZArith String Ascii List Bool Lia Floats.
From stdpp Require Import base list gmap strings.

(** ** JavaScript values *)

Module JS.

Definition number := float.

(** Classification of a number through its IEEE-754 decoding. *)
Definition isFinite (v : number) : bool :=
  match Prim2SF v with
  | S754_zero _ | S754_finite _ _ _ => true
  | S754_infinity _ | S754_nan => false
  end.

Definition isZero (v : number) : bool :=
  match Prim2SF v with
  | S754_zero _ => true
  | _ => false
  end.

(** Integer part of a finite number (truncation toward zero). *)
Definition truncate (v : number) : option Z :=
  match Prim2SF v with
  | S754_zero _ => Some 0%Z
  | S754_finite sign m e =>
      let magnitude := Z.shiftl (Z.pos m) e in
      Some (if sign then (- magnitude)%Z else magnitude)
  | S754_infinity _ | S754_nan => None
  end.

(** Web IDL conversion of a number to [unsigned long]: NaN and the
    infinities become 0, other values are truncated and reduced modulo
    2^32. *)
Definition toUnsignedLong (v : number) : Z :=
  match truncate v with
  | Some z => (z mod 4294967296)%Z
  | None => 0%Z
  end.

(** Truthiness of the values the components test. *)
Definition truthy_string (s : string) : bool :=
  negb (String.eqb s EmptyString).

Definition truthy_opt_string (s : option string) : bool :=
  match s with
  | Some v => truthy_string v
  | None => false
  end.

Definition truthy_id (n : Z) : bool := negb (Z.eqb n 0).

Definition truthy_opt_id (n : option Z) : bool :=
  match n with
  | Some v => truthy_id v
  | None => false
  end.

(** [s.replace(/[:.]/g, "-")] *)
Fixpoint replace_colon_dot (s : string) : string :=
  match s with
  | EmptyString => EmptyString
  | String c rest =>
      let c' := if (Ascii.eqb c ":" || Ascii.eqb c ".")%bool
                then "-"%char else c in
      String c' (replace_colon_dot rest)
  end.

(** [s.slice(0, n)] for a non-negative [n]. *)
Definition slice0 (n : nat) (s : string) : string := substring 0 n s.

(** [s.split(sep)] for a one-character separator: the list of fields,
    never empty. *)
Fixpoint split (sep : ascii) (s : string) : list string :=
  match s with
  | EmptyString => [EmptyString]
  | String c rest =>
      if Ascii.eqb c sep then EmptyString :: split sep rest
      else match split sep rest with
           | field :: fields => String c field :: fields
           | [] => [String c EmptyString]
           end
  end.

(** An unsigned integer of the DOM as a number. *)
Definition ofNat (n : nat) : number :=
  PrimFloat.of_uint63 (Uint63.of_Z (Z.of_nat n)).

(** [Object.is] on numbers: the same IEEE-754 datum. *)
Definition sameNumber (v w : number) : bool :=
  match Prim2SF v, Prim2SF w with
  | S754_zero s, S754_zero s' => Bool.eqb s s'
  | S754_infinity s, S754_infinity s' => Bool.eqb s s'
  | S754_nan, S754_nan => true
  | S754_finite s m e, S754_finite s' m' e' =>
      (Bool.eqb s s' && Pos.eqb m m' && Z.eqb e e')%bool
  | _, _ => false
  end.

(** How a synchronous call completes. *)
Inductive exception : Type := TypeError | InvalidStateError.

Inductive completion (A : Type) : Type :=
| Normal (value : A)
| Throw (e : exception).
Arguments Normal {A} value.
Arguments Throw {A} e.

(** A settled promise. The rejection reason is kept in the form the
    components use it, its string conversion. *)
Inductive settled (A : Type) : Type :=
| Resolved (value : A)
| Rejected (reason : string).
Arguments Resolved {A} value.
Arguments Rejected {A} reason.

End JS.

(** ** The 2D canvas *)

Module Canvas.

(** One pixel of the backing store: premultiplied 8-bit channels. *)
Record pixel : Type := Pixel { red : Z; green : Z; blue : Z; alpha : Z }.

Definition transparent : pixel := Pixel 0 0 0 0.

Definition pixel_eqb (p q : pixel) : bool :=
  (Z.eqb (red p) (red q) && Z.eqb (green p) (green q)
   && Z.eqb (blue p) (blue q) && Z.eqb (alpha p) (alpha q))%bool.

(** Product of two 8-bit fractions, rounded to nearest. Browsers round
    these products in ways of their own; the product is exact, and the
    same in all of them, when a factor is 0 or 255. *)
Definition mul255 (a b : Z) : Z := ((a * b + 127) / 255)%Z.

Definition scale (p : pixel) (k : Z) : pixel :=
  Pixel (mul255 (red p) k) (mul255 (green p) k)
        (mul255 (blue p) k) (mul255 (alpha p) k).

Definition plus (p q : pixel) : pixel :=
  Pixel (red p + red q) (green p + green q)
        (blue p + blue q) (alpha p + alpha q).

Inductive compositeOperation : Type :=
| source_over
| destination_out.

(** Porter-Duff on premultiplied pixels:
    source-over is [src + dst * (1 - alpha src)],
    destination-out is [dst * (1 - alpha src)]. *)
Definition composite (op : compositeOperation) (src dst : pixel) : pixel :=
  match op with
  | source_over => plus src (scale dst (255 - alpha src))
  | destination_out => scale dst (255 - alpha src)
  end.

(** A bitmap: rows of [width] pixels, stored row after row. *)
Record bitmap : Type :=
  Bitmap { width : nat; height : nat; data : list pixel }.

Definition blank (w h : nat) : bitmap :=
  Bitmap w h (replicate (w * h) transparent).

Definition hasNoPixels (b : bitmap) : bool :=
  (Nat.eqb (width b) 0 || Nat.eqb (height b) 0)%bool.

(** The pixel at column [x] of row [y]; [None] outside the bitmap. *)
Definition getPixel (b : bitmap) (x y : nat) : option pixel :=
  if (x <? width b)%nat then data b !! (y * width b + x)%nat else None.

(** Repaint every pixel of [dst] from its coordinates and old value. *)
Definition repaint (f : nat -> nat -> pixel -> pixel) (dst : bitmap)
  : bitmap :=
  Bitmap (width dst) (height dst)
    (imap (fun i old => f (i mod width dst)%nat (i / width dst)%nat old)
          (data dst)).

(** [ctx.drawImage(src, 0, 0)] with the default source-over operator:
    [src] is painted unscaled at the origin, clipped to [dst]. *)
Definition drawImage (src dst : bitmap) : bitmap :=
  repaint (fun x y old =>
             match getPixel src x y with
             | Some p => composite source_over p old
             | None => old
             end) dst.

(** [ctx.clearRect(0, 0, canvas.width, canvas.height)] *)
Definition clearAll (dst : bitmap) : bitmap :=
  repaint (fun _ _ _ => transparent) dst.

(** [canvas.toDataURL("image/png")], given the PNG encoder: a bitmap
    without pixels serialises to the string ["data:,"]. *)
Definition toDataURL (png_base64 : bitmap -> string) (b : bitmap)
  : string :=
  if hasNoPixels b then "data:,"%string
  else ("data:image/png;base64," ++ png_base64 b)%string.

(** [url.split(",")[1]]; [None] is JavaScript's [undefined]. *)
Definition base64Part (url : string) : option string :=
  JS.split ","%char url !! 1%nat.

(** Setting [canvas.width] or [canvas.height] to a number: the value is
    converted to [unsigned long], and a value above 2^31 - 1 is replaced by
    the attribute's default (300 for the width, 150 for the height). *)
Definition dimensionOfNumber (default : nat) (v : JS.number) : nat :=
  let n := JS.toUnsignedLong v in
  if (n <=? 2147483647)%Z then Z.to_nat n else default.

End Canvas.

(** ** [App.tsx]: the capture session *)

Module WindowInfo.
Record t : Type :=
  Make { id : Z; title : string; app_name : string; width : Z; height : Z }.
End WindowInfo.

Module MonitorInfo.
Record t : Type :=
  Make { id : Z; name : string; width : Z; height : Z; is_primary : bool }.
End MonitorInfo.

(** [Crop] and [PixelCrop] of react-image-crop: a rectangle in the
    coordinates of the rendered image. *)
Module Crop.
Inductive units : Type := px | percent.
Record t : Type :=
  Make { x : JS.number; y : JS.number;
         width : JS.number; height : JS.number; unit : units }.
End Crop.

(** The rendered [<img>] behind [imgRef]: its layout size, the size of the
    picture it shows, and the picture. The DOM gives the four sizes as
    unsigned integers. *)
Module HTMLImageElement.
Record t : Type :=
  Make { naturalWidth : nat; naturalHeight : nat;
         width : nat; height : nat;
         picture : Canvas.bitmap }.
End HTMLImageElement.

Module App.

Import JS.

Inductive Mode : Type := fullscreen | window | area | record.

Definition Mode_eqb (a b : Mode) : bool :=
  match a, b with
  | fullscreen, fullscreen | window, window
  | area, area | record, record => true
  | _, _ => false
  end.

(** The string a [Mode] is in the source. *)
Definition Mode_string (m : Mode) : string :=
  match m with
  | fullscreen => "fullscreen"
  | window => "window"
  | area => "area"
  | record => "record"
  end.

Definition MediaStream := nat.

(** A [MediaRecorder] is known by the stream it records. *)
Record MediaRecorder : Type := { stream : MediaStream }.

Record Blob : Type := { size : nat; bytes : list Z }.

(** The component's state hooks and refs, in declaration order. *)
Record AppState : Type := {
  image : option string;
  loading : bool;
  status : string;
  mode : Mode;
  windows : list WindowInfo.t;
  monitors : list MonitorInfo.t;
  selectedWindowId : option Z;
  selectedMonitorId : option Z;
  crop : option Crop.t;
  completedCrop : option Crop.t;
  imgRef : option HTMLImageElement.t;
  originalImage : option string;
  showSettings : bool;
  defaultPath : option string;
  autoSave : bool;
  isRecording : bool;
  mediaRecorderRef : option MediaRecorder;
  recordedChunksRef : list Blob
}.

(** The initial state of the hooks. *)
Definition initial : AppState :=
  {| image := None; loading := false; status := ""; mode := fullscreen;
     windows := []; monitors := [];
     selectedWindowId := None; selectedMonitorId := None;
     crop := None; completedCrop := None; imgRef := None;
     originalImage := None;
     showSettings := false; defaultPath := None; autoSave := false;
     isRecording := false; mediaRecorderRef := None;
     recordedChunksRef := [] |}.

Definition setImage (v : option string) (s : AppState) : AppState :=
  let '(Build_AppState _ b c d e f g h i j k l m n o p q r) := s in
  Build_AppState v b c d e f g h i j k l m n o p q r.

Definition setLoading (v : bool) (s : AppState) : AppState :=
  let '(Build_AppState a _ c d e f g h i j k l m n o p q r) := s in
  Build_AppState a v c d e f g h i j k l m n o p q r.

Definition setStatus (v : string) (s : AppState) : AppState :=
  let '(Build_AppState a b _ d e f g h i j k l m n o p q r) := s in
  Build_AppState a b v d e f g h i j k l m n o p q r.

Definition setMode (v : Mode) (s : AppState) : AppState :=
  let '(Build_AppState a b c _ e f g h i j k l m n o p q r) := s in
  Build_AppState a b c v e f g h i j k l m n o p q r.

Definition setWindows (v : list WindowInfo.t) (s : AppState) : AppState :=
  let '(Build_AppState a b c d _ f g h i j k l m n o p q r) := s in
  Build_AppState a b c d v f g h i j k l m n o p q r.

Definition setMonitors (v : list MonitorInfo.t) (s : AppState) : AppState :=
  let '(Build_AppState a b c d e _ g h i j k l m n o p q r) := s in
  Build_AppState a b c d e v g h i j k l m n o p q r.

Definition setSelectedWindowId (v : option Z) (s : AppState) : AppState :=
  let '(Build_AppState a b c d e f _ h i j k l m n o p q r) := s in
  Build_AppState a b c d e f v h i j k l m n o p q r.

Definition setSelectedMonitorId (v : option Z) (s : AppState) : AppState :=
  let '(Build_AppState a b c d e f g _ i j k l m n o p q r) := s in
  Build_AppState a b c d e f g v i j k l m n o p q r.

Definition setCrop (v : option Crop.t) (s : AppState) : AppState :=
  let '(Build_AppState a b c d e f g h _ j k l m n o p q r) := s in
  Build_AppState a b c d e f g h v j k l m n o p q r.

Definition setCompletedCrop (v : option Crop.t) (s : AppState) : AppState :=
  let '(Build_AppState a b c d e f g h i _ k l m n o p q r) := s in
  Build_AppState a b c d e f g h i v k l m n o p q r.

Definition setImgRef (v : option HTMLImageElement.t) (s : AppState)
  : AppState :=
  let '(Build_AppState a b c d e f g h i j _ l m n o p q r) := s in
  Build_AppState a b c d e f g h i j v l m n o p q r.

Definition setOriginalImage (v : option string) (s : AppState) : AppState :=
  let '(Build_AppState a b c d e f g h i j k _ m n o p q r) := s in
  Build_AppState a b c d e f g h i j k v m n o p q r.

Definition setIsRecording (v : bool) (s : AppState) : AppState :=
  let '(Build_AppState a b c d e f g h i j k l m n o _ q r) := s in
  Build_AppState a b c d e f g h i j k l m n o v q r.

Definition setMediaRecorderRef (v : option MediaRecorder) (s : AppState)
  : AppState :=
  let '(Build_AppState a b c d e f g h i j k l m n o p _ r) := s in
  Build_AppState a b c d e f g h i j k l m n o p v r.

Definition setRecordedChunksRef (v : list Blob) (s : AppState) : AppState :=
  let '(Build_AppState a b c d e f g h i j k l m n o p q _) := s in
  Build_AppState a b c d e f g h i j k l m n o p q v.

(** Calls out of the component, as they appear in a run. *)
Inductive event : Type :=
| get_windows
| get_monitors
| capture_window (id : Z)
| capture_screen (monitorId : option Z)
| save_dialog (suggested : string) (filterName extension : string)
| save_image (path data : string)
| save_video (path : string) (data : list Z)
| console_error (reason : string)
| setTimeout_saveImage (imgData : string) (delay : nat)
| getDisplayMedia
| new_MediaRecorder (onStream : MediaStream) (mimeType : string)
| recorder_start (r : MediaRecorder)
| recorder_stop (r : MediaRecorder).

Definition run : Type := AppState * list event.

(** [fetchWindows], with the answer of [invoke("get_windows")], for an
    enumeration that no other handler overlaps: the answer arrives in the
    render that issued the call, so that the selection tested after the
    [await] is the one of [s]. [Session.fetchWindowsIn] has the answer
    that arrives later. *)
Definition fetchWindows (answer : settled (list WindowInfo.t))
    (s : AppState) : run :=
  match answer with
  | Resolved wins =>
      let s1 := setWindows wins s in
      let s2 :=
        match wins with
        | first :: _ =>
            if negb (truthy_opt_id (selectedWindowId s))
            then setSelectedWindowId (Some (WindowInfo.id first)) s1
            else s1
        | [] => s1
        end in
      (s2, [get_windows])
  | Rejected error =>
      (setStatus ("Error fetching windows: " ++ error) s,
       [get_windows; console_error error])
  end.

(** [fetchMonitors], with the answer of [invoke("get_monitors")], for an
    enumeration that no other handler overlaps; [Session.fetchMonitorsIn]
    has the answer that arrives later. *)
Definition fetchMonitors (answer : settled (list MonitorInfo.t))
    (s : AppState) : run :=
  match answer with
  | Resolved mons =>
      let s1 := setMonitors mons s in
      let s2 :=
        match mons with
        | first :: _ =>
            if negb (truthy_opt_id (selectedMonitorId s))
            then
              let chosen :=
                match List.find MonitorInfo.is_primary mons with
                | Some primary => MonitorInfo.id primary
                | None => MonitorInfo.id first
                end in
              setSelectedMonitorId (Some chosen) s1
            else s1
        | [] => s1
        end in
      (s2, [get_monitors])
  | Rejected error =>
      (setStatus ("Error fetching monitors: " ++ error) s,
       [get_monitors; console_error error])
  end.

(** The effect that depends on [mode]. *)
Definition modeEffect (wins : settled (list WindowInfo.t))
    (mons : settled (list MonitorInfo.t)) (s : AppState) : run :=
  match mode s with
  | window => fetchWindows wins s
  | _ => fetchMonitors mons s
  end.

(** Choosing a mode with the radio buttons: [setMode], then the effect,
    which React runs only when [mode] has changed. *)
Definition switchMode (m : Mode) (wins : settled (list WindowInfo.t))
    (mons : settled (list MonitorInfo.t)) (s : AppState) : run :=
  if Mode_eqb (mode s) m then (s, [])
  else modeEffect wins mons (setMode m s).

(** File name stamp: [now.toISOString()] with [:] and [.] replaced by
    [-], cut to 19 characters. *)
Definition timestamp (iso : string) : string :=
  slice0 19 (replace_colon_dot iso).

(** The directory of [autoSave && defaultPath], when that test passes. *)
Definition automaticFolder (s : AppState) : option string :=
  match defaultPath s with
  | Some dir => if (autoSave s && truthy_string dir)%bool
                then Some dir else None
  | None => None
  end.

(** [defaultPath ? `${defaultPath}/${filename}` : filename] *)
Definition suggestedPath (s : AppState) (filename : string) : string :=
  match defaultPath s with
  | Some dir => if truthy_string dir
                then (dir ++ "/" ++ filename)%string else filename
  | None => filename
  end.

Definition applyStatus (update : option string) (s : AppState)
  : AppState :=
  match update with
  | Some text => setStatus text s
  | None => s
  end.

(** The body of [saveImage(imgData?)] read off the values of its closure
    [s]: the status it sets, if any (its only write to the state), and its
    calls. [iso] is the clock's [toISOString()], [chosen] what the save
    dialog answers if it is opened ([None] inside [Resolved] is the [null]
    of a dismissed dialog), [written] how [invoke("save_image")] settles
    if it is called. *)
Definition saveImageBody (imgData : option string) (iso : string)
    (chosen : settled (option string)) (written : settled unit)
    (s : AppState) : option string * list event :=
  let dataToSave := if truthy_opt_string imgData then imgData else image s in
  match dataToSave with
  | None => (None, [])
  | Some data =>
      if negb (truthy_string data) then (None, [])
      else
        let filename :=
          ("screenshot_" ++ Mode_string (mode s) ++ "_" ++ timestamp iso
             ++ ".png")%string in
        let persist (path : string) (before : list event) :=
          match written with
          | Resolved _ =>
              (Some ("Saved to " ++ path)%string,
               before ++ [save_image path data])
          | Rejected error =>
              (Some ("Save Error: " ++ error)%string,
               before ++ [save_image path data; console_error error])
          end in
        match automaticFolder s with
        | Some dir => persist (dir ++ "/" ++ filename)%string []
        | None =>
            let opened :=
              [save_dialog (suggestedPath s filename) "Image" "png"] in
            match chosen with
            | Resolved (Some path) =>
                if truthy_string path then persist path opened
                else (None, opened)
            | Resolved None => (None, opened)
            | Rejected error =>
                (Some ("Save Error: " ++ error)%string,
                 opened ++ [console_error error])
            end
        end
  end.

(** [saveImage(imgData?)] called from the current render. *)
Definition saveImage (imgData : option string) (iso : string)
    (chosen : settled (option string)) (written : settled unit)
    (s : AppState) : run :=
  let '(update, calls) := saveImageBody imgData iso chosen written s in
  (applyStatus update s, calls).

(** [saveVideo(bytes)], with the same platform answers. *)
Definition saveVideo (data : list Z) (iso : string)
    (chosen : settled (option string)) (written : settled unit)
    (s : AppState) : run :=
  let filename := ("recording_" ++ timestamp iso ++ ".webm")%string in
  let persist (path : string) (before : list event) : run :=
    match written with
    | Resolved _ =>
        (setStatus ("Video saved to " ++ path) s,
         before ++ [save_video path data])
    | Rejected error =>
        (setStatus ("Save Video Error: " ++ error) s,
         before ++ [save_video path data; console_error error])
    end in
  match automaticFolder s with
  | Some dir => persist (dir ++ "/" ++ filename)%string []
  | None =>
      let opened :=
        [save_dialog (suggestedPath s filename) "Video" "webm"] in
      match chosen with
      | Resolved (Some path) =>
          if truthy_string path then persist path opened
          else (s, opened)
      | Resolved None => (s, opened)
      | Rejected error =>
          (setStatus ("Save Video Error: " ++ error) s,
           opened ++ [console_error error])
      end
  end.

(** [capture()]: [shot] is how the capture command settles. The delayed
    [saveImage(result)] of the auto-save path is left to the timer. *)
Definition capture (shot : settled string) (s : AppState) : run :=
  let s0 := setStatus "Capturing..." (setLoading true s) in
  let byWindow := (Mode_eqb (mode s) window
                   && truthy_opt_id (selectedWindowId s))%bool in
  let call :=
    if byWindow
    then match selectedWindowId s with
         | Some id => capture_window id
         | None => capture_screen (selectedMonitorId s)
         end
    else capture_screen (selectedMonitorId s) in
  match shot with
  | Resolved result =>
      let s1 :=
        if byWindow then setOriginalImage None (setImage (Some result) s0)
        else if Mode_eqb (mode s) area
             then setStatus "Select area to crop"
                    (setImage None (setOriginalImage (Some result) s0))
             else setOriginalImage None (setImage (Some result) s0) in
      let '(s2, timers) :=
        if negb (Mode_eqb (mode s) area)
        then (setStatus "Captured!" s1,
              if autoSave s then [setTimeout_saveImage result 100] else [])
        else (s1, []) in
      (setLoading false s2, call :: timers)
  | Rejected error =>
      (setLoading false (setStatus ("Error: " ++ error) s0),
       [call; console_error error])
  end.

(** [stopRecording()] *)
Definition stopRecording (s : AppState) : run :=
  match mediaRecorderRef s with
  | Some recorder =>
      if isRecording s then (s, [recorder_stop recorder]) else (s, [])
  | None => (s, [])
  end.

(** [startRecording()]: [granted] is how [getDisplayMedia] settles,
    [constructed] whether [new MediaRecorder] accepts the mime type
    ([Rejected] is the exception it throws otherwise). *)
Definition startRecording (granted : settled MediaStream)
    (constructed : settled unit) (s : AppState) : run :=
  let mimeType := "video/webm;codecs=vp9"%string in
  match granted with
  | Resolved onStream =>
      match constructed with
      | Resolved _ =>
          let mediaRecorder := {| stream := onStream |} in
          let s1 := setMediaRecorderRef (Some mediaRecorder) s in
          let s2 := setRecordedChunksRef [] s1 in
          let s3 := setIsRecording true s2 in
          (setStatus "Recording..." s3,
           [getDisplayMedia; new_MediaRecorder onStream mimeType;
            recorder_start mediaRecorder])
      | Rejected err =>
          (setStatus ("Recording Error: " ++ err) s,
           [getDisplayMedia; new_MediaRecorder onStream mimeType;
            console_error err])
      end
  | Rejected err =>
      (setStatus ("Recording Error: " ++ err) s,
       [getDisplayMedia; console_error err])
  end.

(** The [ondataavailable] handler [startRecording] installs. *)
Definition ondataavailable (chunk : Blob) (s : AppState) : AppState :=
  if (0 <? size chunk)%nat
  then setRecordedChunksRef (recordedChunksRef s ++ [chunk]) s
  else s.

(** *** What the rendered page offers *)

(** The controls of the button row and the crop container, by the
    conditions of the JSX. *)
Inductive control : Type :=
| StartRecordingButton
| StopRecordingButton
| CaptureButton
| SaveImageButton
| ConfirmCropButton.

Definition rendered (c : control) (s : AppState) : bool :=
  match c with
  | StartRecordingButton =>
      (Mode_eqb (mode s) record && negb (isRecording s))%bool
  | StopRecordingButton =>
      (Mode_eqb (mode s) record && isRecording s)%bool
  | CaptureButton => negb (Mode_eqb (mode s) record)
  | SaveImageButton =>
      (negb (Mode_eqb (mode s) record) && truthy_opt_string (image s))%bool
  | ConfirmCropButton =>
      (truthy_opt_string (originalImage s) && Mode_eqb (mode s) area)%bool
  end.

Definition disabled (c : control) (s : AppState) : bool :=
  match c with
  | CaptureButton | SaveImageButton => loading s
  | _ => false
  end.

(** A control the user can press. *)
Definition offered (c : control) (s : AppState) : bool :=
  (rendered c s && negb (disabled c s))%bool.

(** React's commit of the crop container: the [<img>] behind [imgRef]
    exists exactly while the container is rendered; [laidOut] is the
    element the browser lays out for it. *)
Definition commitImgRef (laidOut : HTMLImageElement.t) (s : AppState)
  : AppState :=
  if rendered ConfirmCropButton s then setImgRef (Some laidOut) s
  else setImgRef None s.

(** *** Cropping *)

Section Cropping.

(** The browser's part of [confirmCrop]: the PNG encoder behind
    [toDataURL], and the resampler behind the nine-argument
    [drawImage] with high-quality smoothing, which paints the source
    rectangle [sx sy sWidth sHeight] of a picture over the whole of a
    canvas. *)
Variable png_base64 : Canvas.bitmap -> string.
Variable resample :
  Canvas.bitmap -> number -> number -> number -> number ->
  Canvas.bitmap -> Canvas.bitmap.

(** [const scaleX] and [const scaleY] of [confirmCrop]. *)
Definition scaleX (img : HTMLImageElement.t) : number :=
  (ofNat (HTMLImageElement.naturalWidth img)
   / ofNat (HTMLImageElement.width img))%float.

Definition scaleY (img : HTMLImageElement.t) : number :=
  (ofNat (HTMLImageElement.naturalHeight img)
   / ofNat (HTMLImageElement.height img))%float.

(** The canvas size and the source rectangle [confirmCrop] computes
    from the completed crop. *)
Record geometry : Type := {
  canvasWidth : nat;
  canvasHeight : nat;
  sx : number;
  sy : number;
  sWidth : number;
  sHeight : number
}.

Definition cropGeometry (c : Crop.t) (img : HTMLImageElement.t)
  : geometry :=
  {| canvasWidth :=
       Canvas.dimensionOfNumber 300 (Crop.width c * scaleX img)%float;
     canvasHeight :=
       Canvas.dimensionOfNumber 150 (Crop.height c * scaleY img)%float;
     sx := (Crop.x c * scaleX img)%float;
     sy := (Crop.y c * scaleY img)%float;
     sWidth := (Crop.width c * scaleX img)%float;
     sHeight := (Crop.height c * scaleY img)%float |}.

(** The nine-argument [drawImage] of [confirmCrop] on its fresh canvas:
    nothing is painted when an argument is not finite or when the source
    rectangle has a zero side. *)
Definition drawCrop (g : geometry) (img : HTMLImageElement.t)
  : Canvas.bitmap :=
  let canvas := Canvas.blank (canvasWidth g) (canvasHeight g) in
  if (isFinite (sx g) && isFinite (sy g)
      && isFinite (sWidth g) && isFinite (sHeight g)
      && negb (isZero (sWidth g)) && negb (isZero (sHeight g)))%bool
  then resample (HTMLImageElement.picture img)
         (sx g) (sy g) (sWidth g) (sHeight g) canvas
  else canvas.

(** [confirmCrop()]. A canvas element always yields its 2D context. The
    auto-save call [saveImage(base64)] is the [saveImage] of the render
    the button belongs to: it reads that render's values and sets its
    status after ["Cropped!"]. *)
Definition confirmCrop (iso : string)
    (chosen : settled (option string)) (written : settled unit)
    (s : AppState) : run :=
  match completedCrop s, imgRef s, originalImage s with
  | Some c, Some img, Some original =>
      if truthy_string original then
        let canvas := drawCrop (cropGeometry c img) img in
        let base64 :=
          Canvas.base64Part (Canvas.toDataURL png_base64 canvas) in
        let s1 := setImage base64 s in
        let s2 := setOriginalImage None s1 in
        let s3 := setStatus "Cropped!" s2 in
        if autoSave s then
          let '(update, calls) :=
            saveImageBody base64 iso chosen written s in
          (applyStatus update s3, calls)
        else (s3, [])
      else (s, [])
  | _, _, _ => (s, [])
  end.

End Cropping.

End App.

(** ** [ImageEditor.tsx]: the annotation surface *)

(** A point of the canvas, as [getCoordinates] returns it. *)
Module Point.
Record t : Type := Make { x : JS.number; y : JS.number }.
End Point.

(** A colour as the [rgba(r, g, b, a)] function of CSS gives it. *)
Module Rgba.
Record t : Type := Make { r : Z; g : Z; b : Z; a : JS.number }.
End Rgba.

(** The rectangle [getBoundingClientRect()] returns. *)
Module DOMRect.
Record t : Type :=
  Make { left : JS.number; top : JS.number;
         width : JS.number; height : JS.number }.
End DOMRect.

Module ImageEditor.

Import JS.

Inductive Tool : Type := pen | eraser.

Definition Tool_eqb (a b : Tool) : bool :=
  match a, b with
  | pen, pen | eraser, eraser => true
  | _, _ => false
  end.

Record Dimensions : Type := { width : nat; height : nat }.

Definition Dimensions_eqb (a b : Dimensions) : bool :=
  (Nat.eqb (width a) (width b) && Nat.eqb (height a) (height b))%bool.

(** *** The 2D context of the annotation canvas *)

(** A subpath: its points in order, and whether [closePath] closed it. *)
Record subpath : Type := { points : list Point.t; closed : bool }.

Inductive lineShape : Type := sharp | round.

Record Context2D : Type := {
  lineCap : lineShape;
  lineJoin : lineShape;
  ctxLineWidth : number;
  globalCompositeOperation : Canvas.compositeOperation;
  strokeStyle : Rgba.t;
  path : list subpath
}.

(** The state of a context on a canvas whose size was just set. *)
Definition defaultContext : Context2D :=
  {| lineCap := sharp; lineJoin := sharp; ctxLineWidth := 1%float;
     globalCompositeOperation := Canvas.source_over;
     strokeStyle := Rgba.Make 0 0 0 1%float;
     path := [] |}.

Definition clamp255 (v : Z) : Z := Z.max 0 (Z.min 255 v).

(** The 8-bit alpha of a CSS alpha value, clamped to the unit interval. *)
Definition alpha8 (v : number) : Z :=
  if (v <=? 0)%float then 0%Z
  else if (1 <=? v)%float then 255%Z
  else match truncate (v * 255 + 0.5)%float with
       | Some n => clamp255 n
       | None => 0%Z
       end.

(** The premultiplied pixel a colour paints at full coverage. *)
Definition paint (c : Rgba.t) : Canvas.pixel :=
  let alpha := alpha8 (Rgba.a c) in
  Canvas.Pixel (Canvas.mul255 (clamp255 (Rgba.r c)) alpha)
               (Canvas.mul255 (clamp255 (Rgba.g c)) alpha)
               (Canvas.mul255 (clamp255 (Rgba.b c)) alpha)
               alpha.

Definition beginPath (ctx : Context2D) : Context2D :=
  {| lineCap := lineCap ctx; lineJoin := lineJoin ctx;
     ctxLineWidth := ctxLineWidth ctx;
     globalCompositeOperation := globalCompositeOperation ctx;
     strokeStyle := strokeStyle ctx;
     path := [] |}.

Definition withPath (p : list subpath) (ctx : Context2D) : Context2D :=
  {| lineCap := lineCap ctx; lineJoin := lineJoin ctx;
     ctxLineWidth := ctxLineWidth ctx;
     globalCompositeOperation := globalCompositeOperation ctx;
     strokeStyle := strokeStyle ctx;
     path := p |}.

(** [ctx.moveTo(x, y)]: a new subpath; ignored unless both coordinates
    are finite. *)
Definition moveTo (p : Point.t) (ctx : Context2D) : Context2D :=
  if (isFinite (Point.x p) && isFinite (Point.y p))%bool
  then withPath (path ctx ++ [{| points := [p]; closed := false |}]) ctx
  else ctx.

(** Append a point to the last subpath of a non-empty path. *)
Fixpoint extendLast (p : Point.t) (subs : list subpath) : list subpath :=
  match subs with
  | [] => []
  | [last] => [{| points := points last ++ [p]; closed := closed last |}]
  | first :: rest => first :: extendLast p rest
  end.

(** [ctx.lineTo(x, y)]: ignored unless both coordinates are finite; on a
    path without subpaths it starts one at the point. *)
Definition lineTo (p : Point.t) (ctx : Context2D) : Context2D :=
  if (isFinite (Point.x p) && isFinite (Point.y p))%bool
  then match path ctx with
       | [] => withPath [{| points := [p]; closed := false |}] ctx
       | subs => withPath (extendLast p subs) ctx
       end
  else ctx.

(** Mark the last subpath closed and open a new one at its first
    point. *)
Fixpoint closeLast (subs : list subpath) : list subpath :=
  match subs with
  | [] => []
  | [last] =>
      {| points := points last; closed := true |}
      :: match points last with
         | start :: _ => [{| points := [start]; closed := false |}]
         | [] => []
         end
  | first :: rest => first :: closeLast rest
  end.

(** [ctx.closePath()] *)
Definition closePath (ctx : Context2D) : Context2D :=
  withPath (closeLast (path ctx)) ctx.

(** [ctx.lineWidth = v]: ignored unless [v] is finite and positive. *)
Definition setCtxLineWidth (v : number) (ctx : Context2D) : Context2D :=
  if (isFinite v && (0 <? v)%float)%bool then
    {| lineCap := lineCap ctx; lineJoin := lineJoin ctx;
       ctxLineWidth := v;
       globalCompositeOperation := globalCompositeOperation ctx;
       strokeStyle := strokeStyle ctx;
       path := path ctx |}
  else ctx.

Definition setGlobalCompositeOperation (op : Canvas.compositeOperation)
    (ctx : Context2D) : Context2D :=
  {| lineCap := lineCap ctx; lineJoin := lineJoin ctx;
     ctxLineWidth := ctxLineWidth ctx;
     globalCompositeOperation := op;
     strokeStyle := strokeStyle ctx;
     path := path ctx |}.

(** [ctx.strokeStyle = text]: [None] is a string CSS does not parse as a
    colour, which leaves the style as it was. *)
Definition setStrokeStyle (parsed : option Rgba.t) (ctx : Context2D)
  : Context2D :=
  match parsed with
  | Some c =>
      {| lineCap := lineCap ctx; lineJoin := lineJoin ctx;
         ctxLineWidth := ctxLineWidth ctx;
         globalCompositeOperation := globalCompositeOperation ctx;
         strokeStyle := c;
         path := path ctx |}
  | None => ctx
  end.

(** [ctx.lineCap = "round"; ctx.lineJoin = "round"] *)
Definition setRoundLines (ctx : Context2D) : Context2D :=
  {| lineCap := round; lineJoin := round;
     ctxLineWidth := ctxLineWidth ctx;
     globalCompositeOperation := globalCompositeOperation ctx;
     strokeStyle := strokeStyle ctx;
     path := path ctx |}.

(** The [<canvas>] behind [canvasRef]: its bitmap and its context. *)
Record CanvasElement : Type := {
  bitmap : Canvas.bitmap;
  context : Context2D
}.

Definition freshCanvas (d : Dimensions) : CanvasElement :=
  {| bitmap := Canvas.blank (width d) (height d);
     context := defaultContext |}.

Definition onContext (f : Context2D -> Context2D) (canvas : CanvasElement)
  : CanvasElement :=
  {| bitmap := bitmap canvas; context := f (context canvas) |}.

(** *** [parseInt(text, 16)] *)

Definition hexDigit (c : ascii) : option Z :=
  let n := Z.of_nat (nat_of_ascii c) in
  if ((48 <=? n) && (n <=? 57))%Z%bool then Some (n - 48)%Z
  else if ((97 <=? n) && (n <=? 102))%Z%bool then Some (n - 87)%Z
  else if ((65 <=? n) && (n <=? 70))%Z%bool then Some (n - 55)%Z
  else None.

(** The value of the longest prefix of hexadecimal digits after the
    digits read so far; [None] when there is no digit at all. *)
Fixpoint hexDigits (read : option Z) (s : string) : option Z :=
  match s with
  | EmptyString => read
  | String c rest =>
      match hexDigit c with
      | Some d =>
          hexDigits (Some (16 * match read with Some v => v | None => 0 end
                           + d)%Z) rest
      | None => read
      end
  end.

Definition isWhiteSpace (c : ascii) : bool :=
  let n := nat_of_ascii c in
  ((9 <=? n)%nat && (n <=? 13)%nat || Nat.eqb n 32)%bool.

Fixpoint trimStart (s : string) : string :=
  match s with
  | String c rest => if isWhiteSpace c then trimStart rest else s
  | EmptyString => EmptyString
  end.

(** [parseInt(s, 16)]: leading white space, a sign, a [0x] prefix, then
    the digits; [None] is [NaN]. *)
Definition parseInt16 (s : string) : option Z :=
  let '(negative, unsigned) :=
    match trimStart s with
    | String "-" rest => (true, rest)
    | String "+" rest => (false, rest)
    | other => (false, other)
    end in
  let digits :=
    match unsigned with
    | String "0" (String "x" rest) => rest
    | String "0" (String "X" rest) => rest
    | other => other
    end in
  match hexDigits None digits with
  | Some v => Some (if negative then (- v)%Z else v)
  | None => None
  end.

(** [color.slice(from, to)] for the constant bounds of the source. *)
Definition slice (from to : nat) (s : string) : string :=
  substring from (to - from) s.

(** The colour CSS reads from
    [`rgba(${r}, ${g}, ${b}, ${opacity})`]: none when a channel is [NaN]
    or the opacity prints as [NaN] or [Infinity]. *)
Definition penColor (color : string) (opacity : number) : option Rgba.t :=
  match parseInt16 (slice 1 3 color),
        parseInt16 (slice 3 5 color),
        parseInt16 (slice 5 7 color) with
  | Some red, Some green, Some blue =>
      if isFinite opacity
      then Some (Rgba.Make red green blue opacity)
      else None
  | _, _, _ => None
  end.

(** *** The component *)

(** A pointer event of React, with the fields [getCoordinates] reads. *)
Inductive PointerEvent : Type :=
| MouseEvent (clientX clientY : number)
| TouchEvent (touches : list (number * number)).

(** The props, state hooks and refs of the component. *)
Record EditorState : Type := {
  imageData : string;
  canvasRef : option CanvasElement;
  isDrawing : bool;
  tool : Tool;
  color : string;
  opacity : number;
  lineWidth : number;
  dimensions : Dimensions
}.

Definition setCanvasRef (v : option CanvasElement) (s : EditorState)
  : EditorState :=
  {| imageData := imageData s; canvasRef := v; isDrawing := isDrawing s;
     tool := tool s; color := color s; opacity := opacity s;
     lineWidth := lineWidth s; dimensions := dimensions s |}.

Definition setIsDrawing (v : bool) (s : EditorState) : EditorState :=
  {| imageData := imageData s; canvasRef := canvasRef s; isDrawing := v;
     tool := tool s; color := color s; opacity := opacity s;
     lineWidth := lineWidth s; dimensions := dimensions s |}.

Definition withTool (v : Tool) (s : EditorState) : EditorState :=
  {| imageData := imageData s; canvasRef := canvasRef s;
     isDrawing := isDrawing s;
     tool := v; color := color s; opacity := opacity s;
     lineWidth := lineWidth s; dimensions := dimensions s |}.

Definition withColor (v : string) (s : EditorState) : EditorState :=
  {| imageData := imageData s; canvasRef := canvasRef s;
     isDrawing := isDrawing s;
     tool := tool s; color := v; opacity := opacity s;
     lineWidth := lineWidth s; dimensions := dimensions s |}.

Definition withOpacity (v : number) (s : EditorState) : EditorState :=
  {| imageData := imageData s; canvasRef := canvasRef s;
     isDrawing := isDrawing s;
     tool := tool s; color := color s; opacity := v;
     lineWidth := lineWidth s; dimensions := dimensions s |}.

Definition withLineWidth (v : number) (s : EditorState) : EditorState :=
  {| imageData := imageData s; canvasRef := canvasRef s;
     isDrawing := isDrawing s;
     tool := tool s; color := color s; opacity := opacity s;
     lineWidth := v; dimensions := dimensions s |}.

Definition withDimensions (v : Dimensions) (s : EditorState) : EditorState :=
  {| imageData := imageData s; canvasRef := canvasRef s;
     isDrawing := isDrawing s;
     tool := tool s; color := color s; opacity := opacity s;
     lineWidth := lineWidth s; dimensions := v |}.

(** The effect on [tool, color, opacity, lineWidth]. *)
Definition settingsEffect (s : EditorState) : EditorState :=
  match canvasRef s with
  | Some canvas => setCanvasRef (Some (onContext setRoundLines canvas)) s
  | None => s
  end.

(** The component after its first render, canvas mounted, for the picture
    [data]. *)
Definition mounted (data : string) : EditorState :=
  settingsEffect
    {| imageData := data;
       canvasRef := Some (freshCanvas {| width := 0; height := 0 |});
       isDrawing := false; tool := pen; color := "#ff0000";
       opacity := 1%float; lineWidth := 5%float;
       dimensions := {| width := 0; height := 0 |} |}.

(** The toolbar: a state setter, then the effect when the value changed. *)
Definition setTool (v : Tool) (s : EditorState) : EditorState :=
  if Tool_eqb (tool s) v then s else settingsEffect (withTool v s).

Definition setColor (v : string) (s : EditorState) : EditorState :=
  if String.eqb (color s) v then s else settingsEffect (withColor v s).

Definition setOpacity (v : number) (s : EditorState) : EditorState :=
  if sameNumber (opacity s) v then s else settingsEffect (withOpacity v s).

Definition setLineWidth (v : number) (s : EditorState) : EditorState :=
  if sameNumber (lineWidth s) v then s
  else settingsEffect (withLineWidth v s).

(** [getCoordinates(e, canvas)], with the rectangle the canvas occupies
    on screen; a touch event without touches makes [e.touches[0].clientX]
    throw. *)
Definition getCoordinates (e : PointerEvent) (canvas : CanvasElement)
    (rect : DOMRect.t) : completion Point.t :=
  let client :=
    match e with
    | TouchEvent (first :: _) => Normal first
    | TouchEvent [] => Throw TypeError
    | MouseEvent clientX clientY => Normal (clientX, clientY)
    end in
  match client with
  | Normal (clientX, clientY) =>
      let scaleX :=
        (ofNat (Canvas.width (bitmap canvas)) / DOMRect.width rect)%float in
      let scaleY :=
        (ofNat (Canvas.height (bitmap canvas)) / DOMRect.height rect)%float in
      Normal (Point.Make ((clientX - DOMRect.left rect) * scaleX)%float
                         ((clientY - DOMRect.top rect) * scaleY)%float)
  | Throw e => Throw e
  end.

(** [startDrawing(e)]. [setIsDrawing(true)] is queued before
    [getCoordinates] can throw, so it takes effect either way. *)
Definition startDrawing (e : PointerEvent) (rect : DOMRect.t)
    (s : EditorState) : EditorState :=
  match canvasRef s with
  | None => s
  | Some canvas =>
      match getCoordinates e canvas rect with
      | Throw _ => setIsDrawing true s
      | Normal p =>
          let ctx1 := moveTo p (beginPath (context canvas)) in
          let ctx2 := setCtxLineWidth (lineWidth s) ctx1 in
          let ctx3 :=
            match tool s with
            | eraser =>
                setStrokeStyle (Some (Rgba.Make 0 0 0 1%float))
                  (setGlobalCompositeOperation Canvas.destination_out ctx2)
            | pen =>
                setStrokeStyle (penColor (color s) (opacity s))
                  (setGlobalCompositeOperation Canvas.source_over ctx2)
            end in
          setIsDrawing true
            (setCanvasRef
               (Some {| bitmap := bitmap canvas; context := ctx3 |}) s)
      end
  end.

Section Drawing.

(** The browser's rasteriser: how much of the pixel in column [x] of row
    [y] the stroke of a path covers, from 0 (none) to 255 (all of it), for
    the line cap, line join and line width of the context. *)
Variable coverage :
  lineShape -> lineShape -> number -> list subpath -> nat -> nat -> Z.

(** The browser's PNG decoder and encoder ([None]: not a picture, the
    image's [onload] never fires). *)
Variable decode_png : string -> option Canvas.bitmap.
Variable png_base64 : Canvas.bitmap -> string.

(** [ctx.stroke()]: the current path is painted in the stroke style
    through the composite operation of the context. *)
Definition stroke (canvas : CanvasElement) : CanvasElement :=
  let ctx := context canvas in
  {| bitmap :=
       Canvas.repaint
         (fun x y old =>
            Canvas.composite (globalCompositeOperation ctx)
              (Canvas.scale (paint (strokeStyle ctx))
                 (coverage (lineCap ctx) (lineJoin ctx) (ctxLineWidth ctx)
                    (path ctx) x y))
              old)
         (bitmap canvas);
     context := ctx |}.

(** [draw(e)] *)
Definition draw (e : PointerEvent) (rect : DOMRect.t) (s : EditorState)
  : EditorState :=
  if negb (isDrawing s) then s
  else
    match canvasRef s with
    | None => s
    | Some canvas =>
        match getCoordinates e canvas rect with
        | Throw _ => s
        | Normal p =>
            setCanvasRef (Some (stroke (onContext (lineTo p) canvas))) s
        end
    end.

(** [stopDrawing()] *)
Definition stopDrawing (s : EditorState) : EditorState :=
  if negb (isDrawing s) then s
  else
    let s1 := setIsDrawing false s in
    match canvasRef s with
    | Some canvas => setCanvasRef (Some (onContext closePath canvas)) s1
    | None => s1
    end.

(** [clearCanvas()] *)
Definition clearCanvas (s : EditorState) : EditorState :=
  match canvasRef s with
  | Some canvas =>
      setCanvasRef
        (Some {| bitmap := Canvas.clearAll (bitmap canvas);
                 context := context canvas |}) s
  | None => s
  end.

(** The [onload] of the effect on [imageData]: the picture's size becomes
    [dimensions]; a canvas whose [width] or [height] attribute changes is
    reset to a transparent bitmap of the new size with a default context. *)
Definition onload (s : EditorState) : EditorState :=
  match decode_png (imageData s) with
  | None => s
  | Some img =>
      let d := {| width := Canvas.width img; height := Canvas.height img |} in
      let s1 := withDimensions d s in
      if Dimensions_eqb (dimensions s) d then s1
      else match canvasRef s with
           | Some _ => setCanvasRef (Some (freshCanvas d)) s1
           | None => s1
           end
  end.

(** The export canvas of [getMergedImage] when its promise settles:
    the picture, then the annotation canvas over it. [None]: the promise
    stays pending, because the picture does not load or because
    [drawImage] throws on an annotation canvas without pixels. *)
Definition mergedCanvas (s : EditorState) : option Canvas.bitmap :=
  match decode_png (imageData s) with
  | None => None
  | Some img =>
      let exportCanvas :=
        Canvas.blank (width (dimensions s)) (height (dimensions s)) in
      let withImage := Canvas.drawImage img exportCanvas in
      match canvasRef s with
      | Some canvas =>
          if Canvas.hasNoPixels (bitmap canvas) then None
          else Some (Canvas.drawImage (bitmap canvas) withImage)
      | None => Some withImage
      end
  end.

(** [getMergedImage()]: the value the promise resolves to, if it does
    (the inner [None] is [undefined]). It writes no state. *)
Definition getMergedImage (s : EditorState) : option (option string) :=
  match mergedCanvas s with
  | Some exportCanvas =>
      Some (Canvas.base64Part (Canvas.toDataURL png_base64 exportCanvas))
  | None => None
  end.

(** What the toolbar and the canvas listeners of the JSX dispatch, with
    the picture's [onload]. *)
Inductive interaction : Type :=
| ClickPen
| ClickEraser
| ClickClearAll
| ChangeColor (value : string)
| ChangeOpacity (value : number)
| ChangeSize (value : number)
| PointerDown (e : PointerEvent) (rect : DOMRect.t)
| PointerMove (e : PointerEvent) (rect : DOMRect.t)
| PointerUp
| ImageLoaded.

Definition dispatch (i : interaction) (s : EditorState) : EditorState :=
  match i with
  | ClickPen => setTool pen s
  | ClickEraser => setTool eraser s
  | ClickClearAll => clearCanvas s
  | ChangeColor value => setColor value s
  | ChangeOpacity value => setOpacity value s
  | ChangeSize value => setLineWidth value s
  | PointerDown e rect => startDrawing e rect s
  | PointerMove e rect => draw e rect s
  | PointerUp => stopDrawing s
  | ImageLoaded => onload s
  end.

Definition dispatchAll (inputs : list interaction) (s : EditorState)
  : EditorState :=
  fold_left (fun state i => dispatch i state) inputs s.

(** The interactions that can change a pixel of the annotation canvas:
    the two that paint and the one that resizes. *)
Definition touchesPixels (i : interaction) : bool :=
  match i with
  | ClickClearAll | PointerMove _ _ | ImageLoaded => true
  | _ => false
  end.

End Drawing.

End ImageEditor.

(** ** [App.tsx]: settings, the end of a recording, and the page as a whole *)

Module Session.

Import JS App.

Definition setShowSettings (v : bool) (s : AppState) : AppState :=
  let '(Build_AppState a b c d e f g h i j k l _ n o p q r) := s in
  Build_AppState a b c d e f g h i j k l v n o p q r.

Definition setDefaultPath (v : option string) (s : AppState) : AppState :=
  let '(Build_AppState a b c d e f g h i j k l m _ o p q r) := s in
  Build_AppState a b c d e f g h i j k l m v o p q r.

Definition setAutoSave (v : bool) (s : AppState) : AppState :=
  let '(Build_AppState a b c d e f g h i j k l m n _ p q r) := s in
  Build_AppState a b c d e f g h i j k l m n v p q r.

(** The effect that runs once after the first render: the saved folder
    and the saved auto-save flag are read from [localStorage], a map from
    keys to texts. *)
Definition loadSettings (localStorage : gmap string string) (s : AppState)
  : AppState :=
  let s1 :=
    match localStorage !! "defaultPath"%string with
    | Some savedPath =>
        if truthy_string savedPath then setDefaultPath (Some savedPath) s
        else s
    | None => s
    end in
  match localStorage !! "autoSave"%string with
  | Some savedAutoSave =>
      if truthy_string savedAutoSave
      then setAutoSave (String.eqb savedAutoSave "true") s1
      else s1
  | None => s1
  end.

(** [String(b)] for a boolean. *)
Definition String_of_bool (b : bool) : string :=
  if b then "true" else "false".

(** [toggleAutoSave()] *)
Definition toggleAutoSave (s : AppState) (localStorage : gmap string string)
  : AppState * gmap string string :=
  let newValue := negb (autoSave s) in
  (setAutoSave newValue s,
   <["autoSave"%string := String_of_bool newValue]> localStorage).

(** [selectDefaultFolder()]: [selected] is how the folder dialog settles
    ([None] inside [Resolved] is the [null] of a dismissed dialog; with
    [multiple: false] the dialog gives one path). *)
Definition selectDefaultFolder (selected : settled (option string))
    (s : AppState) (localStorage : gmap string string)
  : AppState * gmap string string :=
  match selected with
  | Resolved (Some path) =>
      if truthy_string path
      then (setDefaultPath (Some path) s,
            <["defaultPath"%string := path]> localStorage)
      else (s, localStorage)
  | Resolved None => (s, localStorage)
  | Rejected error =>
      (setStatus ("Error selecting folder: " ++ error) s, localStorage)
  end.

(** The body of [saveVideo(bytes)] read off the values of its closure
    [s]: the status it sets, if any (its only write to the state), and its
    calls. *)
Definition saveVideoBody (data : list Z) (iso : string)
    (chosen : settled (option string)) (written : settled unit)
    (s : AppState) : option string * list event :=
  let filename := ("recording_" ++ timestamp iso ++ ".webm")%string in
  let persist (path : string) (before : list event) :=
    match written with
    | Resolved _ =>
        (Some ("Video saved to " ++ path)%string,
         before ++ [save_video path data])
    | Rejected error =>
        (Some ("Save Video Error: " ++ error)%string,
         before ++ [save_video path data; console_error error])
    end in
  match automaticFolder s with
  | Some dir => persist (dir ++ "/" ++ filename)%string []
  | None =>
      let opened :=
        [save_dialog (suggestedPath s filename) "Video" "webm"] in
      match chosen with
      | Resolved (Some path) =>
          if truthy_string path then persist path opened
          else (None, opened)
      | Resolved None => (None, opened)
      | Rejected error =>
          (Some ("Save Video Error: " ++ error)%string,
           opened ++ [console_error error])
      end
  end.

(** The [onstop] handler [startRecording] installs on the recorder [r].
    [closure] is the state of the render in which [startRecording] ran:
    the [saveVideo] the handler calls is that render's. The buffered
    chunks are read from the ref, joined into one blob and handed to
    [saveVideo], which is not awaited: the tracks of the stream are
    stopped, the flag is cleared and the status is set before [saveVideo]
    sets its own. The result lists the calls of [saveVideo] and the
    streams whose tracks were stopped. *)
Definition onstop (r : MediaRecorder) (closure : AppState) (iso : string)
    (chosen : settled (option string)) (written : settled unit)
    (s : AppState) : AppState * list event * list MediaStream :=
  let data := concat (map bytes (recordedChunksRef s)) in
  let '(update, calls) := saveVideoBody data iso chosen written closure in
  let s1 := setIsRecording false s in
  let s2 := setStatus "Recording finished and saved." s1 in
  (applyStatus update s2, calls, [stream r]).

(** [fetchWindows] when the state has moved on before the answer
    arrives. The function is the one of the render that issued the call:
    the [selectedWindowId] it tests after the [await] is the one of that
    render, [closure]; the setters write to the state of the moment, [s]. *)
Definition fetchWindowsIn (closure : AppState)
    (answer : settled (list WindowInfo.t)) (s : AppState) : run :=
  match answer with
  | Resolved wins =>
      let s1 := setWindows wins s in
      let s2 :=
        match wins with
        | first :: _ =>
            if negb (truthy_opt_id (selectedWindowId closure))
            then setSelectedWindowId (Some (WindowInfo.id first)) s1
            else s1
        | [] => s1
        end in
      (s2, [get_windows])
  | Rejected error =>
      (setStatus ("Error fetching windows: " ++ error) s,
       [get_windows; console_error error])
  end.

(** [fetchMonitors], in the same way. *)
Definition fetchMonitorsIn (closure : AppState)
    (answer : settled (list MonitorInfo.t)) (s : AppState) : run :=
  match answer with
  | Resolved mons =>
      let s1 := setMonitors mons s in
      let s2 :=
        match mons with
        | first :: _ =>
            if negb (truthy_opt_id (selectedMonitorId closure))
            then
              let chosen :=
                match List.find MonitorInfo.is_primary mons with
                | Some primary => MonitorInfo.id primary
                | None => MonitorInfo.id first
                end in
              setSelectedMonitorId (Some chosen) s1
            else s1
        | [] => s1
        end in
      (s2, [get_monitors])
  | Rejected error =>
      (setStatus ("Error fetching monitors: " ++ error) s,
       [get_monitors; console_error error])
  end.

(** The answer to an enumeration, with the render that issued it. *)
Inductive answer : Type :=
| WindowsAnswer (closure : AppState) (wins : settled (list WindowInfo.t))
| MonitorsAnswer (closure : AppState) (mons : settled (list MonitorInfo.t)).

Definition receive (a : answer) (s : AppState) : AppState :=
  match a with
  | WindowsAnswer closure wins => fst (fetchWindowsIn closure wins s)
  | MonitorsAnswer closure mons => fst (fetchMonitorsIn closure mons s)
  end.

Definition receiveAll (answers : list answer) (s : AppState) : AppState :=
  fold_left (fun state a => receive a state) answers s.

Section Page.

Variable png_base64 : Canvas.bitmap -> string.
Variable resample :
  Canvas.bitmap -> number -> number -> number -> number ->
  Canvas.bitmap -> Canvas.bitmap.

(** What the page can be made to do, with the platform's answers: the
    handlers wired up in the JSX, the recorder's two events, React's
    commit of the crop image, and the delayed [saveImage(result)] of
    [capture], which belongs to the render [closure] that set the timer. *)
Inductive action : Type :=
| ChooseMode (m : Mode) (wins : settled (list WindowInfo.t))
    (mons : settled (list MonitorInfo.t))
| RefreshWindows (wins : settled (list WindowInfo.t))
| RefreshMonitors (mons : settled (list MonitorInfo.t))
| SelectWindow (id : Z)
| SelectMonitor (id : Z)
| ClickCapture (shot : settled string)
| ChangeCrop (c : Crop.t)
| CompleteCrop (c : Crop.t)
| CommitCropImage (laidOut : HTMLImageElement.t)
| ClickConfirmCrop (iso : string) (chosen : settled (option string))
    (written : settled unit)
| ClickSaveImage (iso : string) (chosen : settled (option string))
    (written : settled unit)
| TimerSaveImage (closure : AppState) (imgData : string) (iso : string)
    (chosen : settled (option string)) (written : settled unit)
| ClickSettings
| ClickStartRecording (granted : settled MediaStream)
    (constructed : settled unit)
| ClickStopRecording
| DataAvailable (chunk : Blob)
| RecorderStopped (r : MediaRecorder) (closure : AppState) (iso : string)
    (chosen : settled (option string)) (written : settled unit).

Definition perform (a : action) (s : AppState) : AppState :=
  match a with
  | ChooseMode m wins mons => fst (switchMode m wins mons s)
  | RefreshWindows wins => fst (fetchWindows wins s)
  | RefreshMonitors mons => fst (fetchMonitors mons s)
  | SelectWindow id => setSelectedWindowId (Some id) s
  | SelectMonitor id => setSelectedMonitorId (Some id) s
  | ClickCapture shot => fst (capture shot s)
  | ChangeCrop c => setCrop (Some c) s
  | CompleteCrop c => setCompletedCrop (Some c) s
  | CommitCropImage laidOut => commitImgRef laidOut s
  | ClickConfirmCrop iso chosen written =>
      fst (confirmCrop png_base64 resample iso chosen written s)
  | ClickSaveImage iso chosen written =>
      fst (saveImage None iso chosen written s)
  | TimerSaveImage closure imgData iso chosen written =>
      applyStatus
        (fst (saveImageBody (Some imgData) iso chosen written closure)) s
  | ClickSettings => setShowSettings (negb (showSettings s)) s
  | ClickStartRecording granted constructed =>
      fst (startRecording granted constructed s)
  | ClickStopRecording => fst (stopRecording s)
  | DataAvailable chunk => ondataavailable chunk s
  | RecorderStopped r closure iso chosen written =>
      fst (fst (onstop r closure iso chosen written s))
  end.

Definition performAll (actions : list action) (s : AppState) : AppState :=
  fold_left (fun state a => perform a state) actions s.

End Page.

End Session.

(** * Properties of the capture session *)

Module AppSpec.

Import JS App.

(** ** Sample sessions *)

(** The clock reading used in the samples. *)
Definition noon : string := "2024-05-06T12:00:00.000Z".

(** A browser that encodes every picture as the same text and resamples by
    leaving the target canvas as it is. *)
Definition samplePng (_ : Canvas.bitmap) : string := "iVBO".

Definition sampleResample (_ : Canvas.bitmap) (_ _ _ _ : number)
    (target : Canvas.bitmap) : Canvas.bitmap := target.

(** A full-screen capture has just delivered a picture. *)
Definition afterCapture : AppState :=
  fst (capture (Resolved "AAAA"%string) initial).

(** Record mode with a running recording that has buffered one chunk. *)
Definition recording : AppState :=
  ondataavailable {| size := 3; bytes := [26; 69; 223]%Z |}
    (fst (startRecording (Resolved 1) (Resolved tt)
            (setMode record initial))).

(** A recorder handle left over while nothing records. *)
Definition stoppedRecorder : AppState :=
  setMediaRecorderRef (Some {| stream := 1 |}) (setMode record initial).

(** A 1920x1080 screenshot shown at 960x540. *)
Definition halfSize : HTMLImageElement.t :=
  HTMLImageElement.Make 1920 1080 960 540 (Canvas.blank 2 2).

(** The same screenshot in an element that takes no room on screen. *)
Definition collapsed : HTMLImageElement.t :=
  HTMLImageElement.Make 1920 1080 0 0 (Canvas.blank 2 2).

(** The selection of the spec's scenario B, and one without area. *)
Definition scenarioB : Crop.t :=
  Crop.Make 100%float 50%float 400%float 300%float Crop.px.

Definition emptySelection : Crop.t :=
  Crop.Make 10%float 10%float 0%float 0%float Crop.px.

(** Area mode after a capture, the screenshot rendered for cropping and a
    completed crop selection [c]. *)
Definition cropping (img : HTMLImageElement.t) (c : Crop.t) : AppState :=
  setCompletedCrop (Some c)
    (commitImgRef img
       (fst (capture (Resolved "ORIG"%string) (setMode area initial)))).

(** The save dialog was opened during a run. *)
Definition dialogOpened (calls : list event) : Prop :=
  exists suggested filterName extension,
    In (save_dialog suggested filterName extension) calls.

(** A run handed something to the persistence commands. *)
Definition persisted (calls : list event) : Prop :=
  (exists path data, In (save_image path data) calls)
  \/ (exists path data, In (save_video path data) calls).

(** ** Numbers *)

Lemma isFinite_div_zero (n d : number) :
  isZero d = true -> isFinite (n / d)%float = false.
Proof.
  unfold isZero, isFinite. rewrite div_spec.
  destruct (Prim2SF d); try discriminate.
  intros _. destruct (Prim2SF n); reflexivity.
Qed.

Lemma isFinite_mul_r (v k : number) :
  isFinite k = false -> isFinite (v * k)%float = false.
Proof.
  unfold isFinite. rewrite mul_spec.
  destruct (Prim2SF k); try discriminate; intros _;
    destruct (Prim2SF v); reflexivity.
Qed.

Lemma toUnsignedLong_not_finite (v : number) :
  isFinite v = false -> toUnsignedLong v = 0%Z.
Proof.
  unfold isFinite, toUnsignedLong, truncate.
  destruct (Prim2SF v); try discriminate; reflexivity.
Qed.

(** A zero times anything is a zero or NaN. *)
Lemma mul_zero_l (v k : number) :
  isZero v = true ->
  isZero (v * k)%float = true \/ isFinite (v * k)%float = false.
Proof.
  unfold isZero, isFinite. rewrite mul_spec.
  destruct (Prim2SF v); try discriminate. intros _.
  destruct (Prim2SF k); simpl; auto.
Qed.

Lemma toUnsignedLong_zero (v : number) :
  isZero v = true -> toUnsignedLong v = 0%Z.
Proof.
  unfold isZero, toUnsignedLong, truncate.
  destruct (Prim2SF v); try discriminate; reflexivity.
Qed.

Lemma dimensionOfNumber_zero_factor (default : nat) (v k : number) :
  isZero v = true -> Canvas.dimensionOfNumber default (v * k)%float = 0%nat.
Proof.
  intros Hv. unfold Canvas.dimensionOfNumber.
  destruct (mul_zero_l v k Hv) as [H | H].
  - rewrite (toUnsignedLong_zero _ H). reflexivity.
  - rewrite (toUnsignedLong_not_finite _ H). reflexivity.
Qed.

(** ** State setters and the fields they leave alone *)

Lemma setStatus_fields (text : string) (s : AppState) :
  image (setStatus text s) = image s
  /\ originalImage (setStatus text s) = originalImage s
  /\ crop (setStatus text s) = crop s
  /\ completedCrop (setStatus text s) = completedCrop s
  /\ mode (setStatus text s) = mode s.
Proof. destruct s; repeat split. Qed.




(** ** Mode switches *)












(** ** Recording *)

(** C10: without a recorder handle, or while the recording flag is off,
    [stopRecording] calls nothing and leaves the state as it is. *)
Theorem stopRecording_idle_noop (s : AppState) :
  mediaRecorderRef s = None \/ isRecording s = false ->
  stopRecording s = (s, []).
Proof.
  unfold stopRecording. intros [H | H]; rewrite H.
  - reflexivity.
  - destruct (mediaRecorderRef s); reflexivity.
Qed.

Lemma stopRecording_idle_noop_witness :
  (mediaRecorderRef stoppedRecorder = None
   \/ isRecording stoppedRecorder = false)
  /\ mediaRecorderRef stoppedRecorder = Some {| stream := 1 |}
  /\ stopRecording stoppedRecorder = (stoppedRecorder, []).
Proof.
  split; [right; reflexivity | split; [reflexivity |]].
  apply (stopRecording_idle_noop stoppedRecorder). right. reflexivity.
Defined.

(** C7, as the code has it: the page offers the start control only while
    [isRecording] is false; once a start has succeeded the flag is set, so
    while a recording is active the start control is not offered and, in
    record mode, the stop control is. *)
Theorem start_not_offered_while_recording (s : AppState) :
  isRecording s = true ->
  offered StartRecordingButton s = false
  /\ (mode s = record -> offered StopRecordingButton s = true)
  /\ forall (onStream : MediaStream) (s0 : AppState),
       isRecording (fst (startRecording (Resolved onStream) (Resolved tt) s0))
       = true.
Proof.
  intros H. unfold offered, rendered, disabled. rewrite H. simpl.
  split; [destruct (Mode_eqb (mode s) record); reflexivity | split].
  - intros ->. reflexivity.
  - intros onStream s0. destruct s0; reflexivity.
Qed.

Lemma start_not_offered_while_recording_witness :
  isRecording recording = true
  /\ offered StartRecordingButton recording = false
  /\ offered StopRecordingButton recording = true.
Proof.
  destruct (start_not_offered_while_recording recording eq_refl)
    as (Hstart & Hstop & _).
  split; [reflexivity | split; [exact Hstart | apply Hstop; reflexivity]].
Defined.

(** C7, as the spec states it, fails: [startRecording] called while a
    recording is active raises nothing; it constructs and starts a second
    recorder, replaces the handle and empties the chunk buffer. *)
Lemma startRecording_while_recording_restarts :
  let r := startRecording (Resolved 2) (Resolved tt) recording in
  isRecording recording = true
  /\ mediaRecorderRef recording = Some {| stream := 1 |}
  /\ recordedChunksRef recording = [{| size := 3; bytes := [26; 69; 223]%Z |}]
  /\ snd r = [getDisplayMedia;
              new_MediaRecorder 2 "video/webm;codecs=vp9";
              recorder_start {| stream := 2 |}]
  /\ mediaRecorderRef (fst r) = Some {| stream := 2 |}
  /\ recordedChunksRef (fst r) = []
  /\ status (fst r) = "Recording..."%string.
Proof. vm_compute. repeat split. Qed.

(** ** Export *)

Lemma not_persisted_dialog_only (suggested filterName extension : string) :
  ~ persisted [save_dialog suggested filterName extension].
Proof.
  intros [(path & data & H) | (path & data & H)];
    simpl in H; destruct H as [H | []]; discriminate H.
Qed.

Lemma not_dialogOpened_nil : ~ dialogOpened [].
Proof. intros (a & b & c & []). Qed.

Lemma saveImage_cancelled (imgData : option string) (iso : string)
    (written : settled unit) (s : AppState) :
  dialogOpened (snd (saveImage imgData iso (Resolved None) written s)) ->
  fst (saveImage imgData iso (Resolved None) written s) = s
  /\ ~ persisted (snd (saveImage imgData iso (Resolved None) written s)).
Proof.
  unfold saveImage, saveImageBody.
  destruct (if truthy_opt_string imgData then imgData else image s)
    as [data|]; [| intros H; destruct (not_dialogOpened_nil H)].
  destruct (truthy_string data); simpl;
    [| intros H; destruct (not_dialogOpened_nil H)].
  destruct (automaticFolder s) as [dir|].
  - destruct written; simpl; intros (a & b & c & H); simpl in H;
      repeat (destruct H as [H | H]; [discriminate H |]); destruct H.
  - simpl. intros _. split; [reflexivity | apply not_persisted_dialog_only].
Qed.

Lemma saveVideo_cancelled (data : list Z) (iso : string)
    (written : settled unit) (s : AppState) :
  dialogOpened (snd (saveVideo data iso (Resolved None) written s)) ->
  fst (saveVideo data iso (Resolved None) written s) = s
  /\ ~ persisted (snd (saveVideo data iso (Resolved None) written s)).
Proof.
  unfold saveVideo.
  destruct (automaticFolder s) as [dir|].
  - destruct written; simpl; intros (a & b & c & H); simpl in H;
      repeat (destruct H as [H | H]; [discriminate H |]); destruct H.
  - simpl. intros _. split; [reflexivity | apply not_persisted_dialog_only].
Qed.

(** C8: when the save dialog is opened and dismissed, the export stops
    there: neither [save_image] nor [save_video] is invoked and the state,
    the held image included, is what it was, for the image export and for
    the video export alike. *)
Theorem cancelled_chooser_aborts_export_only
    (s : AppState) (iso : string) (written : settled unit) :
  (forall imgData : option string,
      dialogOpened (snd (saveImage imgData iso (Resolved None) written s)) ->
      fst (saveImage imgData iso (Resolved None) written s) = s
      /\ image (fst (saveImage imgData iso (Resolved None) written s))
         = image s
      /\ ~ persisted (snd (saveImage imgData iso (Resolved None) written s)))
  /\ (forall data : list Z,
        dialogOpened (snd (saveVideo data iso (Resolved None) written s)) ->
        fst (saveVideo data iso (Resolved None) written s) = s
        /\ ~ persisted (snd (saveVideo data iso (Resolved None) written s))).
Proof.
  split.
  - intros imgData H.
    destruct (saveImage_cancelled imgData iso written s H) as [Hs Hp].
    rewrite Hs. auto.
  - intros data H. apply saveVideo_cancelled, H.
Qed.

Lemma cancelled_chooser_aborts_export_only_witness :
  dialogOpened
    (snd (saveImage None noon (Resolved None) (Resolved tt) afterCapture))
  /\ fst (saveImage None noon (Resolved None) (Resolved tt) afterCapture)
     = afterCapture
  /\ image (fst (saveImage None noon (Resolved None) (Resolved tt)
                  afterCapture)) = Some "AAAA"%string.
Proof.
  assert (H : dialogOpened
                (snd (saveImage None noon (Resolved None) (Resolved tt)
                        afterCapture))).
  { exists "screenshot_fullscreen_2024-05-06T12-00-00.png"%string,
      "Image"%string, "png"%string.
    left. reflexivity. }
  destruct (cancelled_chooser_aborts_export_only afterCapture noon
              (Resolved tt)) as [Himage _].
  destruct (Himage None H) as (Hs & Hi & _).
  split; [exact H | split; [exact Hs | rewrite Hi; reflexivity]].
Defined.

(** ** Cropping *)

Section CroppingFacts.

Variable png_base64 : Canvas.bitmap -> string.
Variable resample :
  Canvas.bitmap -> number -> number -> number -> number ->
  Canvas.bitmap -> Canvas.bitmap.

Lemma applyStatus_fields (update : option string) (s : AppState) :
  image (applyStatus update s) = image s
  /\ originalImage (applyStatus update s) = originalImage s.
Proof. destruct update, s; split; reflexivity. Qed.

(** What [confirmCrop] leaves in the state once its guard has passed. *)
Lemma confirmCrop_result (iso : string) (chosen : settled (option string))
    (written : settled unit) (s : AppState) (c : Crop.t)
    (img : HTMLImageElement.t) (original : string) :
  completedCrop s = Some c -> imgRef s = Some img ->
  originalImage s = Some original -> truthy_string original = true ->
  let s' := fst (confirmCrop png_base64 resample iso chosen written s) in
  image s'
  = Canvas.base64Part
      (Canvas.toDataURL png_base64
         (drawCrop resample (cropGeometry c img) img))
  /\ originalImage s' = None
  /\ (autoSave s = false ->
      status s' = "Cropped!"%string
      /\ snd (confirmCrop png_base64 resample iso chosen written s) = []).
Proof.
  intros Hc Himg Horig Htruthy. unfold confirmCrop.
  rewrite Hc, Himg, Horig, Htruthy.
  destruct (autoSave s).
  - destruct (saveImageBody _ iso chosen written s) as [update calls].
    simpl. destruct (applyStatus_fields update
      (setStatus "Cropped!"
         (setOriginalImage None
            (setImage
               (Canvas.base64Part
                  (Canvas.toDataURL png_base64
                     (drawCrop resample (cropGeometry c img) img))) s))))
      as [Hi Ho].
    rewrite Hi, Ho. destruct s; repeat split; discriminate.
  - destruct s; repeat split.
Qed.

Lemma drawCrop_unpainted (g : geometry) (img : HTMLImageElement.t) :
  (isZero (sWidth g) = true \/ isFinite (sWidth g) = false)
  \/ (isZero (sHeight g) = true \/ isFinite (sHeight g) = false) ->
  drawCrop resample g img = Canvas.blank (canvasWidth g) (canvasHeight g).
Proof.
  unfold drawCrop. intros [[H | H] | [H | H]]; rewrite H;
    destruct (isFinite (sx g)), (isFinite (sy g));
    repeat match goal with
           | |- context [isFinite ?v] => destruct (isFinite v)
           | |- context [isZero ?v] => destruct (isZero v)
           end; reflexivity.
Qed.

Lemma toDataURL_no_pixels (canvas : Canvas.bitmap) :
  Canvas.hasNoPixels canvas = true ->
  Canvas.base64Part (Canvas.toDataURL png_base64 canvas)
  = Some EmptyString.
Proof. unfold Canvas.toDataURL. intros ->. reflexivity. Qed.


(** C6, as the code has it: [confirmCrop] does nothing only while no
    completed crop, no rendered crop image or no pre-crop image is held. A
    selection of zero width or zero height is cropped like any other: the
    pre-crop image is dropped and the held image becomes the empty text a
    canvas without pixels encodes to. *)
Theorem confirmCrop_zero_area_is_cropped
    (iso : string) (chosen : settled (option string))
    (written : settled unit) (s : AppState) :
  (completedCrop s = None \/ imgRef s = None
   \/ truthy_opt_string (originalImage s) = false ->
   confirmCrop png_base64 resample iso chosen written s = (s, []))
  /\ forall (c : Crop.t) (img : HTMLImageElement.t) (original : string),
      completedCrop s = Some c -> imgRef s = Some img ->
      originalImage s = Some original -> truthy_string original = true ->
      isZero (Crop.width c) = true \/ isZero (Crop.height c) = true ->
      let s' := fst (confirmCrop png_base64 resample iso chosen written s) in
      image s' = Some EmptyString
      /\ originalImage s' = None
      /\ (autoSave s = false -> status s' = "Cropped!"%string).
Proof.
  split.
  - unfold confirmCrop. intros [H | [H | H]].
    + rewrite H. reflexivity.
    + rewrite H. destruct (completedCrop s); reflexivity.
    + destruct (completedCrop s), (imgRef s), (originalImage s);
        try reflexivity.
      simpl in H. rewrite H. reflexivity.
  - intros c img original Hc Himg Horig Htruthy Hzero.
    destruct (confirmCrop_result iso chosen written s c img original
                Hc Himg Horig Htruthy) as (Hi & Ho & Hs).
    cbv zeta. rewrite Hi, Ho.
    split; [| split; [reflexivity | intros Ha; apply (Hs Ha)]].
    apply toDataURL_no_pixels.
    rewrite drawCrop_unpainted.
    + unfold Canvas.hasNoPixels, cropGeometry. simpl.
      destruct Hzero as [H | H];
        rewrite (dimensionOfNumber_zero_factor _ _ _ H); simpl;
        [reflexivity | apply orb_true_r].
    + unfold cropGeometry. simpl.
      destruct Hzero as [H | H]; [left | right].
      * destruct (mul_zero_l _ (scaleX img) H); auto.
      * destruct (mul_zero_l _ (scaleY img) H); auto.
Qed.

End CroppingFacts.


Lemma confirmCrop_zero_area_is_cropped_witness :
  completedCrop (cropping halfSize emptySelection) = Some emptySelection
  /\ isZero (Crop.width emptySelection) = true
  /\ image (fst (confirmCrop samplePng sampleResample noon (Resolved None)
                  (Resolved tt) (cropping halfSize emptySelection)))
     = Some EmptyString
  /\ confirmCrop samplePng sampleResample noon (Resolved None) (Resolved tt)
       afterCapture = (afterCapture, []).
Proof.
  destruct (confirmCrop_zero_area_is_cropped samplePng sampleResample noon
              (Resolved None) (Resolved tt)
              (cropping halfSize emptySelection)) as [_ Hzero].
  destruct (Hzero emptySelection halfSize "ORIG"%string
              eq_refl eq_refl eq_refl eq_refl (or_introl eq_refl))
    as (Hi & _ & _).
  destruct (confirmCrop_zero_area_is_cropped samplePng sampleResample noon
              (Resolved None) (Resolved tt) afterCapture) as [Hnoop _].
  split; [reflexivity | split; [reflexivity | split]].
  - exact Hi.
  - apply Hnoop. left. reflexivity.
Defined.

(** C6, as the spec states it, fails: confirming a selection without area
    drops the pre-crop image and leaves an empty image; the state is not
    what it was. *)
Lemma confirmCrop_zero_area_changes_state :
  let s := cropping halfSize emptySelection in
  let s' := fst (confirmCrop samplePng sampleResample noon (Resolved None)
                   (Resolved tt) s) in
  isZero (Crop.width emptySelection) = true
  /\ isZero (Crop.height emptySelection) = true
  /\ originalImage s = Some "ORIG"%string
  /\ image s = None
  /\ originalImage s' = None
  /\ image s' = Some EmptyString
  /\ status s' = "Cropped!"%string.
Proof. vm_compute. repeat split. Qed.

End AppSpec.

(** * Properties of the annotation surface *)

Module ImageEditorSpec.

Import JS ImageEditor.

(** ** Sample browsers and sessions *)

Definition white : Canvas.pixel := Canvas.Pixel 255 255 255 255.

Definition opaqueRed : Canvas.pixel := Canvas.Pixel 255 0 0 255.

(** A decoder for which every text is a picture of one white pixel, and
    one for which it is a row of three. *)
Definition whiteDot (_ : string) : option Canvas.bitmap :=
  Some (Canvas.Bitmap 1 1 [white]).

Definition whiteRow (_ : string) : option Canvas.bitmap :=
  Some (Canvas.Bitmap 3 1 [white; white; white]).

Definition samplePng (_ : Canvas.bitmap) : string := "iVBO".

(** A rasteriser whose strokes cover every pixel. *)
Definition everywhere (_ _ : lineShape) (_ : number) (_ : list subpath)
    (_ _ : nat) : Z := 255%Z.

(** A rasteriser whose strokes cover the pixels that hold a point of the
    path, and nothing else. *)
Definition holdsPoint (column row : nat) (p : Point.t) : bool :=
  match truncate (Point.x p), truncate (Point.y p) with
  | Some px, Some py =>
      (Z.eqb px (Z.of_nat column) && Z.eqb py (Z.of_nat row))%bool
  | _, _ => false
  end.

Definition atPoints (_ _ : lineShape) (_ : number) (p : list subpath)
    (column row : nat) : Z :=
  if existsb (fun sub => existsb (holdsPoint column row) (points sub)) p
  then 255%Z else 0%Z.

(** The canvas shown at its own size, one pixel and three pixels wide. *)
Definition dotRect : DOMRect.t := DOMRect.Make 0%float 0%float 1%float 1%float.

Definition rowRect : DOMRect.t := DOMRect.Make 0%float 0%float 3%float 1%float.

(** A canvas that takes no room on screen. *)
Definition collapsedRect : DOMRect.t :=
  DOMRect.Make 0%float 0%float 0%float 0%float.

Definition centre : PointerEvent := MouseEvent 0.5%float 0.5%float.

(** The editor on a one-pixel white picture, loaded. *)
Definition dotEditor : EditorState := onload whiteDot (mounted "BASE").

(** A pen stroke over the pixel, then the eraser chosen. *)
Definition pennedDot : EditorState :=
  dispatchAll everywhere whiteDot
    [PointerDown centre dotRect; PointerMove centre dotRect; PointerUp;
     ClickEraser]
    dotEditor.

(** The editor on a three-pixel row, in the middle of a pen stroke that
    went from the first pixel to the second. *)
Definition midStroke : EditorState :=
  dispatchAll atPoints whiteRow
    [PointerDown (MouseEvent 0.5%float 0.5%float) rowRect;
     PointerMove (MouseEvent 1.5%float 0.5%float) rowRect]
    (onload whiteRow (mounted "BASE")).

(** An event carries a pointer position unless it is a touch event
    without touches. *)
Definition hasPosition (e : PointerEvent) : bool :=
  match e with
  | TouchEvent [] => false
  | _ => true
  end.

(** What [getMergedImage] reads of the state. *)
Definition surface (s : EditorState)
  : string * Dimensions * option Canvas.bitmap :=
  (imageData s, dimensions s,
   match canvasRef s with
   | Some canvas => Some (bitmap canvas)
   | None => None
   end).

(** Every pixel of a bitmap is transparent. *)
Definition allTransparent (layer : Canvas.bitmap) : Prop :=
  forall (x y : nat) (p : Canvas.pixel),
    Canvas.getPixel layer x y = Some p -> p = Canvas.transparent.

(** ** Pixels *)

Lemma mul255_255 (c : Z) : Canvas.mul255 c 255 = c.
Proof.
  unfold Canvas.mul255. rewrite Z.div_add_l by lia. change (127 / 255)%Z with 0%Z.
  lia.
Qed.

Lemma mul255_0 (c : Z) : Canvas.mul255 c 0 = 0%Z.
Proof. unfold Canvas.mul255. rewrite Z.mul_0_r. reflexivity. Qed.

Lemma scale_0 (p : Canvas.pixel) : Canvas.scale p 0 = Canvas.transparent.
Proof. unfold Canvas.scale. rewrite !mul255_0. reflexivity. Qed.

Lemma source_over_transparent (old : Canvas.pixel) :
  Canvas.composite Canvas.source_over Canvas.transparent old = old.
Proof.
  destruct old as [r g b a]. unfold Canvas.composite, Canvas.plus, Canvas.scale.
  simpl. rewrite !mul255_255. reflexivity.
Qed.

(** Erasing with full coverage: whatever was there, nothing is left. *)
Lemma destination_out_opaque (old : Canvas.pixel) :
  Canvas.composite Canvas.destination_out
    (Canvas.scale (paint (Rgba.Make 0 0 0 1%float)) 255) old
  = Canvas.transparent.
Proof.
  change (Canvas.scale (paint (Rgba.Make 0 0 0 1%float)) 255)
    with (Canvas.Pixel 0 0 0 255).
  apply scale_0.
Qed.

Lemma getPixel_repaint (f : nat -> nat -> Canvas.pixel -> Canvas.pixel)
    (layer : Canvas.bitmap) (x y : nat) :
  Canvas.getPixel (Canvas.repaint f layer) x y
  = f x y <$> Canvas.getPixel layer x y.
Proof.
  unfold Canvas.getPixel, Canvas.repaint. simpl.
  destruct (x <? Canvas.width layer)%nat eqn:Hx; [| reflexivity].
  apply Nat.ltb_lt in Hx.
  rewrite list_lookup_imap.
  rewrite Nat.add_comm, Nat.Div0.mod_add, Nat.div_add by lia.
  rewrite Nat.mod_small, Nat.div_small by lia.
  reflexivity.
Qed.

Lemma repaint_same (f : nat -> nat -> Canvas.pixel -> Canvas.pixel)
    (layer : Canvas.bitmap) :
  (forall x y old, f x y old = old) -> Canvas.repaint f layer = layer.
Proof.
  intros Hf. destruct layer as [w h pixels]. unfold Canvas.repaint. simpl.
  f_equal. rewrite (imap_ext _ (fun _ old => old)).
  - induction pixels as [|p rest IH]; [reflexivity |].
    simpl. f_equal. exact IH.
  - intros i old _. apply Hf.
Qed.

(** Painting a transparent layer over a bitmap changes nothing. *)
Lemma drawImage_transparent (layer target : Canvas.bitmap) :
  allTransparent layer -> Canvas.drawImage layer target = target.
Proof.
  intros Hclear. unfold Canvas.drawImage. apply repaint_same.
  intros x y old. destruct (Canvas.getPixel layer x y) as [p|] eqn:Hp;
    [| reflexivity].
  rewrite (Hclear x y p Hp). apply source_over_transparent.
Qed.

Lemma clearAll_allTransparent (layer : Canvas.bitmap) :
  allTransparent (Canvas.clearAll layer).
Proof.
  intros x y p. unfold Canvas.clearAll. rewrite getPixel_repaint.
  destruct (Canvas.getPixel layer x y); simpl; congruence.
Qed.

(** ** Strokes *)

Section SurfaceFacts.

Variable coverage :
  lineShape -> lineShape -> number -> list subpath -> nat -> nat -> Z.
Variable decode_png : string -> option Canvas.bitmap.
Variable png_base64 : Canvas.bitmap -> string.

Lemma getCoordinates_position (e : PointerEvent) (canvas : CanvasElement)
    (rect : DOMRect.t) :
  hasPosition e = true ->
  exists p, getCoordinates e canvas rect = Normal p.
Proof.
  destruct e as [cx cy | [| [cx cy] rest]]; simpl; try discriminate;
    intros _; eexists; reflexivity.
Qed.

Lemma lineTo_style (p : Point.t) (ctx : Context2D) :
  globalCompositeOperation (lineTo p ctx) = globalCompositeOperation ctx
  /\ strokeStyle (lineTo p ctx) = strokeStyle ctx.
Proof.
  unfold lineTo. destruct (isFinite (Point.x p) && isFinite (Point.y p))%bool;
    [destruct (path ctx) |]; split; reflexivity.
Qed.

(** The pointer moves of a stroke, oldest first. *)
Definition drawAll (moves : list (PointerEvent * DOMRect.t))
    (s : EditorState) : EditorState :=
  fold_left (fun state move => draw coverage (fst move) (snd move) state)
    moves s.

(** The canvas in the middle of an eraser stroke: the context erases with
    an opaque colour, and the bitmap still has the pixels of [before]. *)
Definition erasing (before canvas : CanvasElement) : Prop :=
  globalCompositeOperation (context canvas) = Canvas.destination_out
  /\ strokeStyle (context canvas) = Rgba.Make 0 0 0 1%float
  /\ Canvas.hasNoPixels (bitmap canvas) = Canvas.hasNoPixels (bitmap before)
  /\ forall x y : nat,
      Canvas.getPixel (bitmap before) x y <> None ->
      Canvas.getPixel (bitmap canvas) x y <> None.

Lemma draw_fields (e : PointerEvent) (rect : DOMRect.t) (s : EditorState) :
  imageData (draw coverage e rect s) = imageData s
  /\ dimensions (draw coverage e rect s) = dimensions s
  /\ isDrawing (draw coverage e rect s) = isDrawing s.
Proof.
  unfold draw. destruct (isDrawing s) eqn:Hd; simpl; [| auto].
  destruct (canvasRef s) as [canvas|]; [| auto].
  destruct (getCoordinates e canvas rect); simpl; auto.
Qed.

(** The canvas after one [draw], whether or not it painted. *)
Lemma draw_canvas (e : PointerEvent) (rect : DOMRect.t) (s : EditorState)
    (canvas : CanvasElement) :
  canvasRef s = Some canvas ->
  canvasRef (draw coverage e rect s) = Some canvas
  \/ exists p : Point.t,
      canvasRef (draw coverage e rect s)
      = Some (stroke coverage (onContext (lineTo p) canvas)).
Proof.
  intros Hc. unfold draw. destruct (isDrawing s); simpl; [| auto].
  rewrite Hc. destruct (getCoordinates e canvas rect) as [p|]; simpl; eauto.
Qed.

Lemma hasNoPixels_stroke (p : Point.t) (canvas : CanvasElement) :
  Canvas.hasNoPixels (bitmap (stroke coverage (onContext (lineTo p) canvas)))
  = Canvas.hasNoPixels (bitmap canvas).
Proof. reflexivity. Qed.

Lemma erasing_stroke (before canvas : CanvasElement) (p : Point.t) :
  erasing before canvas ->
  erasing before (stroke coverage (onContext (lineTo p) canvas)).
Proof.
  intros (Hop & Hstyle & Hpixels & Hkept). unfold erasing, stroke. simpl.
  destruct (lineTo_style p (context canvas)) as [-> ->].
  repeat split; try assumption.
  intros x y Hbefore. rewrite getPixel_repaint.
  specialize (Hkept x y Hbefore).
  destruct (Canvas.getPixel (bitmap canvas) x y); [discriminate | congruence].
Qed.

Lemma erasing_drawAll (moves : list (PointerEvent * DOMRect.t))
    (s : EditorState) (before canvas : CanvasElement) :
  canvasRef s = Some canvas -> erasing before canvas ->
  exists later : CanvasElement,
    canvasRef (drawAll moves s) = Some later /\ erasing before later.
Proof.
  revert s canvas. induction moves as [|[e rect] rest IH];
    intros s canvas Hc He; [exists canvas; auto |].
  unfold drawAll in *. simpl.
  destruct (draw_canvas e rect s canvas Hc) as [H | [p H]].
  - apply (IH _ canvas H He).
  - apply (IH _ _ H). apply erasing_stroke, He.
Qed.

Lemma drawAll_fields (moves : list (PointerEvent * DOMRect.t))
    (s : EditorState) :
  imageData (drawAll moves s) = imageData s
  /\ dimensions (drawAll moves s) = dimensions s
  /\ isDrawing (drawAll moves s) = isDrawing s.
Proof.
  revert s. induction moves as [|[e rect] rest IH]; intros s; [auto |].
  unfold drawAll in *. simpl.
  destruct (IH (draw coverage e rect s)) as (-> & -> & ->).
  apply draw_fields.
Qed.

Lemma startDrawing_fields (e : PointerEvent) (rect : DOMRect.t)
    (s : EditorState) :
  imageData (startDrawing e rect s) = imageData s
  /\ dimensions (startDrawing e rect s) = dimensions s.
Proof.
  unfold startDrawing. destruct (canvasRef s) as [canvas|]; [| auto].
  destruct (getCoordinates e canvas rect); auto.
Qed.

(** Pointer down with the eraser: the drawing flag is up and the context
    erases. *)
Lemma startDrawing_eraser (s : EditorState) (canvas : CanvasElement)
    (e : PointerEvent) (rect : DOMRect.t) :
  tool s = eraser -> canvasRef s = Some canvas -> hasPosition e = true ->
  isDrawing (startDrawing e rect s) = true
  /\ exists started : CanvasElement,
      canvasRef (startDrawing e rect s) = Some started
      /\ erasing canvas started.
Proof.
  intros Htool Hcanvas Hpos. unfold startDrawing. rewrite Hcanvas, Htool.
  destruct (getCoordinates_position e canvas rect Hpos) as [p ->].
  split; [reflexivity |]. eexists. split; [reflexivity |].
  unfold erasing. simpl. repeat split. auto.
Qed.

Lemma startDrawing_eraser_ignores_color (s : EditorState)
    (e : PointerEvent) (rect : DOMRect.t) (c : string) (o : number) :
  tool s = eraser ->
  canvasRef (startDrawing e rect (withOpacity o (withColor c s)))
  = canvasRef (startDrawing e rect s)
  /\ isDrawing (startDrawing e rect (withOpacity o (withColor c s)))
     = isDrawing (startDrawing e rect s).
Proof.
  intros Htool. unfold startDrawing. simpl. rewrite Htool.
  destruct (canvasRef s) as [canvas|]; [| split; reflexivity].
  destruct (getCoordinates e canvas rect); split; reflexivity.
Qed.

Lemma draw_canvasRef (e : PointerEvent) (rect : DOMRect.t)
    (s1 s2 : EditorState) :
  canvasRef s1 = canvasRef s2 -> isDrawing s1 = isDrawing s2 ->
  canvasRef (draw coverage e rect s1) = canvasRef (draw coverage e rect s2).
Proof.
  intros Hc Hd. unfold draw. rewrite Hd.
  destruct (isDrawing s2); simpl; [| exact Hc].
  rewrite Hc.
  destruct (canvasRef s2) as [canvas|] eqn:H2; [| congruence].
  destruct (getCoordinates e canvas rect); simpl; [reflexivity | congruence].
Qed.

Lemma drawAll_canvasRef (moves : list (PointerEvent * DOMRect.t))
    (s1 s2 : EditorState) :
  canvasRef s1 = canvasRef s2 -> isDrawing s1 = isDrawing s2 ->
  canvasRef (drawAll moves s1) = canvasRef (drawAll moves s2)
  /\ isDrawing (drawAll moves s1) = isDrawing (drawAll moves s2).
Proof.
  revert s1 s2. induction moves as [|[e rect] rest IH]; intros s1 s2 Hc Hd;
    [auto |].
  unfold drawAll in *. simpl. apply IH.
  - apply draw_canvasRef; assumption.
  - destruct (draw_fields e rect s1) as (_ & _ & ->).
    destruct (draw_fields e rect s2) as (_ & _ & ->). exact Hd.
Qed.

(** C4, as the code has it: an eraser stroke works on the annotation
    canvas alone. Take a stroke with the eraser, pointer down, any moves,
    and a last move. Where the stroke then covers a pixel fully, whatever
    earlier strokes left on the annotation canvas is removed (the pixel
    is transparent), and the flattened output shows there exactly what it
    shows without any annotation: the pixel of the base image, which the
    eraser never removes. The colour and opacity chosen for the pen play no
    part. *)
Theorem eraser_clears_annotation_layer_only
    (s : EditorState) (canvas : CanvasElement)
    (e0 e1 : PointerEvent) (rect0 rect1 : DOMRect.t)
    (moves : list (PointerEvent * DOMRect.t)) :
  tool s = eraser -> canvasRef s = Some canvas ->
  hasPosition e0 = true -> hasPosition e1 = true ->
  let s' :=
    draw coverage e1 rect1 (drawAll moves (startDrawing e0 rect0 s)) in
  exists erased : CanvasElement,
    canvasRef s' = Some erased
    /\ (forall (c : string) (o : number),
          canvasRef
            (draw coverage e1 rect1
               (drawAll moves
                  (startDrawing e0 rect0 (withOpacity o (withColor c s)))))
          = Some erased)
    /\ forall (x y : nat) (old : Canvas.pixel),
        coverage (lineCap (context erased)) (lineJoin (context erased))
          (ctxLineWidth (context erased)) (path (context erased)) x y
        = 255%Z ->
        Canvas.getPixel (bitmap canvas) x y = Some old ->
        Canvas.getPixel (bitmap erased) x y = Some Canvas.transparent
        /\ forall img : Canvas.bitmap,
            decode_png (imageData s) = Some img ->
            Canvas.hasNoPixels (bitmap canvas) = false ->
            exists merged : Canvas.bitmap,
              mergedCanvas decode_png s' = Some merged
              /\ Canvas.getPixel merged x y
                 = Canvas.getPixel
                     (Canvas.drawImage img
                        (Canvas.blank (width (dimensions s))
                           (height (dimensions s)))) x y.
Proof.
  intros Htool Hcanvas H0 H1 s'.
  destruct (startDrawing_eraser s canvas e0 rect0 Htool Hcanvas H0)
    as (Hdown & started & Hstarted & Hbegun).
  destruct (erasing_drawAll moves _ canvas started Hstarted Hbegun)
    as (later & Hlater & (Hop & Hstyle & Hpixels & Hkept)).
  destruct (drawAll_fields moves (startDrawing e0 rect0 s))
    as (Hi & Hd & Hflag).
  destruct (startDrawing_fields e0 rect0 s) as [Hi0 Hd0].
  destruct (getCoordinates_position e1 later rect1 H1) as [p1 Hp1].
  assert (Hrun : canvasRef s'
                 = Some (stroke coverage (onContext (lineTo p1) later))).
  { unfold s', draw. rewrite Hflag, Hdown, Hlater. simpl.
    rewrite Hp1. reflexivity. }
  exists (stroke coverage (onContext (lineTo p1) later)).
  split; [exact Hrun | split].
  - intros c o. rewrite <- Hrun.
    destruct (startDrawing_eraser_ignores_color s e0 rect0 c o Htool)
      as [Hc Hf].
    destruct (drawAll_canvasRef moves _ _ Hc Hf) as [Hc' Hf'].
    apply draw_canvasRef; assumption.
  - intros x y old Hcover Hold.
    assert (Hlayer : Canvas.getPixel (bitmap later) x y <> None)
      by (apply Hkept; rewrite Hold; discriminate).
    assert (Herased :
              Canvas.getPixel
                (bitmap (stroke coverage (onContext (lineTo p1) later))) x y
              = Some Canvas.transparent).
    { unfold stroke in *. cbn [bitmap context onContext] in *.
      destruct (lineTo_style p1 (context later)) as [Hop1 Hstyle1].
      rewrite getPixel_repaint, Hop1, Hstyle1, Hop, Hstyle, Hcover.
      destruct (Canvas.getPixel (bitmap later) x y) as [under|];
        [| congruence].
      cbn [fmap option_fmap option_map]. f_equal.
      apply destination_out_opaque. }
    split; [exact Herased |].
    intros img Himg Hnonempty.
    assert (Hs' : imageData s' = imageData s
                  /\ dimensions s' = dimensions s).
    { unfold s'. destruct (draw_fields e1 rect1
                 (drawAll moves (startDrawing e0 rect0 s))) as (-> & -> & _).
      rewrite Hi, Hd, Hi0, Hd0. auto. }
    destruct Hs' as [His Hds].
    unfold mergedCanvas. rewrite His, Himg, Hds, Hrun.
    rewrite (hasNoPixels_stroke p1 later), Hpixels, Hnonempty.
    eexists. split; [reflexivity |].
    unfold Canvas.drawImage at 1. rewrite getPixel_repaint, Herased.
    destruct (Canvas.getPixel (Canvas.drawImage img _) x y) as [under|];
      [| reflexivity].
    cbn [fmap option_fmap option_map]. f_equal.
    apply source_over_transparent.
Qed.

(** ** Clearing *)

Lemma clearCanvas_fields (s : EditorState) :
  imageData (clearCanvas s) = imageData s
  /\ dimensions (clearCanvas s) = dimensions s
  /\ isDrawing (clearCanvas s) = isDrawing s.
Proof. unfold clearCanvas. destruct (canvasRef s); repeat split. Qed.

(** C9, as the code has it: [clearCanvas] makes every pixel of the
    annotation canvas transparent and touches nothing else: not the picture
    underneath, not the drawing flag, not the context with its current
    path. It can be called in every state; after it the flattened output is
    that of the picture with no annotation at all. A stroke in progress
    is not ended by it. *)
Theorem clearCanvas_clears_layer_only (s : EditorState) :
  imageData (clearCanvas s) = imageData s
  /\ dimensions (clearCanvas s) = dimensions s
  /\ isDrawing (clearCanvas s) = isDrawing s
  /\ (canvasRef s = None -> clearCanvas s = s)
  /\ forall canvas : CanvasElement,
      canvasRef s = Some canvas ->
      exists cleared : CanvasElement,
        canvasRef (clearCanvas s) = Some cleared
        /\ context cleared = context canvas
        /\ Canvas.width (bitmap cleared) = Canvas.width (bitmap canvas)
        /\ Canvas.height (bitmap cleared) = Canvas.height (bitmap canvas)
        /\ (forall (x y : nat) (old : Canvas.pixel),
              Canvas.getPixel (bitmap canvas) x y = Some old ->
              Canvas.getPixel (bitmap cleared) x y
              = Some Canvas.transparent)
        /\ forall img : Canvas.bitmap,
            decode_png (imageData s) = Some img ->
            Canvas.hasNoPixels (bitmap canvas) = false ->
            getMergedImage decode_png png_base64 (clearCanvas s)
            = Some (Canvas.base64Part
                      (Canvas.toDataURL png_base64
                         (Canvas.drawImage img
                            (Canvas.blank (width (dimensions s))
                               (height (dimensions s)))))).
Proof.
  destruct (clearCanvas_fields s) as (Hi & Hd & Hdraw).
  repeat (split; [assumption |]).
  split; [unfold clearCanvas; intros ->; reflexivity |].
  intros canvas Hcanvas.
  exists {| bitmap := Canvas.clearAll (bitmap canvas);
            context := context canvas |}.
  assert (Hrun : canvasRef (clearCanvas s)
                 = Some {| bitmap := Canvas.clearAll (bitmap canvas);
                           context := context canvas |})
    by (unfold clearCanvas; rewrite Hcanvas; reflexivity).
  split; [exact Hrun |]. cbn [bitmap context].
  repeat (split; [reflexivity |]).
  split.
  - intros x y old Hold. unfold Canvas.clearAll.
    rewrite getPixel_repaint, Hold. reflexivity.
  - intros img Himg Hpixels.
    unfold getMergedImage, mergedCanvas. rewrite Hi, Himg, Hd, Hrun.
    cbn [bitmap].
    replace (Canvas.hasNoPixels (Canvas.clearAll (bitmap canvas)))
      with false by (symmetry; exact Hpixels).
    rewrite drawImage_transparent by apply clearAll_allTransparent.
    reflexivity.
Qed.

(** ** Flattening *)

Lemma mergedCanvas_surface (s1 s2 : EditorState) :
  surface s1 = surface s2 ->
  mergedCanvas decode_png s1 = mergedCanvas decode_png s2.
Proof.
  unfold surface, mergedCanvas. intros H.
  injection H as Hi Hd Hb. rewrite Hi, Hd.
  destruct (decode_png (imageData s2)); [| reflexivity].
  destruct (canvasRef s1) as [c1|], (canvasRef s2) as [c2|];
    try discriminate Hb; [| reflexivity].
  injection Hb as Hb. cbv zeta. rewrite Hb. reflexivity.
Qed.

Lemma surface_settingsEffect (s : EditorState) :
  surface (settingsEffect s) = surface s.
Proof.
  unfold settingsEffect, surface.
  destruct (canvasRef s) eqn:Hc; simpl; rewrite ?Hc; reflexivity.
Qed.

Lemma surface_startDrawing (e : PointerEvent) (rect : DOMRect.t)
    (s : EditorState) :
  surface (startDrawing e rect s) = surface s.
Proof.
  unfold startDrawing, surface.
  destruct (canvasRef s) as [canvas|] eqn:Hc; [| rewrite Hc; reflexivity].
  destruct (getCoordinates e canvas rect); simpl; rewrite ?Hc; reflexivity.
Qed.

Lemma surface_stopDrawing (s : EditorState) :
  surface (stopDrawing s) = surface s.
Proof.
  unfold stopDrawing, surface. destruct (isDrawing s); simpl;
    destruct (canvasRef s) eqn:Hc; simpl; rewrite ?Hc; reflexivity.
Qed.

(** An interaction that neither paints nor resizes leaves what
    [getMergedImage] reads as it is. *)
Lemma surface_dispatch (i : interaction) (s : EditorState) :
  touchesPixels i = false ->
  surface (dispatch coverage decode_png i s) = surface s.
Proof.
  destruct i; simpl; try discriminate; intros _.
  - unfold setTool. destruct (Tool_eqb (tool s) pen); [reflexivity |].
    rewrite surface_settingsEffect. reflexivity.
  - unfold setTool. destruct (Tool_eqb (tool s) eraser); [reflexivity |].
    rewrite surface_settingsEffect. reflexivity.
  - unfold setColor. destruct (String.eqb (color s) value); [reflexivity |].
    rewrite surface_settingsEffect. reflexivity.
  - unfold setOpacity. destruct (sameNumber (opacity s) value);
      [reflexivity |].
    rewrite surface_settingsEffect. reflexivity.
  - unfold setLineWidth. destruct (sameNumber (lineWidth s) value);
      [reflexivity |].
    rewrite surface_settingsEffect. reflexivity.
  - apply surface_startDrawing.
  - apply surface_stopDrawing.
Qed.

Lemma surface_dispatchAll (between : list interaction) (s : EditorState) :
  forallb (fun i => negb (touchesPixels i)) between = true ->
  surface (dispatchAll coverage decode_png between s) = surface s.
Proof.
  revert s. induction between as [|i rest IH]; intros s H; [reflexivity |].
  simpl in H. apply andb_true_iff in H as [Hi Hrest].
  apply negb_true_iff in Hi.
  unfold dispatchAll in *. simpl. rewrite (IH _ Hrest).
  apply surface_dispatch, Hi.
Qed.

End SurfaceFacts.

Lemma eraser_clears_annotation_layer_only_witness :
  tool pennedDot = eraser
  /\ mergedCanvas whiteDot pennedDot = Some (Canvas.Bitmap 1 1 [opaqueRed])
  /\ exists erased merged : Canvas.bitmap,
      bitmap <$> canvasRef (draw everywhere centre dotRect
                              (drawAll everywhere [(centre, dotRect)]
                                 (startDrawing centre dotRect pennedDot)))
      = Some erased
      /\ Canvas.getPixel erased 0 0 = Some Canvas.transparent
      /\ mergedCanvas whiteDot
           (draw everywhere centre dotRect
              (drawAll everywhere [(centre, dotRect)]
                 (startDrawing centre dotRect pennedDot))) = Some merged
      /\ Canvas.getPixel merged 0 0 = Some white.
Proof.
  split; [reflexivity | split; [vm_compute; reflexivity |]].
  assert (Hcanvas : exists canvas,
             canvasRef pennedDot = Some canvas
             /\ bitmap canvas = Canvas.Bitmap 1 1 [opaqueRed]).
  { eexists. split; [vm_compute; reflexivity | reflexivity]. }
  destruct Hcanvas as (canvas & Hcanvas & Hbitmap).
  destruct (eraser_clears_annotation_layer_only everywhere whiteDot
              pennedDot canvas centre centre dotRect dotRect
              [(centre, dotRect)] eq_refl Hcanvas eq_refl eq_refl)
    as (erased & Hrun & _ & Hpixel).
  assert (Hold : Canvas.getPixel (bitmap canvas) 0 0 = Some opaqueRed)
    by (rewrite Hbitmap; reflexivity).
  destruct (Hpixel 0%nat 0%nat opaqueRed eq_refl Hold) as [Hclear Hmerge].
  assert (Hpixels : Canvas.hasNoPixels (bitmap canvas) = false)
    by (rewrite Hbitmap; reflexivity).
  destruct (Hmerge (Canvas.Bitmap 1 1 [white]) eq_refl Hpixels)
    as (merged & Hmerged & Hshown).
  exists (bitmap erased), merged.
  split; [rewrite Hrun; reflexivity | split; [exact Hclear | split]].
  - exact Hmerged.
  - rewrite Hshown. vm_compute. reflexivity.
Defined.

(** C4, as the spec states it, fails: after an eraser stroke over a pen
    stroke the annotation pixel is gone, but the flattened output holds
    the opaque pixel of the base image there, not a transparent one. *)
Lemma eraser_keeps_base_image_pixel :
  let erased :=
    dispatchAll everywhere whiteDot
      [PointerDown centre dotRect; PointerMove centre dotRect; PointerUp]
      pennedDot in
  tool pennedDot = eraser
  /\ bitmap <$> canvasRef pennedDot = Some (Canvas.Bitmap 1 1 [opaqueRed])
  /\ mergedCanvas whiteDot pennedDot = Some (Canvas.Bitmap 1 1 [opaqueRed])
  /\ bitmap <$> canvasRef erased
     = Some (Canvas.Bitmap 1 1 [Canvas.transparent])
  /\ mergedCanvas whiteDot erased = Some (Canvas.Bitmap 1 1 [white])
  /\ Canvas.pixel_eqb white Canvas.transparent = false.
Proof. vm_compute. repeat split. Qed.

Lemma clearCanvas_clears_layer_only_witness :
  isDrawing midStroke = true
  /\ bitmap <$> canvasRef midStroke
     = Some (Canvas.Bitmap 3 1 [opaqueRed; opaqueRed; Canvas.transparent])
  /\ bitmap <$> canvasRef (clearCanvas midStroke)
     = Some (Canvas.Bitmap 3 1
               [Canvas.transparent; Canvas.transparent; Canvas.transparent])
  /\ getMergedImage whiteRow samplePng (clearCanvas midStroke)
     = Some (Some "iVBO"%string).
Proof.
  split; [reflexivity | split; [vm_compute; reflexivity |]].
  destruct (clearCanvas_clears_layer_only whiteRow samplePng midStroke)
    as (_ & _ & _ & _ & Hcanvas).
  assert (Hmid : exists canvas,
             canvasRef midStroke = Some canvas
             /\ Canvas.hasNoPixels (bitmap canvas) = false).
  { eexists. split; [vm_compute; reflexivity | reflexivity]. }
  destruct Hmid as (canvas & Hmid & Hpixels).
  destruct (Hcanvas canvas Hmid) as (cleared & _ & _ & _ & _ & _ & Hmerged).
  split; [vm_compute; reflexivity |].
  rewrite (Hmerged (Canvas.Bitmap 3 1 [white; white; white]) eq_refl Hpixels).
  vm_compute. reflexivity.
Defined.

(** C9, as the spec states it, fails: a clear in the middle of a stroke
    leaves the drawing flag up and the path in place, and the next pointer
    move extends that same path and paints all of it, the part drawn before
    the clear included. *)
Lemma clearCanvas_mid_stroke_does_not_end_stroke :
  let cleared := clearCanvas midStroke in
  let next :=
    draw atPoints (MouseEvent 2.5%float 0.5%float) rowRect cleared in
  isDrawing midStroke = true
  /\ isDrawing cleared = true
  /\ (path <$> (context <$> canvasRef cleared))
     = Some [{| points := [Point.Make 0.5%float 0.5%float;
                           Point.Make 1.5%float 0.5%float];
                closed := false |}]
  /\ (path <$> (context <$> canvasRef next))
     = Some [{| points := [Point.Make 0.5%float 0.5%float;
                           Point.Make 1.5%float 0.5%float;
                           Point.Make 2.5%float 0.5%float];
                closed := false |}]
  /\ bitmap <$> canvasRef cleared
     = Some (Canvas.Bitmap 3 1
               [Canvas.transparent; Canvas.transparent; Canvas.transparent])
  /\ bitmap <$> canvasRef next
     = Some (Canvas.Bitmap 3 1 [opaqueRed; opaqueRed; opaqueRed]).
Proof. vm_compute. repeat split. Qed.

(** ** Coordinates on a surface without extent *)

(** C3, as the code has it: neither mapping tests the display size. With a
    display width or height of zero the quotient is still formed; it is an
    infinity or NaN, and so is every coordinate scaled by it. No error is
    raised for it: [getCoordinates] returns the point (it throws only for
    a touch event without touches, whatever the sizes), and [confirmCrop]
    sizes its canvas to zero on that axis. *)
Theorem zero_display_size_is_divided_by :
  (forall (e : PointerEvent) (canvas : CanvasElement) (rect : DOMRect.t),
      (e = TouchEvent []
       /\ getCoordinates e canvas rect = Throw TypeError)
      \/ exists p : Point.t,
          getCoordinates e canvas rect = Normal p
          /\ (isZero (DOMRect.width rect) = true ->
              isFinite (Point.x p) = false)
          /\ (isZero (DOMRect.height rect) = true ->
              isFinite (Point.y p) = false))
  /\ forall (c : Crop.t) (img : HTMLImageElement.t),
      (HTMLImageElement.width img = 0%nat ->
       isFinite (App.scaleX img) = false
       /\ isFinite (App.sx (App.cropGeometry c img)) = false
       /\ isFinite (App.sWidth (App.cropGeometry c img)) = false
       /\ App.canvasWidth (App.cropGeometry c img) = 0%nat)
      /\ (HTMLImageElement.height img = 0%nat ->
          isFinite (App.scaleY img) = false
          /\ isFinite (App.sy (App.cropGeometry c img)) = false
          /\ isFinite (App.sHeight (App.cropGeometry c img)) = false
          /\ App.canvasHeight (App.cropGeometry c img) = 0%nat).
Proof.
  split.
  - intros e canvas rect.
    destruct e as [cx cy | [| [cx cy] rest]]; simpl;
      [right | left; split; reflexivity | right];
      (eexists; split; [reflexivity |]; simpl; split; intros H;
       apply AppSpec.isFinite_mul_r, AppSpec.isFinite_div_zero, H).
  - intros c img. unfold App.cropGeometry, App.scaleX, App.scaleY. simpl.
    split; intros ->.
    + assert (H : isFinite (ofNat (HTMLImageElement.naturalWidth img)
                           / ofNat 0)%float = false)
        by (apply AppSpec.isFinite_div_zero; reflexivity).
      repeat split; try (apply AppSpec.isFinite_mul_r); try exact H.
      unfold Canvas.dimensionOfNumber.
      rewrite (AppSpec.toUnsignedLong_not_finite _
                 (AppSpec.isFinite_mul_r (Crop.width c) _ H)).
      reflexivity.
    + assert (H : isFinite (ofNat (HTMLImageElement.naturalHeight img)
                           / ofNat 0)%float = false)
        by (apply AppSpec.isFinite_div_zero; reflexivity).
      repeat split; try (apply AppSpec.isFinite_mul_r); try exact H.
      unfold Canvas.dimensionOfNumber.
      rewrite (AppSpec.toUnsignedLong_not_finite _
                 (AppSpec.isFinite_mul_r (Crop.height c) _ H)).
      reflexivity.
Qed.

Lemma zero_display_size_is_divided_by_witness :
  HTMLImageElement.width AppSpec.collapsed = 0%nat
  /\ isFinite (App.scaleX AppSpec.collapsed) = false
  /\ App.canvasWidth (App.cropGeometry AppSpec.scenarioB AppSpec.collapsed)
     = 0%nat
  /\ isZero (DOMRect.width collapsedRect) = true
  /\ exists p : Point.t,
      getCoordinates centre (freshCanvas {| width := 2; height := 2 |})
        collapsedRect = Normal p
      /\ isFinite (Point.x p) = false.
Proof.
  destruct zero_display_size_is_divided_by as [Hpoint Hcrop].
  destruct (Hcrop AppSpec.scenarioB AppSpec.collapsed) as [Hwidth _].
  destruct (Hwidth eq_refl) as (Hscale & _ & _ & Hcanvas).
  split; [reflexivity | split; [exact Hscale | split; [exact Hcanvas |]]].
  split; [reflexivity |].
  destruct (Hpoint centre (freshCanvas {| width := 2; height := 2 |})
              collapsedRect) as [[Hno _] | (p & Hp & Hx & _)].
  - discriminate Hno.
  - exists p. split; [exact Hp | apply Hx; reflexivity].
Defined.

(** C3, as the spec states it, fails: with a display size of zero both
    mappings complete normally, with infinite coordinates and an infinite
    scale factor; nothing signals a geometry error. *)
Lemma zero_display_size_raises_nothing :
  isZero (DOMRect.width collapsedRect) = true
  /\ isZero (DOMRect.height collapsedRect) = true
  /\ getCoordinates centre (freshCanvas {| width := 2; height := 2 |})
       collapsedRect
     = Normal (Point.Make infinity infinity)
  /\ HTMLImageElement.width AppSpec.collapsed = 0%nat
  /\ App.scaleX AppSpec.collapsed = infinity
  /\ App.cropGeometry AppSpec.scenarioB AppSpec.collapsed
     = {| App.canvasWidth := 0; App.canvasHeight := 0;
          App.sx := infinity; App.sy := infinity;
          App.sWidth := infinity; App.sHeight := infinity |}
  /\ App.confirmCrop AppSpec.samplePng AppSpec.sampleResample AppSpec.noon
       (Resolved None) (Resolved tt)
       (AppSpec.cropping AppSpec.collapsed AppSpec.scenarioB)
     = (App.setStatus "Cropped!"
          (App.setOriginalImage None
             (App.setImage (Some EmptyString)
                (AppSpec.cropping AppSpec.collapsed AppSpec.scenarioB))),
        []).
Proof. vm_compute. repeat split. Qed.

End ImageEditorSpec.

(** * Properties of the page as a whole *)

Module SessionSpec.

Import JS App Session.

(** The state keeps its pictures apart and its recorder at hand: the
    preview picture and the pre-crop picture are never held together, and
    the recording flag is up only while a recorder handle is held. *)
Definition coherent (s : AppState) : Prop :=
  (image s = None \/ originalImage s = None)
  /\ (isRecording s = true -> exists r, mediaRecorderRef s = Some r).

(** The fields [coherent] reads. *)
Definition held (s : AppState)
  : option string * option string * bool * option MediaRecorder :=
  (image s, originalImage s, isRecording s, mediaRecorderRef s).

Lemma coherent_held (s1 s2 : AppState) :
  held s1 = held s2 -> coherent s2 -> coherent s1.
Proof.
  unfold held, coherent. intros H. injection H as -> -> -> ->. auto.
Qed.

Lemma held_setStatus (text : string) (s : AppState) :
  held (setStatus text s) = held s.
Proof. destruct s; reflexivity. Qed.

Lemma held_applyStatus (update : option string) (s : AppState) :
  held (applyStatus update s) = held s.
Proof. destruct update; [apply held_setStatus | reflexivity]. Qed.

Lemma held_fetchWindows (wins : settled (list WindowInfo.t)) (s : AppState) :
  held (fst (fetchWindows wins s)) = held s.
Proof.
  destruct s, wins as [[|first rest]|error]; simpl; try reflexivity.
  match goal with |- context [if ?c then _ else _] => destruct c end;
    reflexivity.
Qed.

Lemma held_fetchMonitors (mons : settled (list MonitorInfo.t))
    (s : AppState) :
  held (fst (fetchMonitors mons s)) = held s.
Proof.
  destruct s, mons as [[|first rest]|error]; simpl; try reflexivity.
  match goal with |- context [if ?c then _ else _] => destruct c end;
    reflexivity.
Qed.

Lemma held_switchMode (m : Mode) (wins : settled (list WindowInfo.t))
    (mons : settled (list MonitorInfo.t)) (s : AppState) :
  held (fst (switchMode m wins mons s)) = held s.
Proof.
  unfold switchMode. destruct (Mode_eqb (mode s) m); [reflexivity |].
  unfold modeEffect.
  assert (H : held (setMode m s) = held s) by (destruct s; reflexivity).
  rewrite <- H.
  destruct (mode (setMode m s));
    first [apply held_fetchWindows | apply held_fetchMonitors].
Qed.

Lemma held_saveImage (imgData : option string) (iso : string)
    (chosen : settled (option string)) (written : settled unit)
    (s : AppState) :
  held (fst (saveImage imgData iso chosen written s)) = held s.
Proof.
  unfold saveImage.
  destruct (saveImageBody imgData iso chosen written s) as [update calls].
  apply held_applyStatus.
Qed.

Lemma coherent_capture (shot : settled string) (s : AppState) :
  coherent s -> coherent (fst (capture shot s)).
Proof.
  intros [Hpictures Hrecorder]. unfold coherent.
  destruct s, shot as [result|error]; simpl in *.
  - repeat match goal with
           | |- context [if ?c then _ else _] => destruct c; simpl
           | |- context [match ?c with _ => _ end] => destruct c; simpl
           end; auto.
  - auto.
Qed.

Section PageFacts.

Variable png_base64 : Canvas.bitmap -> string.
Variable resample :
  Canvas.bitmap -> number -> number -> number -> number ->
  Canvas.bitmap -> Canvas.bitmap.

Lemma coherent_confirmCrop (iso : string) (chosen : settled (option string))
    (written : settled unit) (s : AppState) :
  coherent s ->
  coherent (fst (confirmCrop png_base64 resample iso chosen written s)).
Proof.
  intros Hs. unfold confirmCrop.
  destruct (completedCrop s) as [c|]; [| exact Hs].
  destruct (imgRef s) as [img|]; [| exact Hs].
  destruct (originalImage s) as [original|] eqn:Horig; [| exact Hs].
  destruct (truthy_string original); [| exact Hs].
  set (base64 := Canvas.base64Part _).
  assert (Hcropped :
            coherent (setStatus "Cropped!"
                        (setOriginalImage None (setImage base64 s)))).
  { destruct Hs as [_ Hrecorder]. destruct s. split; [right; reflexivity |].
    exact Hrecorder. }
  destruct (autoSave s); [| exact Hcropped].
  destruct (saveImageBody base64 iso chosen written s) as [update calls].
  simpl. apply (coherent_held _ _ (held_applyStatus update _)), Hcropped.
Qed.

Lemma coherent_startRecording (granted : settled MediaStream)
    (constructed : settled unit) (s : AppState) :
  coherent s -> coherent (fst (startRecording granted constructed s)).
Proof.
  intros [Hpictures Hrecorder]. unfold coherent.
  destruct s, granted as [onStream|err]; [destruct constructed |];
    simpl in *; eauto.
Qed.

Lemma coherent_onstop (r : MediaRecorder) (closure : AppState)
    (iso : string) (chosen : settled (option string))
    (written : settled unit) (s : AppState) :
  coherent s ->
  coherent (fst (fst (onstop r closure iso chosen written s))).
Proof.
  intros [Hpictures Hrecorder]. unfold onstop.
  destruct (saveVideoBody _ iso chosen written closure) as [update calls].
  simpl. apply (coherent_held _ _ (held_applyStatus update _)).
  destruct s. split; [exact Hpictures | discriminate].
Qed.

Lemma coherent_perform (a : action) (s : AppState) :
  coherent s -> coherent (perform png_base64 resample a s).
Proof.
  intros Hs. destruct a; simpl.
  - apply (coherent_held _ _ (held_switchMode m wins mons s)), Hs.
  - apply (coherent_held _ _ (held_fetchWindows wins s)), Hs.
  - apply (coherent_held _ _ (held_fetchMonitors mons s)), Hs.
  - destruct s; exact Hs.
  - destruct s; exact Hs.
  - apply coherent_capture, Hs.
  - destruct s; exact Hs.
  - destruct s; exact Hs.
  - unfold commitImgRef. destruct (rendered ConfirmCropButton s);
      destruct s; exact Hs.
  - apply coherent_confirmCrop, Hs.
  - apply (coherent_held _ _ (held_saveImage None iso chosen written s)), Hs.
  - apply (coherent_held _ _ (held_applyStatus _ s)), Hs.
  - destruct s; exact Hs.
  - apply coherent_startRecording, Hs.
  - unfold stopRecording. destruct (mediaRecorderRef s);
      [destruct (isRecording s) |]; exact Hs.
  - unfold ondataavailable. destruct (0 <? size chunk)%nat; [| exact Hs].
    destruct s; exact Hs.
  - apply coherent_onstop, Hs.
Qed.

Lemma coherent_performAll (actions : list action) (s : AppState) :
  coherent s -> coherent (performAll png_base64 resample actions s).
Proof.
  revert s. induction actions as [|a rest IH]; intros s Hs; [exact Hs |].
  unfold performAll in *. simpl. apply IH, coherent_perform, Hs.
Qed.

(** X1: whatever is done on the page, in whatever order and with whatever
    answers from the platform, the preview picture and the pre-crop
    picture are never held together, so the preview with its save button
    and the crop container are never rendered at once; and whenever the
    recording flag is up a recorder handle is held, so that
    [stopRecording] does stop a recorder. *)
Theorem page_keeps_pictures_apart_and_recorder_at_hand
    (actions : list action) :
  let s := performAll png_base64 resample actions initial in
  (image s = None \/ originalImage s = None)
  /\ (rendered SaveImageButton s && rendered ConfirmCropButton s)%bool
     = false
  /\ (isRecording s = false
      \/ exists r : MediaRecorder,
          mediaRecorderRef s = Some r
          /\ stopRecording s = (s, [recorder_stop r])).
Proof.
  intros s.
  assert (Hs : coherent s).
  { apply coherent_performAll. split; [left; reflexivity | discriminate]. }
  destruct Hs as [Hpictures Hrecorder].
  split; [exact Hpictures | split].
  - unfold rendered. destruct Hpictures as [-> | ->]; simpl;
      destruct (Mode_eqb (mode s) record), (Mode_eqb (mode s) area);
      try reflexivity.
    + destruct (truthy_opt_string (image s)); reflexivity.
    + destruct (truthy_opt_string (image s)); reflexivity.
  - destruct (isRecording s) eqn:Hflag; [right | left; reflexivity].
    destruct (Hrecorder eq_refl) as [r Hr]. exists r.
    split; [exact Hr |]. unfold stopRecording. rewrite Hr, Hflag.
    reflexivity.
Qed.

End PageFacts.

(** A browser for the samples. *)
Definition samplePng (_ : Canvas.bitmap) : string := "iVBO".

Definition sampleResample (_ : Canvas.bitmap) (_ _ _ _ : number)
    (target : Canvas.bitmap) : Canvas.bitmap := target.

(** Two windows, and the page with the second one selected. *)
Definition editorWindow : WindowInfo.t :=
  WindowInfo.Make 7 "notes.txt" "Editor" 800 600.

Definition browserWindow : WindowInfo.t :=
  WindowInfo.Make 9 "Home" "Browser" 1280 720.

Definition browserSelected : AppState :=
  setSelectedWindowId (Some 9%Z)
    (fst (switchMode window (Resolved [editorWindow; browserWindow])
            (Resolved []) initial)).

(** The monitors of the samples: two of them are primary. *)
Definition leftMonitor : MonitorInfo.t :=
  MonitorInfo.Make 3 "Left" 1920 1080 false.

Definition mainMonitor : MonitorInfo.t :=
  MonitorInfo.Make 5 "Main" 2560 1440 true.

Definition rightMonitor : MonitorInfo.t :=
  MonitorInfo.Make 8 "Right" 2560 1440 true.

(** An enumeration issued with a selection set. *)
Definition issuedWithSelection (a : answer) : bool :=
  match a with
  | WindowsAnswer closure _ => truthy_opt_id (selectedWindowId closure)
  | MonitorsAnswer closure _ => truthy_opt_id (selectedMonitorId closure)
  end.

(** An answer that arrives in the render that issued the call. *)
Lemma fetchWindowsIn_same_render (wins : settled (list WindowInfo.t))
    (s : AppState) :
  fetchWindowsIn s wins s = fetchWindows wins s.
Proof. reflexivity. Qed.

Lemma fetchMonitorsIn_same_render (mons : settled (list MonitorInfo.t))
    (s : AppState) :
  fetchMonitorsIn s mons s = fetchMonitors mons s.
Proof. reflexivity. Qed.

Lemma fetchWindowsIn_selection (closure : AppState)
    (wins : settled (list WindowInfo.t)) (s : AppState) :
  selectedMonitorId (fst (fetchWindowsIn closure wins s))
  = selectedMonitorId s
  /\ (truthy_opt_id (selectedWindowId closure) = true ->
      selectedWindowId (fst (fetchWindowsIn closure wins s))
      = selectedWindowId s).
Proof.
  destruct s, wins as [[|first rest]|error]; simpl; auto.
  split; [destruct (negb _); reflexivity |].
  intros ->. reflexivity.
Qed.

Lemma fetchMonitorsIn_selection (closure : AppState)
    (mons : settled (list MonitorInfo.t)) (s : AppState) :
  selectedWindowId (fst (fetchMonitorsIn closure mons s))
  = selectedWindowId s
  /\ (truthy_opt_id (selectedMonitorId closure) = true ->
      selectedMonitorId (fst (fetchMonitorsIn closure mons s))
      = selectedMonitorId s).
Proof.
  destruct s, mons as [[|first rest]|error]; simpl; auto.
  split; [destruct (negb _); reflexivity |].
  intros ->. reflexivity.
Qed.

Lemma receive_selection (a : answer) (s : AppState) :
  issuedWithSelection a = true ->
  selectedWindowId (receive a s) = selectedWindowId s
  /\ selectedMonitorId (receive a s) = selectedMonitorId s.
Proof.
  destruct a as [closure wins|closure mons]; simpl; intros Hset.
  - destruct (fetchWindowsIn_selection closure wins s) as [H1 H2].
    split; [apply H2, Hset | exact H1].
  - destruct (fetchMonitorsIn_selection closure mons s) as [H1 H2].
    split; [exact H1 | apply H2, Hset].
Qed.

(** X2: the answer to an enumeration of sources follows the selection of
    the render that issued the enumeration, not the one of the moment the
    answer arrives. Answers to enumerations issued with a selection set (a
    non-zero id), any number of them and whatever they list, leave both
    selections of the moment as they are, whether or not the new lists
    still contain them. The answer to an enumeration of windows issued
    without a selection selects the first window it lists, and so
    replaces a window selected while the call was pending; it lists
    nothing or fails, and the selection of the moment stays. An
    enumeration that nothing overlaps is the case in which the two
    renders are the same. *)
Theorem enumeration_answer_follows_issuing_render
    (answers : list answer) (closure s : AppState) :
  (forallb issuedWithSelection answers = true ->
   selectedWindowId (receiveAll answers s) = selectedWindowId s
   /\ selectedMonitorId (receiveAll answers s) = selectedMonitorId s)
  /\ (truthy_opt_id (selectedWindowId closure) = false ->
      (forall (first : WindowInfo.t) (rest : list WindowInfo.t),
          selectedWindowId
            (fst (fetchWindowsIn closure (Resolved (first :: rest)) s))
          = Some (WindowInfo.id first))
      /\ selectedWindowId (fst (fetchWindowsIn closure (Resolved []) s))
         = selectedWindowId s
      /\ forall error : string,
          selectedWindowId (fst (fetchWindowsIn closure (Rejected error) s))
          = selectedWindowId s)
  /\ (forall wins, fetchWindows wins s = fetchWindowsIn s wins s)
  /\ (forall mons, fetchMonitors mons s = fetchMonitorsIn s mons s).
Proof.
  split; [| split; [| split; reflexivity]].
  - revert s. induction answers as [|a rest IH]; intros s H;
      [split; reflexivity |].
    simpl in H. apply andb_true_iff in H as [Ha Hrest].
    unfold receiveAll in *. simpl.
    destruct (receive_selection a s Ha) as [Hw Hm].
    destruct (IH (receive a s) Hrest) as [Hw' Hm'].
    rewrite Hw', Hm', Hw, Hm. split; reflexivity.
  - intros Hnone. split; [| split].
    + intros first rest. simpl. rewrite Hnone. destruct s; reflexivity.
    + destruct s; reflexivity.
    + intros error. destruct s; reflexivity.
Qed.

Lemma enumeration_answer_follows_issuing_render_witness :
  selectedWindowId initial = None
  /\ selectedWindowId browserSelected = Some 9%Z
  /\ selectedWindowId
       (receiveAll
          [WindowsAnswer browserSelected (Resolved [editorWindow]);
           MonitorsAnswer (setSelectedMonitorId (Some 5%Z) browserSelected)
             (Resolved [leftMonitor; mainMonitor]);
           WindowsAnswer browserSelected (Rejected "gone")]
          browserSelected)
     = Some 9%Z
  /\ selectedWindowId
       (fst (fetchWindowsIn initial
               (Resolved [editorWindow; browserWindow]) browserSelected))
     = Some 7%Z.
Proof.
  destruct (enumeration_answer_follows_issuing_render
              [WindowsAnswer browserSelected (Resolved [editorWindow]);
               MonitorsAnswer
                 (setSelectedMonitorId (Some 5%Z) browserSelected)
                 (Resolved [leftMonitor; mainMonitor]);
               WindowsAnswer browserSelected (Rejected "gone")]
              initial browserSelected)
    as (Hkept & Hreplaced & _).
  destruct (Hkept eq_refl) as [Hwindow _].
  destruct (Hreplaced eq_refl) as (Hfirst & _).
  split; [reflexivity | split; [reflexivity | split]].
  - rewrite Hwindow. reflexivity.
  - rewrite (Hfirst editorWindow [browserWindow]). reflexivity.
Defined.

(** [find] gives the first element that passes the test. *)
Lemma find_first {A : Type} (f : A -> bool) (l : list A) (x : A) :
  List.find f l = Some x ->
  exists before after : list A,
    l = before ++ x :: after
    /\ f x = true
    /\ forallb (fun y => negb (f y)) before = true.
Proof.
  induction l as [|y rest IH]; [discriminate |]. simpl.
  destruct (f y) eqn:Hy.
  - intros H. injection H as <-. exists [], rest. repeat split. exact Hy.
  - intros H. destruct (IH H) as (before & after & -> & Hx & Hbefore).
    exists (y :: before), after. split; [reflexivity | split; [exact Hx |]].
    simpl. rewrite Hy. exact Hbefore.
Qed.

(** X3: the answer to an enumeration of monitors issued while no monitor
    was selected, when it lists any, stores the list and selects one of
    the monitors listed: the first primary one, that is the primary
    monitor before which the list has no primary one, or the first of the
    list when none is primary. *)
Theorem fetchMonitors_selects_first_primary_or_first
    (first : MonitorInfo.t) (rest : list MonitorInfo.t)
    (closure s : AppState) :
  truthy_opt_id (selectedMonitorId closure) = false ->
  let s' := fst (fetchMonitorsIn closure (Resolved (first :: rest)) s) in
  monitors s' = first :: rest
  /\ ((exists (before : list MonitorInfo.t) (primary : MonitorInfo.t)
              (after : list MonitorInfo.t),
          first :: rest = before ++ primary :: after
          /\ forallb (fun m => negb (MonitorInfo.is_primary m)) before = true
          /\ MonitorInfo.is_primary primary = true
          /\ selectedMonitorId s' = Some (MonitorInfo.id primary))
      \/ (forallb (fun m => negb (MonitorInfo.is_primary m)) (first :: rest)
          = true
          /\ selectedMonitorId s' = Some (MonitorInfo.id first))).
Proof.
  intros Hnone. unfold fetchMonitorsIn. rewrite Hnone. cbn [negb].
  destruct (List.find MonitorInfo.is_primary (first :: rest))
    as [primary|] eqn:Hfind.
  - split; [destruct s; reflexivity |]. left.
    destruct (find_first _ _ _ Hfind) as (before & after & Hl & Hp & Hb).
    exists before, primary, after.
    split; [exact Hl | split; [exact Hb | split; [exact Hp |]]].
    destruct s; reflexivity.
  - split; [destruct s; reflexivity |]. right.
    split; [| destruct s; reflexivity].
    apply forallb_forall. intros m Hm.
    rewrite (find_none _ _ Hfind m Hm). reflexivity.
Qed.

Lemma fetchMonitors_selects_first_primary_or_first_witness :
  truthy_opt_id (selectedMonitorId initial) = false
  /\ MonitorInfo.is_primary mainMonitor = true
  /\ MonitorInfo.is_primary rightMonitor = true
  /\ selectedMonitorId
       (fst (fetchMonitors
               (Resolved [leftMonitor; mainMonitor; rightMonitor])
               initial))
     = Some 5%Z
  /\ exists (before : list MonitorInfo.t) (primary : MonitorInfo.t)
            (after : list MonitorInfo.t),
      [leftMonitor; mainMonitor; rightMonitor] = before ++ primary :: after
      /\ forallb (fun m => negb (MonitorInfo.is_primary m)) before = true
      /\ MonitorInfo.is_primary primary = true
      /\ selectedMonitorId
           (fst (fetchMonitorsIn initial
                   (Resolved [leftMonitor; mainMonitor; rightMonitor])
                   initial))
         = Some (MonitorInfo.id primary).
Proof.
  split; [reflexivity | split; [reflexivity | split; [reflexivity |]]].
  split; [reflexivity |].
  destruct (fetchMonitors_selects_first_primary_or_first
              leftMonitor [mainMonitor; rightMonitor] initial initial
              eq_refl) as (_ & [Hprimary | (Hnone & _)]).
  - exact Hprimary.
  - discriminate Hnone.
Defined.

(** ** Settings *)

Lemma loadSettings_autoSave (b : bool) (localStorage : gmap string string)
    (fresh : AppState) :
  localStorage !! "autoSave"%string = Some (String_of_bool b) ->
  autoSave (loadSettings localStorage fresh) = b.
Proof.
  intros H. unfold loadSettings. rewrite H.
  destruct b; simpl;
    match goal with |- autoSave (setAutoSave _ ?s) = _ => destruct s end;
    reflexivity.
Qed.

Lemma loadSettings_defaultPath (path : string)
    (localStorage : gmap string string) (fresh : AppState) :
  localStorage !! "defaultPath"%string = Some path ->
  truthy_string path = true ->
  defaultPath (loadSettings localStorage fresh) = Some path.
Proof.
  intros H Hpath. unfold loadSettings. rewrite H, Hpath.
  destruct (localStorage !! "autoSave"%string) as [saved|];
    [destruct (truthy_string saved) |]; destruct fresh; reflexivity.
Qed.

(** X4: the settings survive a restart. After [toggleAutoSave] the flag
    is inverted, and the start-up effect of a fresh page reads the
    inverted flag back from the storage; after a folder was chosen the
    start-up effect reads that folder back. Each of the two leaves the
    other's stored value alone, and a dismissed folder dialog changes
    neither the state nor the storage. *)
Theorem settings_survive_restart
    (s fresh : AppState) (localStorage : gmap string string) :
  (autoSave (fst (toggleAutoSave s localStorage)) = negb (autoSave s)
   /\ autoSave (loadSettings (snd (toggleAutoSave s localStorage)) fresh)
      = negb (autoSave s)
   /\ snd (toggleAutoSave s localStorage) !! "defaultPath"%string
      = localStorage !! "defaultPath"%string)
  /\ (forall path : string,
        truthy_string path = true ->
        defaultPath (fst (selectDefaultFolder (Resolved (Some path)) s
                            localStorage)) = Some path
        /\ defaultPath
             (loadSettings
                (snd (selectDefaultFolder (Resolved (Some path)) s
                        localStorage)) fresh) = Some path
        /\ snd (selectDefaultFolder (Resolved (Some path)) s localStorage)
             !! "autoSave"%string
           = localStorage !! "autoSave"%string)
  /\ selectDefaultFolder (Resolved None) s localStorage = (s, localStorage).
Proof.
  split; [| split; [| reflexivity]].
  - unfold toggleAutoSave. cbn [fst snd]. split; [destruct s; reflexivity |].
    split.
    + apply loadSettings_autoSave. apply lookup_insert_eq.
    + apply lookup_insert_ne. discriminate.
  - intros path Hpath. unfold selectDefaultFolder. rewrite Hpath.
    cbn [fst snd]. split; [destruct s; reflexivity | split].
    + apply loadSettings_defaultPath; [apply lookup_insert_eq | exact Hpath].
    + apply lookup_insert_ne. discriminate.
Qed.

Lemma settings_survive_restart_witness :
  truthy_string "/home/me/shots" = true
  /\ defaultPath
       (loadSettings
          (snd (selectDefaultFolder (Resolved (Some "/home/me/shots"%string))
                  initial
                  (snd (toggleAutoSave initial ∅))))
          initial) = Some "/home/me/shots"%string
  /\ autoSave
       (loadSettings
          (snd (selectDefaultFolder (Resolved (Some "/home/me/shots"%string))
                  initial
                  (snd (toggleAutoSave initial ∅))))
          initial) = true.
Proof.
  split; [reflexivity |].
  destruct (settings_survive_restart initial initial
              (snd (toggleAutoSave initial ∅)))
    as (_ & Hfolder & _).
  destruct (Hfolder "/home/me/shots"%string eq_refl) as (_ & Hpath & Hflag).
  split; [exact Hpath |].
  apply (loadSettings_autoSave true). rewrite Hflag.
  apply lookup_insert_eq.
Defined.

(** ** A recording from start to stop *)

(** The chunks the recorder delivers, oldest first. *)
Definition deliver (chunks : list Blob) (s : AppState) : AppState :=
  fold_left (fun state chunk => ondataavailable chunk state) chunks s.

Definition nonEmpty (chunk : Blob) : bool := (0 <? size chunk)%nat.

Lemma deliver_fields (chunks : list Blob) (s : AppState) :
  isRecording (deliver chunks s) = isRecording s
  /\ mediaRecorderRef (deliver chunks s) = mediaRecorderRef s
  /\ recordedChunksRef (deliver chunks s)
     = recordedChunksRef s ++ List.filter nonEmpty chunks.
Proof.
  revert s. induction chunks as [|chunk rest IH]; intros s.
  - simpl. rewrite app_nil_r. auto.
  - unfold deliver in *. simpl.
    destruct (IH (ondataavailable chunk s)) as (-> & -> & ->).
    unfold ondataavailable, nonEmpty.
    destruct (0 <? size chunk)%nat; [| auto].
    destruct s; simpl. rewrite <- app_assoc. auto.
Qed.

Lemma saveVideoBody_data (data : list Z) (iso : string)
    (chosen : settled (option string)) (written : settled unit)
    (closure : AppState) (path : string) (saved : list Z) :
  In (save_video path saved)
     (snd (saveVideoBody data iso chosen written closure)) ->
  saved = data.
Proof.
  unfold saveVideoBody.
  destruct (automaticFolder closure) as [dir|].
  - destruct written; simpl; intros H;
      repeat (destruct H as [H | H]; [congruence |]); destruct H.
  - destruct chosen as [[chosenPath|]|error];
      [destruct (truthy_string chosenPath); [destruct written |] | |];
      simpl; intros H;
      repeat (destruct H as [H | H]; [congruence |]); destruct H.
Qed.

(** X5: a recording from start to stop. After a successful start, while
    chunks arrive, [stopRecording] stops the recorder that was started.
    The buffer holds the chunks delivered since the start that are not
    empty, in order (what was buffered before the start is gone). When the
    recorder reports its stop, the flag is cleared, the tracks of the
    recorded stream are stopped, and whatever is handed to [save_video] is
    the bytes of those chunks joined in order. *)
Theorem recording_runs_from_start_to_stop
    (s0 closure : AppState) (onStream : MediaStream) (chunks : list Blob)
    (iso : string) (chosen : settled (option string))
    (written : settled unit) :
  let recorder := {| stream := onStream |} in
  let s1 := deliver chunks
              (fst (startRecording (Resolved onStream) (Resolved tt) s0)) in
  let stopped := onstop recorder closure iso chosen written s1 in
  stopRecording s1 = (s1, [recorder_stop recorder])
  /\ recordedChunksRef s1 = List.filter nonEmpty chunks
  /\ isRecording (fst (fst stopped)) = false
  /\ snd stopped = [onStream]
  /\ forall (path : string) (saved : list Z),
      In (save_video path saved) (snd (fst stopped)) ->
      saved = concat (map bytes (List.filter nonEmpty chunks)).
Proof.
  intros recorder s1 stopped.
  destruct (deliver_fields chunks
              (fst (startRecording (Resolved onStream) (Resolved tt) s0)))
    as (Hflag & Hhandle & Hbuffer).
  fold s1 in Hflag, Hhandle, Hbuffer.
  assert (Hstart :
            isRecording
              (fst (startRecording (Resolved onStream) (Resolved tt) s0))
            = true
            /\ mediaRecorderRef
                 (fst (startRecording (Resolved onStream) (Resolved tt) s0))
               = Some recorder
            /\ recordedChunksRef
                 (fst (startRecording (Resolved onStream) (Resolved tt) s0))
               = []) by (destruct s0; repeat split).
  destruct Hstart as (Hf & Hh & Hb).
  rewrite Hf in Hflag. rewrite Hh in Hhandle. rewrite Hb in Hbuffer.
  simpl in Hbuffer.
  split; [unfold stopRecording; rewrite Hhandle, Hflag; reflexivity |].
  split; [exact Hbuffer |].
  unfold stopped, onstop. rewrite Hbuffer.
  destruct (saveVideoBody _ iso chosen written closure)
    as [update calls] eqn:Hbody.
  cbn [fst snd]. split; [| split; [reflexivity |]].
  - destruct update; destruct s1; reflexivity.
  - intros path saved Hin.
    apply (saveVideoBody_data _ iso chosen written closure path).
    rewrite Hbody. exact Hin.
Qed.

(** X6: when the recorder reports its stop, the flag is cleared and the
    tracks of its stream are stopped whatever happens to the video. If the
    save dialog is opened and dismissed, nothing is handed to [save_video]
    and yet the status reads that the recording was saved. *)
Theorem onstop_releases_stream_whatever_the_save
    (r : MediaRecorder) (closure : AppState) (iso : string)
    (chosen : settled (option string)) (written : settled unit)
    (s : AppState) :
  let stopped := onstop r closure iso chosen written s in
  isRecording (fst (fst stopped)) = false
  /\ snd stopped = [stream r]
  /\ (automaticFolder closure = None -> chosen = Resolved None ->
      status (fst (fst stopped)) = "Recording finished and saved."%string
      /\ snd (fst stopped)
         = [save_dialog
              (suggestedPath closure
                 ("recording_" ++ timestamp iso ++ ".webm")) "Video" "webm"]).
Proof.
  intros stopped. unfold stopped, onstop.
  destruct (saveVideoBody _ iso chosen written closure)
    as [update calls] eqn:Hbody.
  cbn [fst snd]. split; [destruct update; destruct s; reflexivity |].
  split; [reflexivity |].
  intros Hfolder ->. unfold saveVideoBody in Hbody. rewrite Hfolder in Hbody.
  injection Hbody as <- <-. split; [destruct s; reflexivity | reflexivity].
Qed.

Lemma onstop_releases_stream_whatever_the_save_witness :
  automaticFolder AppSpec.recording = None
  /\ isRecording AppSpec.recording = true
  /\ status
       (fst (fst (onstop {| stream := 1 |} AppSpec.recording AppSpec.noon
                    (Resolved None) (Resolved tt) AppSpec.recording)))
     = "Recording finished and saved."%string
  /\ snd (onstop {| stream := 1 |} AppSpec.recording AppSpec.noon
            (Resolved None) (Resolved tt) AppSpec.recording) = [1].
Proof.
  destruct (onstop_releases_stream_whatever_the_save {| stream := 1 |}
              AppSpec.recording AppSpec.noon (Resolved None) (Resolved tt)
              AppSpec.recording) as (_ & Hstopped & Hdismissed).
  destruct (Hdismissed eq_refl eq_refl) as [Hstatus _].
  split; [reflexivity | split; [reflexivity | split]].
  - exact Hstatus.
  - exact Hstopped.
Defined.

Lemma saveVideo_body (data : list Z) (iso : string)
    (chosen : settled (option string)) (written : settled unit)
    (s : AppState) :
  saveVideo data iso chosen written s
  = (applyStatus (fst (saveVideoBody data iso chosen written s)) s,
     snd (saveVideoBody data iso chosen written s)).
Proof.
  unfold saveVideo, saveVideoBody.
  destruct (automaticFolder s) as [dir|].
  - destruct written; reflexivity.
  - destruct chosen as [[path|]|error];
      [destruct (truthy_string path); [destruct written |] | |];
      reflexivity.
Qed.

(** ** Saving a picture *)

(** The picture [saveImage(imgData)] is about: [imgData || image]. *)
Definition dataToSave (imgData : option string) (s : AppState)
  : option string :=
  if truthy_opt_string imgData then imgData else image s.

Lemma truthy_path_in_folder (dir filename : string) :
  truthy_string (dir ++ "/" ++ filename) = true.
Proof. destruct dir; reflexivity. Qed.

(** X7: [saveImage] never writes nothing and never writes nowhere.
    Whatever it hands to [save_image] is the picture it was given or,
    without one, the picture held, that picture is not empty, and the path
    is not empty. *)
Theorem saveImage_writes_the_picture_held
    (imgData : option string) (iso : string)
    (chosen : settled (option string)) (written : settled unit)
    (s : AppState) (path data : string) :
  In (save_image path data) (snd (saveImage imgData iso chosen written s)) ->
  dataToSave imgData s = Some data
  /\ truthy_string data = true
  /\ truthy_string path = true.
Proof.
  unfold saveImage, saveImageBody, dataToSave.
  destruct (if truthy_opt_string imgData then imgData else image s)
    as [held|]; [| intros []].
  destruct (truthy_string held) eqn:Hheld; simpl; [| intros []].
  destruct (automaticFolder s) as [dir|].
  - destruct written; simpl; intros H;
      repeat (destruct H as [H | H];
              [try discriminate H; injection H as <- <-;
               rewrite truthy_path_in_folder; auto |]);
      destruct H.
  - destruct chosen as [[chosenPath|]|error];
      [destruct (truthy_string chosenPath) eqn:Hpath; [destruct written |]
      | |];
      simpl; intros H;
      repeat (destruct H as [H | H];
              [try discriminate H; injection H as <- <-; auto |]);
      destruct H.
Qed.

Lemma saveImage_writes_the_picture_held_witness :
  In (save_image "/tmp/shot.png" "AAAA")
     (snd (saveImage None AppSpec.noon
             (Resolved (Some "/tmp/shot.png"%string)) (Resolved tt)
             AppSpec.afterCapture))
  /\ dataToSave None AppSpec.afterCapture = Some "AAAA"%string.
Proof.
  assert (H : In (save_image "/tmp/shot.png" "AAAA")
                (snd (saveImage None AppSpec.noon
                        (Resolved (Some "/tmp/shot.png"%string))
                        (Resolved tt) AppSpec.afterCapture)))
    by (right; left; reflexivity).
  split; [exact H |].
  apply (saveImage_writes_the_picture_held None AppSpec.noon
           (Resolved (Some "/tmp/shot.png"%string)) (Resolved tt)
           AppSpec.afterCapture "/tmp/shot.png" "AAAA" H).
Defined.

(** X8: where a picture goes. With a picture to save, [saveImage] skips
    the dialog exactly when auto-save is on and a folder is configured, and
    then writes to [folder/screenshot_<mode>_<stamp>.png]; in every other
    case, auto-save without a folder included, its first call opens the
    save dialog. *)
Theorem saveImage_asks_unless_folder_is_automatic
    (imgData : option string) (iso : string)
    (chosen : settled (option string)) (written : settled unit)
    (s : AppState) (data : string) :
  dataToSave imgData s = Some data -> truthy_string data = true ->
  let filename :=
    ("screenshot_" ++ Mode_string (mode s) ++ "_" ++ timestamp iso
       ++ ".png")%string in
  let calls := snd (saveImage imgData iso chosen written s) in
  (autoSave s = true /\ truthy_opt_string (defaultPath s) = true ->
   exists dir : string,
     defaultPath s = Some dir
     /\ hd_error calls = Some (save_image (dir ++ "/" ++ filename) data)
     /\ ~ AppSpec.dialogOpened calls)
  /\ (autoSave s = false \/ truthy_opt_string (defaultPath s) = false ->
      hd_error calls
      = Some (save_dialog (suggestedPath s filename) "Image" "png")).
Proof.
  intros Hdata Htruthy. cbv zeta. unfold dataToSave in Hdata.
  unfold saveImage, saveImageBody. rewrite Hdata, Htruthy. simpl.
  unfold automaticFolder. split.
  - intros [Hauto Hfolder].
    destruct (defaultPath s) as [dir|]; [| discriminate Hfolder].
    simpl in Hfolder. rewrite Hauto, Hfolder. simpl.
    exists dir. split; [reflexivity |].
    destruct written; simpl; (split; [reflexivity |]);
      intros (a & b & c & H); simpl in H;
      repeat (destruct H as [H | H]; [discriminate H |]); destruct H.
  - intros Hmanual.
    assert (Hnone : match defaultPath s with
                    | Some dir => if (autoSave s && truthy_string dir)%bool
                                  then Some dir else None
                    | None => None
                    end = None).
    { destruct (defaultPath s) as [dir|]; [| reflexivity].
      simpl in Hmanual. destruct Hmanual as [-> | ->];
        [reflexivity | rewrite andb_false_r; reflexivity]. }
    rewrite Hnone.
    destruct chosen as [[path|]|error];
      [destruct (truthy_string path); [destruct written |] | |];
      reflexivity.
Qed.

Lemma saveImage_asks_unless_folder_is_automatic_witness :
  dataToSave None (setAutoSave true AppSpec.afterCapture)
  = Some "AAAA"%string
  /\ autoSave (setAutoSave true AppSpec.afterCapture) = true
  /\ hd_error
       (snd (saveImage None AppSpec.noon (Resolved None) (Resolved tt)
               (setAutoSave true AppSpec.afterCapture)))
     = Some (save_dialog "screenshot_fullscreen_2024-05-06T12-00-00.png"
               "Image" "png").
Proof.
  destruct (saveImage_asks_unless_folder_is_automatic None AppSpec.noon
              (Resolved None) (Resolved tt)
              (setAutoSave true AppSpec.afterCapture) "AAAA"
              eq_refl eq_refl) as [_ Hmanual].
  split; [reflexivity | split; [reflexivity |]].
  apply Hmanual. right. reflexivity.
Defined.

(** ** File name stamps *)

(** The character [c] occurs in [s]. *)
Fixpoint occurs (c : ascii) (s : string) : bool :=
  match s with
  | EmptyString => false
  | String c' rest => (Ascii.eqb c' c || occurs c rest)%bool
  end.

Lemma occurs_replace_colon_dot (c : ascii) (s : string) :
  c = ":"%char \/ c = "."%char -> occurs c (replace_colon_dot s) = false.
Proof.
  intros Hc. induction s as [|c' rest IH]; [reflexivity |].
  simpl. rewrite IH, orb_false_r.
  destruct (Ascii.eqb c' ":") eqn:H1; simpl;
    [destruct Hc as [-> | ->]; reflexivity |].
  destruct (Ascii.eqb c' ".") eqn:H2; simpl;
    [destruct Hc as [-> | ->]; reflexivity |].
  destruct Hc as [-> | ->]; assumption.
Qed.

Lemma occurs_substring (c : ascii) (n : nat) (s : string) :
  occurs c s = false -> occurs c (substring 0 n s) = false.
Proof.
  revert n. induction s as [|c' rest IH]; intros n H; [destruct n; reflexivity |].
  simpl in H. apply orb_false_iff in H as [Hc Hrest].
  destruct n; [reflexivity |]. simpl. rewrite Hc, (IH n Hrest). reflexivity.
Qed.

Lemma length_replace_colon_dot (s : string) :
  String.length (replace_colon_dot s) = String.length s.
Proof. induction s as [|c rest IH]; [reflexivity |]. simpl. rewrite IH. reflexivity. Qed.

Lemma length_substring_0 (n : nat) (s : string) :
  String.length (substring 0 n s) = Nat.min n (String.length s).
Proof.
  revert n. induction s as [|c rest IH]; intros [|n]; try reflexivity.
  simpl. rewrite IH. reflexivity.
Qed.

(** X9: the stamp put into file names holds neither a colon nor a dot,
    whatever the clock text is, and is the first 19 characters' worth of
    it: as long as the text when that is shorter, 19 characters
    otherwise. *)
Theorem timestamp_has_no_colon_or_dot (iso : string) :
  occurs ":" (timestamp iso) = false
  /\ occurs "." (timestamp iso) = false
  /\ String.length (timestamp iso) = Nat.min 19 (String.length iso).
Proof.
  unfold timestamp, slice0. repeat split.
  - apply occurs_substring, occurs_replace_colon_dot. left. reflexivity.
  - apply occurs_substring, occurs_replace_colon_dot. right. reflexivity.
  - rewrite length_substring_0, length_replace_colon_dot. reflexivity.
Qed.

(** ** The text of an exported picture *)

Lemma split_without_separator (sep : ascii) (s : string) :
  occurs sep s = false -> JS.split sep s = [s].
Proof.
  induction s as [|c rest IH]; [reflexivity |].
  simpl. intros H. apply orb_false_iff in H as [Hc Hrest].
  rewrite Hc, (IH Hrest). reflexivity.
Qed.

Lemma split_at_separator (sep : ascii) (before after : string) :
  occurs sep before = false ->
  JS.split sep (before ++ String sep after) = before :: JS.split sep after.
Proof.
  induction before as [|c rest IH]; intros H.
  - simpl. rewrite Ascii.eqb_refl. reflexivity.
  - simpl in H. apply orb_false_iff in H as [Hc Hrest].
    simpl. rewrite Hc, (IH Hrest). reflexivity.
Qed.

(** X10: of the data URL of a canvas with pixels, the components keep the
    encoder's text itself, whole and without the prefix, provided that
    text holds no comma (base64 never does). *)
Theorem base64Part_is_the_encoded_text
    (png_base64 : Canvas.bitmap -> string) (canvas : Canvas.bitmap) :
  Canvas.hasNoPixels canvas = false ->
  occurs "," (png_base64 canvas) = false ->
  Canvas.base64Part (Canvas.toDataURL png_base64 canvas)
  = Some (png_base64 canvas).
Proof.
  intros Hpixels Hcomma. unfold Canvas.toDataURL, Canvas.base64Part.
  rewrite Hpixels.
  change ("data:image/png;base64," ++ png_base64 canvas)%string
    with ("data:image/png;base64" ++ String "," (png_base64 canvas))%string.
  rewrite split_at_separator by reflexivity.
  rewrite (split_without_separator _ _ Hcomma). reflexivity.
Qed.

Lemma base64Part_is_the_encoded_text_witness :
  Canvas.hasNoPixels (Canvas.blank 2 2) = false
  /\ occurs "," (samplePng (Canvas.blank 2 2)) = false
  /\ Canvas.base64Part (Canvas.toDataURL samplePng (Canvas.blank 2 2))
     = Some "iVBO"%string.
Proof.
  split; [reflexivity | split; [reflexivity |]].
  apply (base64Part_is_the_encoded_text samplePng (Canvas.blank 2 2));
    reflexivity.
Defined.

(** ** Confirming twice, and a start that fails *)

Section CropFacts.

Variable png_base64 : Canvas.bitmap -> string.
Variable resample :
  Canvas.bitmap -> number -> number -> number -> number ->
  Canvas.bitmap -> Canvas.bitmap.

Lemma cropGuard_applyStatus (update : option string) (s : AppState) :
  originalImage (applyStatus update s) = originalImage s
  /\ completedCrop (applyStatus update s) = completedCrop s
  /\ imgRef (applyStatus update s) = imgRef s.
Proof. destruct update, s; repeat split. Qed.

(** X20: a crop is confirmed once. Whatever [confirmCrop] did, crop or
    nothing, a second [confirmCrop] right after it does nothing at all: no
    state changes and nothing is written again. *)
Theorem confirmCrop_twice_is_once
    (iso iso' : string) (chosen chosen' : settled (option string))
    (written written' : settled unit) (s : AppState) :
  let s' := fst (confirmCrop png_base64 resample iso chosen written s) in
  confirmCrop png_base64 resample iso' chosen' written' s' = (s', []).
Proof.
  intros s'.
  destruct (completedCrop s) as [c|] eqn:Hc;
    [| unfold s', confirmCrop; rewrite Hc; simpl;
       unfold confirmCrop; rewrite Hc; reflexivity].
  destruct (imgRef s) as [img|] eqn:Himg;
    [| unfold s', confirmCrop; rewrite Hc, Himg; simpl;
       unfold confirmCrop; rewrite Hc, Himg; reflexivity].
  destruct (originalImage s) as [original|] eqn:Horig;
    [| unfold s', confirmCrop; rewrite Hc, Himg, Horig; simpl;
       unfold confirmCrop; rewrite Hc, Himg, Horig; reflexivity].
  destruct (truthy_string original) eqn:Htruthy;
    [| unfold s', confirmCrop; rewrite Hc, Himg, Horig, Htruthy; simpl;
       unfold confirmCrop; rewrite Hc, Himg, Horig, Htruthy; reflexivity].
  destruct (AppSpec.confirmCrop_result png_base64 resample iso chosen
              written s c img original Hc Himg Horig Htruthy)
    as (_ & Hgone & _).
  fold s' in Hgone. unfold confirmCrop. rewrite Hgone.
  destruct (completedCrop s'), (imgRef s'); reflexivity.
Qed.

End CropFacts.

(** The recorder's part of the state, and what the button row offers. *)
Definition recorderState (s : AppState)
  : bool * option MediaRecorder * list Blob :=
  (isRecording s, mediaRecorderRef s, recordedChunksRef s).

(** X21: a start that fails starts nothing. When the screen is not
    granted, or the recorder cannot be constructed, no recorder is
    started, the flag, the handle and the buffer are what they were, the
    same controls are offered as before, and the status tells the error. *)
Theorem failed_start_starts_nothing
    (granted : settled MediaStream) (constructed : settled unit)
    (s : AppState) (err : string) :
  granted = Rejected err
  \/ (exists onStream, granted = Resolved onStream)
     /\ constructed = Rejected err ->
  let r := startRecording granted constructed s in
  recorderState (fst r) = recorderState s
  /\ (forall c : control, offered c (fst r) = offered c s)
  /\ status (fst r) = ("Recording Error: " ++ err)%string
  /\ forall started : MediaRecorder, ~ In (recorder_start started) (snd r).
Proof.
  intros Hfail r.
  assert (Hr : fst r = setStatus ("Recording Error: " ++ err) s
               /\ forall started, ~ In (recorder_start started) (snd r)).
  { unfold r. destruct Hfail as [-> | [[onStream ->] ->]]; simpl;
      (split; [reflexivity |]); intros started H; simpl in H;
      repeat (destruct H as [H | H]; [discriminate H |]); destruct H. }
  destruct Hr as [-> Hcalls].
  split; [destruct s; reflexivity | split; [| split]].
  - intros c. destruct s, c; reflexivity.
  - destruct s; reflexivity.
  - exact Hcalls.
Qed.

Lemma failed_start_starts_nothing_witness :
  recorderState
    (fst (startRecording (Rejected "NotAllowedError") (Resolved tt)
            (setMode record initial)))
  = (false, None, [])
  /\ offered StartRecordingButton
       (fst (startRecording (Rejected "NotAllowedError") (Resolved tt)
               (setMode record initial))) = true.
Proof.
  destruct (failed_start_starts_nothing (Rejected "NotAllowedError")
              (Resolved tt) (setMode record initial) "NotAllowedError"
              (or_introl eq_refl)) as (Hstate & Hoffered & _).
  split; [rewrite Hstate; reflexivity |].
  rewrite (Hoffered StartRecordingButton). reflexivity.
Defined.

End SessionSpec.

(** * Properties of the editor as a whole *)

Module EditorSpec.

Import JS ImageEditor ImageEditorSpec.

(** The annotation canvas is there, has the size in [dimensions], and
    holds a pixel at every position inside that size. *)
Definition fits (s : EditorState) : Prop :=
  exists canvas : CanvasElement,
    canvasRef s = Some canvas
    /\ Canvas.width (bitmap canvas) = width (dimensions s)
    /\ Canvas.height (bitmap canvas) = height (dimensions s)
    /\ forall x y : nat,
        (x < width (dimensions s))%nat -> (y < height (dimensions s))%nat ->
        exists p, Canvas.getPixel (bitmap canvas) x y = Some p.

(** The canvas and the dimensions of [s2] are those of [s1], up to a
    repainting of the pixels and a change of the context. *)
Definition sameFrame (s1 s2 : EditorState) : Prop :=
  dimensions s2 = dimensions s1
  /\ imageData s2 = imageData s1
  /\ match canvasRef s1, canvasRef s2 with
     | Some c1, Some c2 =>
         Canvas.width (bitmap c2) = Canvas.width (bitmap c1)
         /\ Canvas.height (bitmap c2) = Canvas.height (bitmap c1)
         /\ forall x y p,
             Canvas.getPixel (bitmap c1) x y = Some p ->
             exists q, Canvas.getPixel (bitmap c2) x y = Some q
     | None, None => True
     | _, _ => False
     end.

Lemma sameFrame_refl (s : EditorState) : sameFrame s s.
Proof.
  unfold sameFrame. repeat split. destruct (canvasRef s); [| exact I].
  repeat split. eauto.
Qed.

Lemma sameFrame_fits (s1 s2 : EditorState) :
  sameFrame s1 s2 -> fits s1 -> fits s2.
Proof.
  intros (Hd & _ & Hc) (c1 & Hc1 & Hw & Hh & Hp). rewrite Hc1 in Hc.
  destruct (canvasRef s2) as [c2|] eqn:Hc2; [| destruct Hc].
  destruct Hc as (Hw2 & Hh2 & Hp2).
  exists c2. rewrite Hd. repeat split; try congruence.
  intros x y Hx Hy. destruct (Hp x y Hx Hy) as [p Hpix]. eauto.
Qed.

(** The same canvas bitmap, whatever the context. *)
Lemma sameFrame_bitmap (s1 s2 : EditorState) :
  dimensions s2 = dimensions s1 -> imageData s2 = imageData s1 ->
  (bitmap <$> canvasRef s2) = (bitmap <$> canvasRef s1) ->
  sameFrame s1 s2.
Proof.
  intros Hd Hi Hb. unfold sameFrame. repeat split; try assumption.
  destruct (canvasRef s1) as [c1|], (canvasRef s2) as [c2|];
    try discriminate Hb; [| exact I].
  injection Hb as Hb. rewrite Hb. repeat split. eauto.
Qed.

Lemma sameFrame_settingsEffect (s : EditorState) :
  sameFrame s (settingsEffect s).
Proof.
  apply sameFrame_bitmap; unfold settingsEffect;
    destruct (canvasRef s) eqn:Hc; simpl; rewrite ?Hc; reflexivity.
Qed.

Lemma sameFrame_repaint (s : EditorState) (canvas : CanvasElement)
    (f : nat -> nat -> Canvas.pixel -> Canvas.pixel) (ctx : Context2D) :
  canvasRef s = Some canvas ->
  sameFrame s
    (setCanvasRef
       (Some {| bitmap := Canvas.repaint f (bitmap canvas); context := ctx |})
       s).
Proof.
  intros Hc. unfold sameFrame. simpl. rewrite Hc. repeat split.
  intros x y p Hp. rewrite getPixel_repaint, Hp. simpl. eauto.
Qed.

Section EditorFacts.

Variable coverage :
  lineShape -> lineShape -> number -> list subpath -> nat -> nat -> Z.
Variable decode_png : string -> option Canvas.bitmap.
Variable png_base64 : Canvas.bitmap -> string.

Definition isImageLoaded (i : interaction) : bool :=
  match i with
  | ImageLoaded => true
  | _ => false
  end.

(** Every interaction but the picture's [onload] keeps the frame. *)
Lemma sameFrame_dispatch (i : interaction) (s : EditorState) :
  isImageLoaded i = false ->
  sameFrame s (dispatch coverage decode_png i s).
Proof.
  destruct i; try discriminate; intros _; simpl.
  - unfold setTool. destruct (Tool_eqb (tool s) pen);
      [apply sameFrame_refl |].
    apply (sameFrame_settingsEffect (withTool pen s)).
  - unfold setTool. destruct (Tool_eqb (tool s) eraser);
      [apply sameFrame_refl |].
    apply (sameFrame_settingsEffect (withTool eraser s)).
  - unfold clearCanvas. destruct (canvasRef s) as [canvas|] eqn:Hc;
      [| apply sameFrame_refl].
    apply sameFrame_repaint, Hc.
  - unfold setColor. destruct (String.eqb (color s) value);
      [apply sameFrame_refl |].
    apply (sameFrame_settingsEffect (withColor value s)).
  - unfold setOpacity. destruct (sameNumber (opacity s) value);
      [apply sameFrame_refl |].
    apply (sameFrame_settingsEffect (withOpacity value s)).
  - unfold setLineWidth. destruct (sameNumber (lineWidth s) value);
      [apply sameFrame_refl |].
    apply (sameFrame_settingsEffect (withLineWidth value s)).
  - apply sameFrame_bitmap; unfold startDrawing;
      destruct (canvasRef s) as [canvas|] eqn:Hc; rewrite ?Hc;
      try reflexivity;
      destruct (getCoordinates e canvas rect); simpl; rewrite ?Hc;
      reflexivity.
  - unfold draw. destruct (isDrawing s); simpl; [| apply sameFrame_refl].
    destruct (canvasRef s) as [canvas|] eqn:Hc; [| apply sameFrame_refl].
    destruct (getCoordinates e canvas rect) as [p|]; [| apply sameFrame_refl].
    unfold stroke. simpl. apply sameFrame_repaint, Hc.
  - apply sameFrame_bitmap; unfold stopDrawing;
      destruct (isDrawing s); simpl; try reflexivity;
      destruct (canvasRef s) eqn:Hc; simpl; rewrite ?Hc; reflexivity.
Qed.

Lemma getPixel_blank (w h x y : nat) :
  (x < w)%nat -> (y < h)%nat ->
  Canvas.getPixel (Canvas.blank w h) x y = Some Canvas.transparent.
Proof.
  intros Hx Hy. unfold Canvas.getPixel, Canvas.blank. simpl.
  apply Nat.ltb_lt in Hx as Hx'. rewrite Hx'.
  apply lookup_replicate. split; [reflexivity | nia].
Qed.

Lemma fits_onload (s : EditorState) : fits s -> fits (onload decode_png s).
Proof.
  intros (canvas & Hc & Hw & Hh & Hp). unfold onload.
  destruct (decode_png (imageData s)) as [img|];
    [| exists canvas; auto].
  destruct (Dimensions_eqb (dimensions s) _) eqn:Hsame.
  - unfold Dimensions_eqb in Hsame. simpl in Hsame.
    apply andb_true_iff in Hsame as [H1 H2].
    apply Nat.eqb_eq in H1, H2.
    exists canvas. simpl. rewrite <- H1, <- H2. auto.
  - rewrite Hc. eexists. simpl. split; [reflexivity |].
    repeat split. intros x y Hx Hy. exists Canvas.transparent.
    apply getPixel_blank; assumption.
Qed.

Lemma fits_dispatch (i : interaction) (s : EditorState) :
  fits s -> fits (dispatch coverage decode_png i s).
Proof.
  intros Hs. destruct (isImageLoaded i) eqn:Hi.
  - destruct i; try discriminate. apply fits_onload, Hs.
  - apply (sameFrame_fits s), Hs. apply sameFrame_dispatch, Hi.
Qed.

Lemma fits_dispatchAll (inputs : list interaction) (s : EditorState) :
  fits s -> fits (dispatchAll coverage decode_png inputs s).
Proof.
  revert s. induction inputs as [|i rest IH]; intros s Hs; [exact Hs |].
  unfold dispatchAll in *. simpl. apply IH, fits_dispatch, Hs.
Qed.

Lemma fits_mounted (data : string) : fits (mounted data).
Proof.
  eexists. split; [reflexivity |]. simpl. repeat split.
  intros x y Hx. inversion Hx.
Qed.

(** X11: whatever is done in the editor, from its first render on, the
    annotation canvas stays mounted, has exactly the size in [dimensions],
    and holds a pixel at every position inside that size. *)
Theorem canvas_always_fits_dimensions
    (data : string) (inputs : list interaction) :
  let s := dispatchAll coverage decode_png inputs (mounted data) in
  exists canvas : CanvasElement,
    canvasRef s = Some canvas
    /\ Canvas.width (bitmap canvas) = width (dimensions s)
    /\ Canvas.height (bitmap canvas) = height (dimensions s)
    /\ forall x y : nat,
        (x < width (dimensions s))%nat -> (y < height (dimensions s))%nat ->
        exists p, Canvas.getPixel (bitmap canvas) x y = Some p.
Proof. apply (fits_dispatchAll inputs (mounted data)), fits_mounted. Qed.

Lemma sameFrame_trans (s1 s2 s3 : EditorState) :
  sameFrame s1 s2 -> sameFrame s2 s3 -> sameFrame s1 s3.
Proof.
  intros (Hd1 & Hi1 & Hc1) (Hd2 & Hi2 & Hc2). unfold sameFrame.
  split; [congruence | split; [congruence |]].
  destruct (canvasRef s1) as [c1|], (canvasRef s2) as [c2|],
    (canvasRef s3) as [c3|]; try contradiction; [| exact I].
  destruct Hc1 as (Hw1 & Hh1 & Hp1), Hc2 as (Hw2 & Hh2 & Hp2).
  split; [congruence | split; [congruence |]].
  intros x y p Hp. destruct (Hp1 x y p Hp) as [q Hq]. apply (Hp2 x y q Hq).
Qed.

Lemma sameFrame_dispatchAll (inputs : list interaction) (s : EditorState) :
  forallb (fun i => negb (isImageLoaded i)) inputs = true ->
  sameFrame s (dispatchAll coverage decode_png inputs s).
Proof.
  revert s. induction inputs as [|i rest IH]; intros s H;
    [apply sameFrame_refl |].
  simpl in H. apply andb_true_iff in H as [Hi Hrest].
  apply negb_true_iff in Hi. unfold dispatchAll in *. simpl.
  apply (sameFrame_trans _ (dispatch coverage decode_png i s)).
  - apply sameFrame_dispatch, Hi.
  - apply IH, Hrest.
Qed.

(** X12: until the picture has loaded, [getMergedImage] never settles,
    whatever is done in the editor meanwhile: the annotation canvas has no
    pixels yet, and drawing it onto the export canvas throws. *)
Theorem getMergedImage_pending_before_load
    (data : string) (inputs : list interaction) :
  forallb (fun i => negb (isImageLoaded i)) inputs = true ->
  getMergedImage decode_png png_base64
    (dispatchAll coverage decode_png inputs (mounted data)) = None.
Proof.
  intros H.
  destruct (sameFrame_dispatchAll inputs (mounted data) H)
    as (Hd & Hi & Hc).
  unfold getMergedImage, mergedCanvas. rewrite Hi.
  destruct (decode_png (imageData (mounted data))); [| reflexivity].
  change (canvasRef (mounted data)) with
    (Some (onContext setRoundLines
             (freshCanvas {| width := 0; height := 0 |}))) in Hc.
  destruct (canvasRef _) as [canvas|]; [| destruct Hc].
  destruct Hc as (Hw & _). unfold Canvas.hasNoPixels. rewrite Hw.
  reflexivity.
Qed.

(** The picture has loaded into the editor: its text decodes to [img] and
    [dimensions] is the size of [img]. *)
Definition showing (img : Canvas.bitmap) (s : EditorState) : Prop :=
  decode_png (imageData s) = Some img
  /\ dimensions s
     = {| width := Canvas.width img; height := Canvas.height img |}.

Lemma onload_showing (img : Canvas.bitmap) (s : EditorState) :
  decode_png (imageData s) = Some img -> showing img (onload decode_png s).
Proof.
  intros Himg. unfold showing, onload. rewrite Himg.
  destruct (Dimensions_eqb (dimensions s) _);
    [| destruct (canvasRef s)]; simpl; rewrite Himg; auto.
Qed.

(** A load event for the picture already shown changes nothing. *)
Lemma onload_again (img : Canvas.bitmap) (s : EditorState) :
  showing img s -> onload decode_png s = s.
Proof.
  intros [Himg Hd]. unfold onload. rewrite Himg, Hd.
  unfold Dimensions_eqb. simpl. rewrite !Nat.eqb_refl. simpl.
  destruct s. simpl in *. rewrite Hd. reflexivity.
Qed.

Lemma showing_dispatch (img : Canvas.bitmap) (i : interaction)
    (s : EditorState) :
  showing img s -> showing img (dispatch coverage decode_png i s).
Proof.
  intros Hs. destruct (isImageLoaded i) eqn:Hi.
  - destruct i; try discriminate. simpl. rewrite (onload_again img s Hs).
    exact Hs.
  - destruct (sameFrame_dispatch i s Hi) as (Hd & Himg & _).
    destruct Hs as [H1 H2]. unfold showing. rewrite Hd, Himg. auto.
Qed.

Lemma showing_dispatchAll (img : Canvas.bitmap) (inputs : list interaction)
    (s : EditorState) :
  showing img s -> showing img (dispatchAll coverage decode_png inputs s).
Proof.
  revert s. induction inputs as [|i rest IH]; intros s Hs; [exact Hs |].
  unfold dispatchAll in *. simpl. apply IH, showing_dispatch, Hs.
Qed.

Lemma imageData_dispatchAll (inputs : list interaction) (s : EditorState) :
  imageData (dispatchAll coverage decode_png inputs s) = imageData s.
Proof.
  revert s. induction inputs as [|i rest IH]; intros s; [reflexivity |].
  unfold dispatchAll in *. simpl. rewrite IH.
  destruct (isImageLoaded i) eqn:Hi.
  - destruct i; try discriminate. simpl. unfold onload.
    destruct (decode_png (imageData s)); [| reflexivity].
    destruct (Dimensions_eqb _ _); [| destruct (canvasRef s)]; reflexivity.
  - apply (sameFrame_dispatch i s Hi).
Qed.

(** An interaction that adds to a stroke or clears the strokes: the clear
    button, and a pointer move while the pointer is down. *)
Definition paints (i : interaction) (s : EditorState) : bool :=
  match i with
  | ClickClearAll => true
  | PointerMove _ _ => isDrawing s
  | _ => false
  end.

(** None of the interactions paints in the state it arrives in. *)
Fixpoint unpainted (between : list interaction) (s : EditorState) : bool :=
  match between with
  | [] => true
  | i :: rest =>
      negb (paints i s)
      && unpainted rest (dispatch coverage decode_png i s)
  end.

Lemma surface_dispatch_shown (img : Canvas.bitmap) (i : interaction)
    (s : EditorState) :
  showing img s -> paints i s = false ->
  surface (dispatch coverage decode_png i s) = surface s.
Proof.
  intros Hs Hi. destruct i; try discriminate Hi;
    try (apply surface_dispatch; reflexivity).
  - simpl in Hi. simpl. unfold draw. rewrite Hi. reflexivity.
  - simpl. rewrite (onload_again img s Hs). reflexivity.
Qed.

Lemma surface_dispatchAll_shown (img : Canvas.bitmap)
    (between : list interaction) (s : EditorState) :
  showing img s ->
  unpainted between s = true ->
  surface (dispatchAll coverage decode_png between s) = surface s.
Proof.
  revert s. induction between as [|i rest IH]; intros s Hs H; [reflexivity |].
  simpl in H. apply andb_true_iff in H as [Hi Hrest].
  apply negb_true_iff in Hi. unfold dispatchAll in *. simpl.
  rewrite (IH _ (showing_dispatch img i s Hs) Hrest).
  apply (surface_dispatch_shown img); assumption.
Qed.

(** C5, as the code has it: once the picture has loaded (its text
    decodes, [dimensions] holds its size, the annotation canvas has
    pixels), [getMergedImage] settles with a text, and a second call
    settles with the same text whatever was done in between, as long as
    no stroke was extended and nothing was cleared: the toolbar, a pointer
    down or up, a pointer move while the pointer is not down and further
    load events of the picture change nothing that the call reads, and the
    call itself writes no state. *)
Theorem getMergedImage_repeatable_once_loaded
    (s : EditorState) (img : Canvas.bitmap) (canvas : CanvasElement)
    (between : list interaction) :
  decode_png (imageData s) = Some img ->
  dimensions s
  = {| width := Canvas.width img; height := Canvas.height img |} ->
  canvasRef s = Some canvas ->
  Canvas.hasNoPixels (bitmap canvas) = false ->
  unpainted between s = true ->
  exists url : option string,
    getMergedImage decode_png png_base64 s = Some url
    /\ getMergedImage decode_png png_base64
         (dispatchAll coverage decode_png between s) = Some url.
Proof.
  intros Himg Hd Hcanvas Hpixels Hbetween.
  assert (Hsame : getMergedImage decode_png png_base64
                    (dispatchAll coverage decode_png between s)
                  = getMergedImage decode_png png_base64 s).
  { unfold getMergedImage.
    rewrite (mergedCanvas_surface decode_png _ s
               (surface_dispatchAll_shown img between s
                  (conj Himg Hd) Hbetween)).
    reflexivity. }
  rewrite Hsame. unfold getMergedImage, mergedCanvas.
  rewrite Himg, Hcanvas, Hpixels. eexists. split; reflexivity.
Qed.

Lemma dispatchAll_load (before after : list interaction)
    (s : EditorState) :
  dispatchAll coverage decode_png (before ++ ImageLoaded :: after) s
  = dispatchAll coverage decode_png after
      (onload decode_png (dispatchAll coverage decode_png before s)).
Proof. unfold dispatchAll. rewrite fold_left_app. reflexivity. Qed.

(** X13: once the picture has loaded, the flattened picture has the
    picture's own size, whatever was done before the load and whatever is
    done after it, further load events included: [getMergedImage] settles,
    with the text of an export canvas as wide and as high as the picture,
    and a further load event changes nothing. *)
Theorem flattened_picture_has_native_size
    (data : string) (img : Canvas.bitmap)
    (before after : list interaction) :
  decode_png data = Some img -> Canvas.hasNoPixels img = false ->
  let s := dispatchAll coverage decode_png
             (before ++ ImageLoaded :: after) (mounted data) in
  dimensions s = {| width := Canvas.width img; height := Canvas.height img |}
  /\ onload decode_png s = s
  /\ exists merged : Canvas.bitmap,
      mergedCanvas decode_png s = Some merged
      /\ Canvas.width merged = Canvas.width img
      /\ Canvas.height merged = Canvas.height img
      /\ getMergedImage decode_png png_base64 s
         = Some (Canvas.base64Part (Canvas.toDataURL png_base64 merged)).
Proof.
  intros Himg Hpixels s.
  assert (Hshow : showing img s).
  { unfold s. rewrite dispatchAll_load.
    apply (showing_dispatchAll img after), onload_showing.
    rewrite (imageData_dispatchAll before (mounted data)). exact Himg. }
  assert (Hfits : fits s)
    by (apply (fits_dispatchAll _ (mounted data)), fits_mounted).
  destruct Hshow as [Hdecode Hd].
  destruct Hfits as (canvas & Hc & Hw & Hh & _).
  split; [exact Hd | split; [apply (onload_again img); split; assumption |]].
  unfold getMergedImage, mergedCanvas. rewrite Hdecode, Hc.
  assert (Hcanvas : Canvas.hasNoPixels (bitmap canvas) = false).
  { unfold Canvas.hasNoPixels in *. rewrite Hw, Hh, Hd. exact Hpixels. }
  rewrite Hcanvas. eexists. split; [reflexivity |].
  rewrite Hd. repeat split.
Qed.

(** ** Strokes *)

Lemma draw_idle (e : PointerEvent) (rect : DOMRect.t) (s : EditorState) :
  isDrawing s = false -> draw coverage e rect s = s.
Proof. intros H. unfold draw. rewrite H. reflexivity. Qed.

Lemma drawAll_idle (moves : list (PointerEvent * DOMRect.t))
    (s : EditorState) :
  isDrawing s = false -> drawAll coverage moves s = s.
Proof.
  intros H. induction moves as [|[e rect] rest IH]; [reflexivity |].
  unfold drawAll in *. simpl. rewrite (draw_idle e rect s H). exact IH.
Qed.

(** X14: pointer moves paint only between a pointer down and the next
    pointer up. Moves after a pointer up, or before any pointer down,
    leave the editor exactly as it was, however many there are. *)
Theorem moves_without_pointer_down_paint_nothing
    (moves : list (PointerEvent * DOMRect.t)) (s : EditorState)
    (data : string) :
  drawAll coverage moves (stopDrawing s) = stopDrawing s
  /\ drawAll coverage moves (mounted data) = mounted data.
Proof.
  split; apply drawAll_idle; [| reflexivity].
  unfold stopDrawing. destruct (isDrawing s) eqn:H; simpl; [| exact H].
  destruct (canvasRef s); reflexivity.
Qed.

(** The style a stroke paints with: operator, colour and line width. *)
Definition brush (canvas : CanvasElement)
  : Canvas.compositeOperation * Rgba.t * number :=
  (globalCompositeOperation (context canvas), strokeStyle (context canvas),
   ctxLineWidth (context canvas)).

(** The interactions that set the brush: a pointer down, and a load that
    resets the canvas. *)
Definition setsBrush (i : interaction) : bool :=
  match i with
  | PointerDown _ _ | ImageLoaded => true
  | _ => false
  end.

Lemma brush_settingsEffect (s : EditorState) :
  (brush <$> canvasRef (settingsEffect s)) = (brush <$> canvasRef s).
Proof.
  unfold settingsEffect. destruct (canvasRef s) eqn:Hc; simpl; rewrite ?Hc;
    reflexivity.
Qed.

Lemma brush_lineTo (p : Point.t) (canvas : CanvasElement) :
  brush (onContext (lineTo p) canvas) = brush canvas.
Proof.
  unfold brush, onContext, lineTo. simpl.
  destruct (isFinite (Point.x p) && isFinite (Point.y p))%bool;
    [destruct (path (context canvas)) |]; reflexivity.
Qed.

Lemma brush_dispatch (i : interaction) (s : EditorState) :
  setsBrush i = false ->
  (brush <$> canvasRef (dispatch coverage decode_png i s))
  = (brush <$> canvasRef s).
Proof.
  destruct i; try discriminate; intros _; simpl.
  - unfold setTool. destruct (Tool_eqb (tool s) pen); [reflexivity |].
    apply (brush_settingsEffect (withTool pen s)).
  - unfold setTool. destruct (Tool_eqb (tool s) eraser); [reflexivity |].
    apply (brush_settingsEffect (withTool eraser s)).
  - unfold clearCanvas. destruct (canvasRef s) eqn:Hc; simpl; rewrite ?Hc;
      reflexivity.
  - unfold setColor. destruct (String.eqb (color s) value); [reflexivity |].
    apply (brush_settingsEffect (withColor value s)).
  - unfold setOpacity. destruct (sameNumber (opacity s) value);
      [reflexivity |].
    apply (brush_settingsEffect (withOpacity value s)).
  - unfold setLineWidth. destruct (sameNumber (lineWidth s) value);
      [reflexivity |].
    apply (brush_settingsEffect (withLineWidth value s)).
  - unfold draw. destruct (isDrawing s); simpl; [| reflexivity].
    destruct (canvasRef s) as [canvas|] eqn:Hc; [| rewrite Hc; reflexivity].
    destruct (getCoordinates e canvas rect) as [p|]; simpl;
      [| rewrite Hc; reflexivity].
    f_equal. apply (brush_lineTo p canvas).
  - unfold stopDrawing. destruct (isDrawing s); simpl; [| reflexivity].
    destruct (canvasRef s) eqn:Hc; simpl; rewrite ?Hc; reflexivity.
Qed.

(** X15: the brush of a stroke is fixed at its pointer down. Choosing
    another tool, colour, opacity or size, clearing, moving the pointer or
    lifting it never changes the operator, the colour or the line width the
    canvas paints with: a tool chosen in the middle of a stroke takes effect
    at the next pointer down. *)
Theorem brush_is_fixed_at_pointer_down
    (inputs : list interaction) (s : EditorState) :
  forallb (fun i => negb (setsBrush i)) inputs = true ->
  (brush <$> canvasRef (dispatchAll coverage decode_png inputs s))
  = (brush <$> canvasRef s).
Proof.
  revert s. induction inputs as [|i rest IH]; intros s H; [reflexivity |].
  simpl in H. apply andb_true_iff in H as [Hi Hrest].
  apply negb_true_iff in Hi. unfold dispatchAll in *. simpl.
  rewrite (IH _ Hrest). apply brush_dispatch, Hi.
Qed.

End EditorFacts.

Lemma getMergedImage_repeatable_once_loaded_witness :
  unpainted everywhere whiteDot
    [ClickPen; ImageLoaded; PointerMove centre dotRect; ChangeSize 9%float;
     PointerDown centre dotRect; PointerUp; ImageLoaded] pennedDot = true
  /\ whiteDot (imageData pennedDot) = Some (Canvas.Bitmap 1 1 [white])
  /\ dimensions pennedDot = {| width := 1; height := 1 |}
  /\ bitmap <$> canvasRef pennedDot = Some (Canvas.Bitmap 1 1 [opaqueRed])
  /\ exists url : option string,
      getMergedImage whiteDot samplePng pennedDot = Some url
      /\ getMergedImage whiteDot samplePng
           (dispatchAll everywhere whiteDot
              [ClickPen; ImageLoaded; PointerMove centre dotRect;
               ChangeSize 9%float; PointerDown centre dotRect; PointerUp;
               ImageLoaded]
              pennedDot) = Some url.
Proof.
  split; [vm_compute; reflexivity |].
  split; [reflexivity | split; [reflexivity |]].
  split; [vm_compute; reflexivity |].
  assert (Hcanvas : exists canvas,
             canvasRef pennedDot = Some canvas
             /\ Canvas.hasNoPixels (bitmap canvas) = false).
  { eexists. split; [vm_compute; reflexivity | reflexivity]. }
  destruct Hcanvas as (canvas & Hcanvas & Hpixels).
  apply (getMergedImage_repeatable_once_loaded everywhere whiteDot samplePng
           pennedDot (Canvas.Bitmap 1 1 [white]) canvas
           [ClickPen; ImageLoaded; PointerMove centre dotRect;
            ChangeSize 9%float; PointerDown centre dotRect; PointerUp;
            ImageLoaded]
           eq_refl eq_refl Hcanvas Hpixels).
  vm_compute. reflexivity.
Defined.

(** C5, as the spec states it, fails: with no stroke ever drawn, the call
    before the picture has loaded never settles and the call after the
    load settles with a text; the two calls do not give the same output
    although no stroke was added, extended or cleared between them. *)
Lemma getMergedImage_differs_across_load :
  bitmap <$> canvasRef (mounted "BASE") = Some (Canvas.Bitmap 0 0 [])
  /\ bitmap
     <$> canvasRef (dispatch everywhere whiteDot ImageLoaded (mounted "BASE"))
     = Some (Canvas.Bitmap 1 1 [Canvas.transparent])
  /\ getMergedImage whiteDot samplePng (mounted "BASE") = None
  /\ getMergedImage whiteDot samplePng
       (dispatch everywhere whiteDot ImageLoaded (mounted "BASE"))
     = Some (Some "iVBO"%string).
Proof. vm_compute. repeat split. Qed.

Lemma getMergedImage_pending_before_load_witness :
  forallb (fun i => negb (isImageLoaded i))
    [PointerDown centre dotRect; PointerMove centre dotRect; PointerUp]
  = true
  /\ getMergedImage whiteDot samplePng
       (dispatchAll everywhere whiteDot
          [PointerDown centre dotRect; PointerMove centre dotRect; PointerUp]
          (mounted "BASE")) = None.
Proof.
  split; [reflexivity |].
  apply (getMergedImage_pending_before_load everywhere whiteDot samplePng
           "BASE"
           [PointerDown centre dotRect; PointerMove centre dotRect;
            PointerUp]).
  reflexivity.
Defined.

Lemma flattened_picture_has_native_size_witness :
  whiteRow "BASE" = Some (Canvas.Bitmap 3 1 [white; white; white])
  /\ dimensions
       (dispatchAll atPoints whiteRow
          ([ClickEraser] ++ ImageLoaded :: [ClickPen; ImageLoaded])
          (mounted "BASE"))
     = {| width := 3; height := 1 |}.
Proof.
  split; [reflexivity |].
  destruct (flattened_picture_has_native_size atPoints whiteRow samplePng
              "BASE" (Canvas.Bitmap 3 1 [white; white; white])
              [ClickEraser] [ClickPen; ImageLoaded] eq_refl eq_refl)
    as [Hd _].
  exact Hd.
Defined.

Lemma brush_is_fixed_at_pointer_down_witness :
  forallb (fun i => negb (setsBrush i))
    [ClickEraser; PointerMove (MouseEvent 2.5%float 0.5%float) rowRect]
  = true
  /\ tool (dispatchAll atPoints whiteRow
             [ClickEraser;
              PointerMove (MouseEvent 2.5%float 0.5%float) rowRect]
             midStroke) = eraser
  /\ (brush <$> canvasRef
                  (dispatchAll atPoints whiteRow
                     [ClickEraser;
                      PointerMove (MouseEvent 2.5%float 0.5%float) rowRect]
                     midStroke))
     = Some (Canvas.source_over, Rgba.Make 255 0 0 1%float, 5%float).
Proof.
  split; [reflexivity | split; [reflexivity |]].
  rewrite (brush_is_fixed_at_pointer_down atPoints whiteRow
             [ClickEraser;
              PointerMove (MouseEvent 2.5%float 0.5%float) rowRect]
             midStroke eq_refl).
  vm_compute. reflexivity.
Defined.

(** ** What a stroke paints *)

Lemma composite_uncovered (op : Canvas.compositeOperation)
    (src old : Canvas.pixel) :
  Canvas.composite op (Canvas.scale src 0) old = old.
Proof.
  rewrite scale_0. destruct op; [apply source_over_transparent |].
  destruct old as [r g b a]. unfold Canvas.composite, Canvas.scale. simpl.
  rewrite !mul255_255. reflexivity.
Qed.

Lemma source_over_opaque (src old : Canvas.pixel) :
  Canvas.alpha src = 255%Z ->
  Canvas.composite Canvas.source_over (Canvas.scale src 255) old = src.
Proof.
  intros Ha. destruct src as [r g b a]. simpl in Ha. subst a.
  unfold Canvas.composite, Canvas.scale, Canvas.plus. simpl.
  rewrite !mul255_255, !mul255_0, !Z.add_0_r. reflexivity.
Qed.

Section StrokeFacts.

Variable coverage :
  lineShape -> lineShape -> number -> list subpath -> nat -> nat -> Z.
Variable decode_png : string -> option Canvas.bitmap.

(** X16: a pointer move changes only the pixels its stroke covers.
    Whatever the tool, a pixel that the stroke of the current path does
    not cover at all is after the move what it was before. *)
Theorem strokes_leave_uncovered_pixels
    (e : PointerEvent) (rect : DOMRect.t) (s : EditorState)
    (canvas : CanvasElement) :
  canvasRef s = Some canvas ->
  exists moved : CanvasElement,
    canvasRef (draw coverage e rect s) = Some moved
    /\ forall x y : nat,
        coverage (lineCap (context moved)) (lineJoin (context moved))
          (ctxLineWidth (context moved)) (path (context moved)) x y = 0%Z ->
        Canvas.getPixel (bitmap moved) x y
        = Canvas.getPixel (bitmap canvas) x y.
Proof.
  intros Hc. destruct (draw_canvas coverage e rect s canvas Hc) as [H | [p H]].
  - exists canvas. split; [exact H | reflexivity].
  - eexists. split; [exact H |]. unfold stroke. cbn [bitmap context].
    intros x y Hcover. rewrite getPixel_repaint, Hcover.
    destruct (Canvas.getPixel (bitmap (onContext (lineTo p) canvas)) x y)
      as [old|] eqn:Hold; unfold onContext in Hold; cbn [bitmap] in Hold;
      rewrite Hold; [| reflexivity].
    cbn [fmap option_fmap option_map]. f_equal. apply composite_uncovered.
Qed.

(** The canvas in the middle of a stroke that paints through [op] with
    [style], with the pixels of [before] still in place. *)
Definition paintsWith (op : Canvas.compositeOperation) (style : Rgba.t)
    (before canvas : CanvasElement) : Prop :=
  globalCompositeOperation (context canvas) = op
  /\ strokeStyle (context canvas) = style
  /\ Canvas.hasNoPixels (bitmap canvas) = Canvas.hasNoPixels (bitmap before)
  /\ forall x y : nat,
      Canvas.getPixel (bitmap before) x y <> None ->
      Canvas.getPixel (bitmap canvas) x y <> None.

Lemma paintsWith_stroke (op : Canvas.compositeOperation) (style : Rgba.t)
    (before canvas : CanvasElement) (p : Point.t) :
  paintsWith op style before canvas ->
  paintsWith op style before (stroke coverage (onContext (lineTo p) canvas)).
Proof.
  intros (Hop & Hstyle & Hpixels & Hkept). unfold paintsWith, stroke. simpl.
  destruct (lineTo_style p (context canvas)) as [-> ->].
  repeat split; try assumption.
  intros x y Hbefore. rewrite getPixel_repaint.
  specialize (Hkept x y Hbefore).
  destruct (Canvas.getPixel (bitmap canvas) x y); [discriminate | congruence].
Qed.

Lemma paintsWith_drawAll (op : Canvas.compositeOperation) (style : Rgba.t)
    (moves : list (PointerEvent * DOMRect.t))
    (s : EditorState) (before canvas : CanvasElement) :
  canvasRef s = Some canvas -> paintsWith op style before canvas ->
  exists later : CanvasElement,
    canvasRef (drawAll coverage moves s) = Some later
    /\ paintsWith op style before later.
Proof.
  revert s canvas. induction moves as [|[e rect] rest IH];
    intros s canvas Hc Hp; [exists canvas; auto |].
  unfold drawAll in *. simpl.
  destruct (draw_canvas coverage e rect s canvas Hc) as [H | [p H]].
  - apply (IH _ canvas H Hp).
  - apply (IH _ _ H). apply paintsWith_stroke, Hp.
Qed.

Lemma startDrawing_pen (s : EditorState) (canvas : CanvasElement)
    (e : PointerEvent) (rect : DOMRect.t) (c : Rgba.t) :
  tool s = pen -> canvasRef s = Some canvas ->
  penColor (color s) (opacity s) = Some c -> hasPosition e = true ->
  isDrawing (startDrawing e rect s) = true
  /\ exists started : CanvasElement,
      canvasRef (startDrawing e rect s) = Some started
      /\ paintsWith Canvas.source_over c canvas started.
Proof.
  intros Htool Hcanvas Hcolor Hpos. unfold startDrawing.
  rewrite Hcanvas, Htool, Hcolor.
  destruct (getCoordinates_position e canvas rect Hpos) as [p ->].
  split; [reflexivity |]. eexists. split; [reflexivity |].
  unfold paintsWith. simpl. repeat split. auto.
Qed.

(** X17: an opaque pen hides what is under it. Take a stroke with the
    pen, pointer down, any moves, and a last move, in a colour that CSS
    reads with full opacity. Where the stroke then covers a pixel fully,
    the annotation canvas holds the pen's colour, opaque, and so does the
    flattened picture: nothing of the base image shows through there. *)
Theorem opaque_pen_hides_base_image
    (s : EditorState) (canvas : CanvasElement) (c : Rgba.t)
    (e0 e1 : PointerEvent) (rect0 rect1 : DOMRect.t)
    (moves : list (PointerEvent * DOMRect.t)) :
  tool s = pen -> canvasRef s = Some canvas ->
  penColor (color s) (opacity s) = Some c -> alpha8 (Rgba.a c) = 255%Z ->
  hasPosition e0 = true -> hasPosition e1 = true ->
  let s' :=
    draw coverage e1 rect1
      (drawAll coverage moves (startDrawing e0 rect0 s)) in
  let ink :=
    Canvas.Pixel (clamp255 (Rgba.r c)) (clamp255 (Rgba.g c))
      (clamp255 (Rgba.b c)) 255 in
  exists painted : CanvasElement,
    canvasRef s' = Some painted
    /\ forall (x y : nat) (old : Canvas.pixel),
        coverage (lineCap (context painted)) (lineJoin (context painted))
          (ctxLineWidth (context painted)) (path (context painted)) x y
        = 255%Z ->
        Canvas.getPixel (bitmap canvas) x y = Some old ->
        Canvas.getPixel (bitmap painted) x y = Some ink
        /\ forall (img : Canvas.bitmap) (under : Canvas.pixel),
            decode_png (imageData s) = Some img ->
            Canvas.hasNoPixels (bitmap canvas) = false ->
            Canvas.getPixel
              (Canvas.drawImage img
                 (Canvas.blank (width (dimensions s))
                    (height (dimensions s)))) x y = Some under ->
            exists merged : Canvas.bitmap,
              mergedCanvas decode_png s' = Some merged
              /\ Canvas.getPixel merged x y = Some ink.
Proof.
  intros Htool Hcanvas Hcolor Hopaque H0 H1 s' ink.
  assert (Hink : paint c = ink).
  { unfold paint, ink. rewrite Hopaque, !mul255_255. reflexivity. }
  destruct (startDrawing_pen s canvas e0 rect0 c Htool Hcanvas Hcolor H0)
    as (Hdown & started & Hstarted & Hbegun).
  destruct (paintsWith_drawAll _ _ moves _ canvas started Hstarted Hbegun)
    as (later & Hlater & (Hop & Hstyle & Hpixels & Hkept)).
  destruct (drawAll_fields coverage moves (startDrawing e0 rect0 s))
    as (Hi & Hd & Hflag).
  destruct (startDrawing_fields e0 rect0 s) as [Hi0 Hd0].
  destruct (getCoordinates_position e1 later rect1 H1) as [p1 Hp1].
  assert (Hrun : canvasRef s'
                 = Some (stroke coverage (onContext (lineTo p1) later))).
  { unfold s', draw. rewrite Hflag, Hdown, Hlater. simpl.
    rewrite Hp1. reflexivity. }
  exists (stroke coverage (onContext (lineTo p1) later)).
  split; [exact Hrun |].
  intros x y old Hcover Hold.
  assert (Hlayer : Canvas.getPixel (bitmap later) x y <> None)
    by (apply Hkept; rewrite Hold; discriminate).
  assert (Hpainted :
            Canvas.getPixel
              (bitmap (stroke coverage (onContext (lineTo p1) later))) x y
            = Some ink).
  { unfold stroke in *. cbn [bitmap context onContext] in *.
    destruct (lineTo_style p1 (context later)) as [Hop1 Hstyle1].
    rewrite getPixel_repaint, Hop1, Hstyle1, Hop, Hstyle, Hcover, Hink.
    destruct (Canvas.getPixel (bitmap later) x y) as [below|];
      [| congruence].
    cbn [fmap option_fmap option_map]. f_equal.
    apply source_over_opaque. reflexivity. }
  split; [exact Hpainted |].
  intros img under Himg Hnonempty Hunder.
  assert (Hs' : imageData s' = imageData s
                /\ dimensions s' = dimensions s).
  { unfold s'. destruct (draw_fields coverage e1 rect1
               (drawAll coverage moves (startDrawing e0 rect0 s)))
      as (-> & -> & _).
    rewrite Hi, Hd, Hi0, Hd0. auto. }
  destruct Hs' as [His Hds].
  unfold mergedCanvas. rewrite His, Himg, Hds, Hrun.
  rewrite (hasNoPixels_stroke coverage p1 later), Hpixels, Hnonempty.
  eexists. split; [reflexivity |].
  unfold Canvas.drawImage at 1. rewrite getPixel_repaint, Hpainted, Hunder.
  cbn [fmap option_fmap option_map]. f_equal.
  rewrite <- (source_over_opaque ink under eq_refl) at 2.
  unfold ink, Canvas.scale. cbn [Canvas.red Canvas.green Canvas.blue
                                  Canvas.alpha].
  rewrite !mul255_255. reflexivity.
Qed.

End StrokeFacts.

Lemma strokes_leave_uncovered_pixels_witness :
  exists canvas moved : CanvasElement,
    canvasRef midStroke = Some canvas
    /\ canvasRef (draw atPoints (MouseEvent 1.5%float 0.5%float) rowRect
                    midStroke) = Some moved
    /\ Canvas.getPixel (bitmap canvas) 2 0 = Some Canvas.transparent
    /\ Canvas.getPixel (bitmap moved) 2 0 = Some Canvas.transparent.
Proof.
  assert (Hmid : exists canvas,
             canvasRef midStroke = Some canvas
             /\ Canvas.getPixel (bitmap canvas) 2 0
                = Some Canvas.transparent).
  { eexists. split; [vm_compute; reflexivity | reflexivity]. }
  destruct Hmid as (canvas & Hcanvas & Hold).
  destruct (strokes_leave_uncovered_pixels atPoints
              (MouseEvent 1.5%float 0.5%float) rowRect midStroke canvas
              Hcanvas) as (moved & Hmoved & Hsame).
  exists canvas, moved.
  split; [exact Hcanvas | split; [exact Hmoved | split; [exact Hold |]]].
  rewrite <- Hold. apply Hsame.
  assert (Hvalue : canvasRef (draw atPoints (MouseEvent 1.5%float 0.5%float)
                                rowRect midStroke) = Some moved)
    by exact Hmoved.
  vm_compute in Hvalue. injection Hvalue as <-. reflexivity.
Defined.

Lemma opaque_pen_hides_base_image_witness :
  tool dotEditor = pen
  /\ penColor (color dotEditor) (opacity dotEditor)
     = Some (Rgba.Make 255 0 0 1%float)
  /\ exists painted merged : Canvas.bitmap,
      bitmap <$> canvasRef
                   (draw everywhere centre dotRect
                      (drawAll everywhere []
                         (startDrawing centre dotRect dotEditor)))
      = Some painted
      /\ Canvas.getPixel painted 0 0 = Some opaqueRed
      /\ mergedCanvas whiteDot
           (draw everywhere centre dotRect
              (drawAll everywhere []
                 (startDrawing centre dotRect dotEditor))) = Some merged
      /\ Canvas.getPixel merged 0 0 = Some opaqueRed.
Proof.
  split; [reflexivity | split; [reflexivity |]].
  assert (Hcanvas : exists canvas,
             canvasRef dotEditor = Some canvas
             /\ bitmap canvas = Canvas.Bitmap 1 1 [Canvas.transparent]).
  { eexists. split; [vm_compute; reflexivity | reflexivity]. }
  destruct Hcanvas as (canvas & Hcanvas & Hbitmap).
  destruct (opaque_pen_hides_base_image everywhere whiteDot dotEditor canvas
              (Rgba.Make 255 0 0 1%float) centre centre dotRect dotRect []
              eq_refl Hcanvas eq_refl eq_refl eq_refl eq_refl)
    as (painted & Hrun & Hpixel).
  assert (Hold : Canvas.getPixel (bitmap canvas) 0 0
                 = Some Canvas.transparent)
    by (rewrite Hbitmap; reflexivity).
  destruct (Hpixel 0%nat 0%nat Canvas.transparent eq_refl Hold)
    as [Hink Hmerge].
  assert (Hpixels : Canvas.hasNoPixels (bitmap canvas) = false)
    by (rewrite Hbitmap; reflexivity).
  destruct (Hmerge (Canvas.Bitmap 1 1 [white]) white eq_refl Hpixels eq_refl)
    as (merged & Hmerged & Hshown).
  exists (bitmap painted), merged.
  split; [rewrite Hrun; reflexivity | split; [exact Hink | split]].
  - exact Hmerged.
  - exact Hshown.
Defined.

(** ** The colour of the pen *)

(** What a hexadecimal digit is not. *)
Lemma hexDigit_plain (c : ascii) (d : Z) :
  hexDigit c = Some d ->
  isWhiteSpace c = false
  /\ Ascii.eqb c "-" = false /\ Ascii.eqb c "+" = false
  /\ Ascii.eqb c "x" = false /\ Ascii.eqb c "X" = false
  /\ (0 <= d <= 15)%Z.
Proof.
  destruct c as [[] [] [] [] [] [] [] []]; intros H; vm_compute in H;
    try discriminate H; injection H as <-; repeat split;
    discriminate.
Qed.

Lemma hexDigits_two_digits (c1 c2 : ascii) (d1 d2 : Z) :
  hexDigit c1 = Some d1 -> hexDigit c2 = Some d2 ->
  hexDigits None (String c1 (String c2 EmptyString))
  = Some (16 * (16 * 0 + d1) + d2)%Z.
Proof. intros H1 H2. cbn [hexDigits]. rewrite H1, H2. reflexivity. Qed.

(** [parseInt] of two hexadecimal digits, base 16: no white space, sign
    or [0x] prefix is read into them. *)
Lemma parseInt16_two_digits (c1 c2 : ascii) (d1 d2 : Z) :
  hexDigit c1 = Some d1 -> hexDigit c2 = Some d2 ->
  parseInt16 (String c1 (String c2 EmptyString)) = Some (16 * d1 + d2)%Z.
Proof.
  intros H1 H2.
  pose proof (hexDigits_two_digits c1 c2 d1 d2 H1 H2) as Hd.
  replace (16 * (16 * 0 + d1) + d2)%Z with (16 * d1 + d2)%Z in Hd by lia.
  destruct c1 as [[] [] [] [] [] [] [] []];
    try (vm_compute in H1; discriminate H1);
    first
      [ unfold parseInt16;
        lazy -[hexDigits hexDigit Z.add Z.mul Z.opp];
        rewrite Hd; reflexivity
      | destruct c2 as [[] [] [] [] [] [] [] []];
        try (vm_compute in H2; discriminate H2);
        vm_compute in H1; vm_compute in H2;
        injection H1 as <-; injection H2 as <-; reflexivity ].
Qed.

(** X18: the pen's colour is read off the colour text digit by digit.
    For a text [#rrggbb] of six hexadecimal digits and a finite opacity,
    the stroke style gets the three channels [16 * high + low], each
    between 0 and 255, and the opacity as its alpha. *)
Theorem penColor_reads_hex_channels
    (r1 r2 g1 g2 b1 b2 : ascii) (vr1 vr2 vg1 vg2 vb1 vb2 : Z)
    (opacity : number) :
  hexDigit r1 = Some vr1 -> hexDigit r2 = Some vr2 ->
  hexDigit g1 = Some vg1 -> hexDigit g2 = Some vg2 ->
  hexDigit b1 = Some vb1 -> hexDigit b2 = Some vb2 ->
  isFinite opacity = true ->
  let text :=
    String "#" (String r1 (String r2 (String g1 (String g2
      (String b1 (String b2 EmptyString)))))) in
  penColor text opacity
  = Some (Rgba.Make (16 * vr1 + vr2) (16 * vg1 + vg2) (16 * vb1 + vb2)
            opacity)
  /\ (0 <= 16 * vr1 + vr2 <= 255)%Z
  /\ (0 <= 16 * vg1 + vg2 <= 255)%Z
  /\ (0 <= 16 * vb1 + vb2 <= 255)%Z.
Proof.
  intros Hr1 Hr2 Hg1 Hg2 Hb1 Hb2 Hfinite text.
  split.
  - unfold penColor, text, slice. cbn [substring Nat.sub].
    rewrite (parseInt16_two_digits r1 r2 vr1 vr2 Hr1 Hr2),
      (parseInt16_two_digits g1 g2 vg1 vg2 Hg1 Hg2),
      (parseInt16_two_digits b1 b2 vb1 vb2 Hb1 Hb2), Hfinite.
    reflexivity.
  - pose proof (hexDigit_plain r1 vr1 Hr1) as (_ & _ & _ & _ & _ & ?).
    pose proof (hexDigit_plain r2 vr2 Hr2) as (_ & _ & _ & _ & _ & ?).
    pose proof (hexDigit_plain g1 vg1 Hg1) as (_ & _ & _ & _ & _ & ?).
    pose proof (hexDigit_plain g2 vg2 Hg2) as (_ & _ & _ & _ & _ & ?).
    pose proof (hexDigit_plain b1 vb1 Hb1) as (_ & _ & _ & _ & _ & ?).
    pose proof (hexDigit_plain b2 vb2 Hb2) as (_ & _ & _ & _ & _ & ?).
    lia.
Qed.

Lemma penColor_reads_hex_channels_witness :
  hexDigit "1" = Some 1%Z /\ hexDigit "e" = Some 14%Z
  /\ hexDigit "9" = Some 9%Z /\ hexDigit "0" = Some 0%Z
  /\ hexDigit "F" = Some 15%Z
  /\ penColor "#1e90FF" 0.5%float
     = Some (Rgba.Make 30 144 255 0.5%float).
Proof.
  repeat (split; [reflexivity |]).
  apply (penColor_reads_hex_channels "1" "e" "9" "0" "F" "F"
           1 14 9 0 15 15 0.5%float); reflexivity.
Defined.

(** ** The path of a stroke *)

(** [lineTo] and [moveTo] take a point with finite coordinates. *)
Definition finitePoint (p : Point.t) : bool :=
  (isFinite (Point.x p) && isFinite (Point.y p))%bool.

(** The event of a pointer down or move, with the rectangle of the
    canvas at that moment, maps to the point [p] of the canvas, whose
    coordinates are finite. *)
Definition landsAt (canvas : CanvasElement)
    (move : PointerEvent * DOMRect.t) (p : Point.t) : Prop :=
  getCoordinates (fst move) canvas (snd move) = Normal p
  /\ finitePoint p = true.

(** Two canvases of one size. *)
Definition sameSize (a b : CanvasElement) : Prop :=
  Canvas.width (bitmap a) = Canvas.width (bitmap b)
  /\ Canvas.height (bitmap a) = Canvas.height (bitmap b).

(** An open subpath through the points, alone on the path. *)
Definition openPath (pts : list Point.t) : list subpath :=
  [{| points := pts; closed := false |}].

Section InkFacts.

Variable coverage :
  lineShape -> lineShape -> number -> list subpath -> nat -> nat -> Z.

Lemma getCoordinates_sameSize (e : PointerEvent) (rect : DOMRect.t)
    (a b : CanvasElement) :
  sameSize a b -> getCoordinates e a rect = getCoordinates e b rect.
Proof.
  intros [Hw Hh]. unfold getCoordinates. rewrite Hw, Hh. reflexivity.
Qed.

Lemma path_setCtxLineWidth (v : number) (ctx : Context2D) :
  path (setCtxLineWidth v ctx) = path ctx.
Proof.
  unfold setCtxLineWidth. destruct (isFinite v && (0 <? v)%float)%bool;
    reflexivity.
Qed.

Lemma path_setStrokeStyle (parsed : option Rgba.t) (ctx : Context2D) :
  path (setStrokeStyle parsed ctx) = path ctx.
Proof. destruct parsed; reflexivity. Qed.

(** A pointer down starts the path anew, at its own point. *)
Lemma startDrawing_path (e : PointerEvent) (rect : DOMRect.t) (p : Point.t)
    (s : EditorState) (canvas : CanvasElement) :
  canvasRef s = Some canvas -> landsAt canvas (e, rect) p ->
  exists started : CanvasElement,
    canvasRef (startDrawing e rect s) = Some started
    /\ isDrawing (startDrawing e rect s) = true
    /\ bitmap started = bitmap canvas
    /\ path (context started) = openPath [p].
Proof.
  intros Hcanvas [Hp Hfinite]. simpl in Hp. unfold startDrawing.
  rewrite Hcanvas, Hp. eexists.
  split; [destruct s; reflexivity | split; [destruct s; reflexivity |]].
  split; [reflexivity |]. cbn [context].
  assert (Hmoved : path (moveTo p (beginPath (context canvas)))
                   = openPath [p]).
  { unfold moveTo. unfold finitePoint in Hfinite. rewrite Hfinite.
    reflexivity. }
  destruct (tool s); rewrite path_setStrokeStyle; cbn [path
    setGlobalCompositeOperation]; rewrite path_setCtxLineWidth;
    exact Hmoved.
Qed.

(** A pointer move of a stroke in progress strokes the path so far,
    extended by its own point. *)
Lemma draw_strokes_path (move : PointerEvent * DOMRect.t) (p : Point.t)
    (pts : list Point.t) (s : EditorState) (canvas c : CanvasElement) :
  landsAt canvas move p -> sameSize c canvas ->
  canvasRef s = Some c -> isDrawing s = true ->
  path (context c) = openPath pts ->
  draw coverage (fst move) (snd move) s
  = setCanvasRef
      (Some (stroke coverage (onContext (withPath (openPath (pts ++ [p]))) c)))
      s.
Proof.
  intros [Hp Hfinite] Hsize Hc Hflag Hpath. unfold draw.
  rewrite Hflag, Hc. cbn [negb].
  rewrite (getCoordinates_sameSize _ _ c canvas Hsize), Hp.
  unfold onContext, lineTo. unfold finitePoint in Hfinite.
  rewrite Hfinite, Hpath. reflexivity.
Qed.

Lemma drawAll_path (moves : list (PointerEvent * DOMRect.t))
    (ps pts : list Point.t) (s : EditorState) (canvas c : CanvasElement) :
  Forall2 (landsAt canvas) moves ps -> sameSize c canvas ->
  canvasRef s = Some c -> isDrawing s = true ->
  path (context c) = openPath pts ->
  exists drawn : CanvasElement,
    canvasRef (drawAll coverage moves s) = Some drawn
    /\ isDrawing (drawAll coverage moves s) = true
    /\ sameSize drawn canvas
    /\ path (context drawn) = openPath (pts ++ ps).
Proof.
  intros Hmoves. revert pts s c.
  induction Hmoves as [|move p moves ps Hmove _ IH];
    intros pts s c Hsize Hc Hflag Hpath.
  - exists c. rewrite app_nil_r. repeat split; try assumption; apply Hsize.
  - unfold drawAll in *. simpl.
    rewrite (draw_strokes_path move p pts s canvas c Hmove Hsize Hc Hflag
               Hpath).
    destruct (IH (pts ++ [p])
                (setCanvasRef
                   (Some (stroke coverage
                            (onContext (withPath (openPath (pts ++ [p])))
                               c))) s)
                (stroke coverage
                   (onContext (withPath (openPath (pts ++ [p]))) c)))
      as (drawn & Hdrawn & Hflag' & Hsize' & Hpath').
    + exact Hsize.
    + destruct s; reflexivity.
    + destruct s; exact Hflag.
    + reflexivity.
    + exists drawn. rewrite <- app_assoc in Hpath'.
      split; [exact Hdrawn | split; [exact Hflag' | split; assumption]].
Qed.

(** X19: every pointer move of a stroke strokes the whole path drawn
    since the pointer went down, not only its newest segment. After a
    pointer down and any number of moves, all at positions with finite
    coordinates, the path of the context is one open subpath through
    these positions in order, whatever path the context held before; and
    the next move calls [stroke] on that path with its own position
    added, so that it paints over all the earlier segments of the stroke
    again. *)
Theorem every_move_strokes_whole_path
    (s : EditorState) (canvas : CanvasElement)
    (e0 : PointerEvent) (rect0 : DOMRect.t) (p0 : Point.t)
    (moves : list (PointerEvent * DOMRect.t)) (ps : list Point.t)
    (next : PointerEvent * DOMRect.t) (p : Point.t) :
  canvasRef s = Some canvas ->
  landsAt canvas (e0, rect0) p0 ->
  Forall2 (landsAt canvas) moves ps ->
  landsAt canvas next p ->
  let stroked := drawAll coverage moves (startDrawing e0 rect0 s) in
  exists drawn : CanvasElement,
    canvasRef stroked = Some drawn
    /\ isDrawing stroked = true
    /\ path (context drawn) = openPath (p0 :: ps)
    /\ canvasRef (draw coverage (fst next) (snd next) stroked)
       = Some (stroke coverage
                 (onContext (withPath (openPath (p0 :: ps ++ [p]))) drawn)).
Proof.
  intros Hcanvas Hdown Hmoves Hnext stroked.
  destruct (startDrawing_path e0 rect0 p0 s canvas Hcanvas Hdown)
    as (started & Hstarted & Hflag & Hbitmap & Hpath).
  assert (Hsize : sameSize started canvas)
    by (unfold sameSize; rewrite Hbitmap; split; reflexivity).
  destruct (drawAll_path moves ps [p0] _ canvas started Hmoves Hsize
              Hstarted Hflag Hpath)
    as (drawn & Hdrawn & Hflag' & Hsize' & Hpath').
  exists drawn. fold stroked in Hdrawn, Hflag'.
  split; [exact Hdrawn | split; [exact Hflag' | split; [exact Hpath' |]]].
  rewrite (draw_strokes_path next p ([p0] ++ ps) stroked canvas drawn Hnext
             Hsize' Hdrawn Hflag' Hpath').
  destruct stroked; reflexivity.
Qed.

End InkFacts.

(** The editor on a row of three white pixels, loaded. *)
Definition rowEditor : EditorState := onload whiteRow (mounted "BASE").

Lemma every_move_strokes_whole_path_witness :
  exists drawn : CanvasElement,
    canvasRef
      (drawAll atPoints [(MouseEvent 1.5%float 0.5%float, rowRect)]
         (startDrawing (MouseEvent 0.5%float 0.5%float) rowRect rowEditor))
    = Some drawn
    /\ path (context drawn)
       = openPath [Point.Make 0.5%float 0.5%float;
                   Point.Make 1.5%float 0.5%float]
    /\ canvasRef
         (draw atPoints (MouseEvent 2.5%float 0.5%float) rowRect
            (drawAll atPoints [(MouseEvent 1.5%float 0.5%float, rowRect)]
               (startDrawing (MouseEvent 0.5%float 0.5%float) rowRect
                  rowEditor)))
       = Some (stroke atPoints
                 (onContext
                    (withPath
                       (openPath [Point.Make 0.5%float 0.5%float;
                                  Point.Make 1.5%float 0.5%float;
                                  Point.Make 2.5%float 0.5%float]))
                    drawn)).
Proof.
  assert (Hcanvas : canvasRef rowEditor
                    = Some (freshCanvas {| width := 3; height := 1 |}))
    by reflexivity.
  destruct (every_move_strokes_whole_path atPoints rowEditor
              (freshCanvas {| width := 3; height := 1 |})
              (MouseEvent 0.5%float 0.5%float) rowRect
              (Point.Make 0.5%float 0.5%float)
              [(MouseEvent 1.5%float 0.5%float, rowRect)]
              [Point.Make 1.5%float 0.5%float]
              (MouseEvent 2.5%float 0.5%float, rowRect)
              (Point.Make 2.5%float 0.5%float)
              Hcanvas)
    as (drawn & Hdrawn & _ & Hpath & Hnext).
  - split; vm_compute; reflexivity.
  - constructor; [split; vm_compute; reflexivity | constructor].
  - split; vm_compute; reflexivity.
  - exists drawn.
    split; [exact Hdrawn | split; [exact Hpath | exact Hnext]].
Defined.

End EditorSpec.
